(** * portfolio-backend: the HTTP surface of [server.js]

    A shallow embedding of the request handlers of [server.js] and of the
    pool declared in [db/dbconfig.js].  Every handler is an [async]
    function that reads the Express request, talks to a leased MySQL
    connection, the [public/] directory or the mail transport, and writes
    one JSON response; here it is a computation in a state-and-exception
    monad over a [World].

    What the handlers call but the repository does not contain is kept
    apart:
    - pure library functions whose exact behaviour depends on the library
      (Zod's e-mail and URL tests, bcrypt, jsonwebtoken, the server's [=]
      on column values) are the fields of the class [Platform];
    - the collaborators with state (MySQL through [mysql2/promise],
      multer's disk storage, nodemailer) are small executable models,
      each with a comment that says what it keeps of the original. *)

From Stdlib Require Import ZArith String Ascii List Bool DecimalString Lia.
From Stdlib Require Import DecimalPos DecimalZ.
From stdpp Require Import base option gmap strings list.
Import ListNotations.
Local Open Scope Z_scope.
Local Open Scope string_scope.
#[local] Set Warnings "-clear-no-such-hyp".

(** ** JavaScript values *)

(** Values carried by request fields and table columns.  A property read
    yields [option prim], where [None] is [undefined].  Numbers are
    integers; arrays and nested objects in request fields are outside the
    model. *)
Inductive prim :=
| PNull
| PBool (b : bool)
| PNum (n : Z)
| PStr (s : string).

(** JSON documents written by [res.json]. *)
#[warnings="-register-all"]
Inductive json :=
| JV (p : prim)
| JArr (items : list json)
| JObj (fields : list (string * json)).

Definition JS (s : string) : json := JV (PStr s).

(** [!v] is [negb (truthy v)]. *)
Definition truthy (v : option prim) : bool :=
  match v with
  | None | Some PNull => false
  | Some (PBool b) => b
  | Some (PNum n) => negb (Z.eqb n 0)
  | Some (PStr s) => negb (String.eqb s "")
  end.

(** [typeof v === "string"]. *)
Definition is_string (v : option prim) : bool :=
  match v with Some (PStr _) => true | _ => false end.

(** Decimal text of an integer, as [String(n)] and template literals print
    it. *)
Definition decimal (n : Z) : string := NilZero.string_of_int (Z.to_int n).

(** [String(v)], which is also what a template literal does. *)
Definition to_String (v : option prim) : string :=
  match v with
  | None => "undefined"
  | Some PNull => "null"
  | Some (PBool true) => "true"
  | Some (PBool false) => "false"
  | Some (PNum n) => decimal n
  | Some (PStr s) => s
  end.

(** [undefined] is dropped by [JSON.stringify]; a field holding it is not
    written. *)
Definition opt_field (k : string) (v : option prim) : list (string * json) :=
  match v with Some p => [(k, JV p)] | None => [] end.

(** ** Library functions taken as parameters *)

Inductive zcode := invalid_type | invalid_enum_value.

Class Platform := {
  (** Zod's test behind [.email()]. *)
  is_email : string -> bool;
  (** Zod's test behind [.url()]: [new URL(s)] does not throw. *)
  is_url : string -> bool;
  (** The message Zod writes for an issue that has no message of the
      schema's own, from the issue code and the value received. *)
  zod_message : zcode -> option prim -> string;
  (** [bcrypt.compare(data, hash)] on two strings. *)
  bcrypt_compare : string -> string -> bool;
  (** [jwt.sign(payload, secret, {expiresIn})]: payload fields, secret,
      issue time in milliseconds, lifetime in seconds. *)
  jwt_sign : list (string * json) -> string -> Z -> Z -> string;
  (** The message Zod writes when [z.object(...)] is handed an array. *)
  zod_expected_object : string;
  (** The server's [column = value] for a value that is not NULL. *)
  sql_eq : prim -> prim -> bool
}.

(** ** The world a handler runs in *)

Abbreviation Row := (gmap string prim).

(** A table: the counter of its [AUTO_INCREMENT] key [id], which every
    table of the model has, the names of its other columns, and its rows.
    A column a row holds no value for is [NULL] there. *)
Record Table := { next_id : Z; columns : list string; rows : list Row }.

(** A statement as [connection.query(sql, values)] sends it: the five SQL
    texts of [server.js] with their placeholders filled. *)
Inductive Statement :=
| Insert (table : string) (cols : list string) (vals : list (option prim))
| Update (table : string) (sets : list (string * option prim)) (id : option prim)
| SelectAll (table : string)
| SelectWhere (table : string) (col : string) (v : option prim)
| Delete (table : string) (id : option prim).

Inductive Smtp := Delivered | Refused (response : string) | Unreachable.

Record Mail := { mail_to : string; mail_subject : string }.

(** A response is a JSON document, or a file of [public/] served by
    [express.static]. *)
Inductive Body :=
| Json (doc : json)
| StaticFile (name : string).

Record Response := { status : Z; content : Body }.

(** What the handlers read and never write. *)
Record Env := {
  reachable : bool;             (* [pool.getConnection()] resolves *)
  secret : option string;       (* [process.env.SECRET_KEY] *)
  mail_template : option string;(* contents of [email/mail.html] *)
  smtp : Smtp;                  (* what [transporter.sendMail] meets *)
  clock : Z                     (* [Date.now()] when a token is signed *)
}.

Record World := {
  env : Env;
  tables : gmap string Table;   (* the database *)
  leased : nat;                 (* connections handed out, not yet released *)
  statements : list Statement;  (* statements sent to the server, oldest first *)
  public : gset string;         (* names of the files under [public/] *)
  outbox : list Mail;           (* mails handed to the transport *)
  sent : option Response        (* the response written for the request *)
}.

Definition set_tables (t : gmap string Table) (w : World) : World :=
  {| env := env w; tables := t; leased := leased w; statements := statements w;
     public := public w; outbox := outbox w; sent := sent w |}.
Definition set_leased (n : nat) (w : World) : World :=
  {| env := env w; tables := tables w; leased := n; statements := statements w;
     public := public w; outbox := outbox w; sent := sent w |}.
Definition set_statements (l : list Statement) (w : World) : World :=
  {| env := env w; tables := tables w; leased := leased w; statements := l;
     public := public w; outbox := outbox w; sent := sent w |}.
Definition set_public (p : gset string) (w : World) : World :=
  {| env := env w; tables := tables w; leased := leased w; statements := statements w;
     public := p; outbox := outbox w; sent := sent w |}.
Definition set_outbox (o : list Mail) (w : World) : World :=
  {| env := env w; tables := tables w; leased := leased w; statements := statements w;
     public := public w; outbox := o; sent := sent w |}.
Definition set_sent (r : option Response) (w : World) : World :=
  {| env := env w; tables := tables w; leased := leased w; statements := statements w;
     public := public w; outbox := outbox w; sent := r |}.

(** ** Exceptions and the handler monad *)

(** An issue of a [ZodError]: [path] is [err.path[0]], which an issue
    about the parsed value as a whole does not have. *)
Record Issue := { path : option string; message : string }.

(** The thrown values the [catch] blocks tell apart: [instanceof
    z.ZodError], a truthy [error.response], anything else. *)
Inductive exn :=
| ZodError (errors : list Issue)
| ResponseError (response : string)
| PlainError (name : string).

Inductive outcome (A : Type) :=
| Ok (a : A)
| Throw (e : exn).
Arguments Ok {A} a.
Arguments Throw {A} e.

Definition M (A : Type) : Type := World -> outcome A * World.

Definition ret {A} (a : A) : M A := fun w => (Ok a, w).
Definition throw {A} (e : exn) : M A := fun w => (Throw e, w).
Definition bind {A B} (m : M A) (k : A -> M B) : M B :=
  fun w => match m w with
           | (Ok a, w') => k a w'
           | (Throw e, w') => (Throw e, w')
           end.

Declare Scope js_scope.
Delimit Scope js_scope with js.
Notation "x <- m ;; k" := (bind m (fun x => k))
  (at level 100, m at next level, right associativity) : js_scope.
Notation "m ;; k" := (bind m (fun _ => k))
  (at level 100, right associativity) : js_scope.
Local Open Scope js_scope.

(** [try { m } catch (error) { h error }]. *)
Definition try_catch {A} (m : M A) (h : exn -> M A) : M A :=
  fun w => match m w with
           | (Ok a, w') => (Ok a, w')
           | (Throw e, w') => h e w'
           end.

(** [try { m } finally { f }]: [f] runs on every way out of [m]; the
    outcome of [m] stands unless [f] throws. *)
Definition try_finally {A} (m : M A) (f : M unit) : M A :=
  fun w => let (r, w') := m w in
           match f w' with
           | (Ok _, w'') => (r, w'')
           | (Throw e, w'') => (Throw e, w'')
           end.

(** [res.status(code).json(doc)].  Express writes one response per
    request; a second write throws [ERR_HTTP_HEADERS_SENT]. *)
Definition send (code : Z) (doc : json) : M unit :=
  fun w => match sent w with
           | None => (Ok tt, set_sent (Some {| status := code; content := Json doc |}) w)
           | Some _ => (Throw (PlainError "ERR_HTTP_HEADERS_SENT"), w)
           end.

(** ** The pool and the connection ([mysql2/promise]) *)

Section Server.
Context {P : Platform}.

(** [await pool.getConnection()]. *)
Definition getConnection : M unit :=
  fun w => if reachable (env w)
           then (Ok tt, set_leased (S (leased w)) w)
           else (Throw (PlainError "ECONNREFUSED"), w).

(** [connection.release()]. *)
Definition release : M unit :=
  fun w => (Ok tt, set_leased (Nat.pred (leased w)) w).

(** [??] is filled with [SqlString.escapeId(value)], the back-quoted
    [String(value)]: a table name that is [undefined] addresses the table
    called [undefined].  Qualified names ([db.table]) are not split. *)
Definition escapeId (v : option prim) : string := to_String v.

(** [?] filled with [undefined] or [null] is the SQL [NULL]. *)
Definition to_sql (v : option prim) : prim := default PNull v.

(** [WHERE col = ?] on one row: nothing equals NULL. *)
Definition matches (col : string) (v : option prim) (r : Row) : bool :=
  match to_sql v, r !! col with
  | PNull, _ | _, None | _, Some PNull => false
  | p, Some c => sql_eq c p
  end.

Definition assign (sets : list (string * option prim)) (r : Row) : Row :=
  fold_left (fun acc kv => <[fst kv := to_sql (snd kv)]> acc) sets r.

(** What a statement resolves to: the rows of a [SELECT], or the header of
    a statement that writes (of which [affectedRows] and [insertId] are
    kept). *)
Inductive Result :=
| ResultRows (rs : list Row)
| ResultHeader (affectedRows : nat) (insertId : Z).

(** The table has the column.  [columns] lists the columns beside [id],
    which every table has: the handlers address rows by it. *)
Definition has_column (T : Table) (c : string) : bool :=
  (String.eqb c "id" || existsb (String.eqb c) (columns T))%bool.

Definition has_columns (T : Table) (cs : list string) : bool :=
  forallb (has_column T) cs.

(** The server.  A statement on a table that does not exist, or that
    names a column the table does not have, is an error; the [id] of a new
    row is the table's counter.  Column types and constraints are not
    modelled. *)
Definition execute (st : Statement) (db : gmap string Table)
  : option (Result * gmap string Table) :=
  match st with
  | Insert t cols vals =>
      T ← db !! t;
      if has_columns T cols then
        let r := <["id" := PNum (next_id T)]>
                   (assign (zip cols vals) (∅ : Row)) in
        Some (ResultHeader 1 (next_id T),
              <[t := {| next_id := next_id T + 1; columns := columns T;
                        rows := rows T ++ [r] |}]> db)
      else None
  | Update t sets id =>
      T ← db !! t;
      if has_columns T (map fst sets) then
        let hit := matches "id" id in
        Some (ResultHeader (length (filter (fun r => hit r = true) (rows T))) 0,
              <[t := {| next_id := next_id T; columns := columns T;
                        rows := map (fun r => if hit r then assign sets r else r)
                                    (rows T) |}]> db)
      else None
  | SelectAll t =>
      T ← db !! t; Some (ResultRows (rows T), db)
  | SelectWhere t col v =>
      T ← db !! t;
      if has_column T col then
        Some (ResultRows (filter (fun r => matches col v r = true) (rows T)), db)
      else None
  | Delete t id =>
      T ← db !! t;
      let hit := matches "id" id in
      Some (ResultHeader (length (filter (fun r => hit r = true) (rows T))) 0,
            <[t := {| next_id := next_id T; columns := columns T;
                      rows := filter (fun r => hit r = false) (rows T) |}]> db)
  end.

(** [await connection.query(sql, values)]: the statement goes to the
    server; the promise resolves with the result or rejects with the
    server's error. *)
Definition query (st : Statement) : M Result :=
  fun w =>
    let w1 := set_statements (statements w ++ [st]) w in
    match execute st (tables w) with
    | Some (r, db') => (Ok r, set_tables db' w1)
    | None => (Throw (PlainError "ER_NO_SUCH_TABLE or ER_BAD_FIELD_ERROR"), w1)
    end.

(** [await connection.query(sql, values, callback)].  [db/dbconfig.js]
    builds the pool from [mysql2/promise], whose [query(sql, values)] has
    two parameters: a third argument is never read, so [callback] is
    never called. *)
Definition query_with_callback (st : Statement)
    (callback : option exn -> option Result -> M unit) : M Result :=
  query st.

(** How a row and a result are written by [res.json]. *)
Definition json_of_row (r : Row) : json :=
  JObj (map (fun kv => (fst kv, JV (snd kv))) (map_to_list r)).

Definition json_of_result (r : Result) : json :=
  match r with
  | ResultRows rs => JArr (map json_of_row rs)
  | ResultHeader n i =>
      JObj [("affectedRows", JV (PNum (Z.of_nat n))); ("insertId", JV (PNum i))]
  end.

(** ** Zod schemas *)

Inductive Check :=
| min1 (msg : string)        (* [.min(1, msg)] *)
| email (msg : string)       (* [.email(msg)] *)
| url (msg : string).        (* [.url(msg)] *)

Inductive ZType :=
| zstring (checks : list Check)     (* [z.string()] and its checks *)
| zstring_optional                  (* [z.string().optional()] *)
| zenum (values : list string).     (* [z.enum(values, ...)] *)

(** A check that fails adds its message; every check runs. *)
Definition run_check (s : string) (c : Check) : list string :=
  match c with
  | min1 msg => if String.eqb s "" then [msg] else []
  | email msg => if is_email s then [] else [msg]
  | url msg => if is_url s then [] else [msg]
  end.

Definition parse_field (k : string) (t : ZType) (v : option prim) : list Issue :=
  let default_issue c := [{| path := Some k; message := zod_message c v |}] in
  match t, v with
  | zstring cs, Some (PStr s) =>
      map (fun m => {| path := Some k; message := m |}) (flat_map (run_check s) cs)
  | zstring _, _ => default_issue invalid_type
  | zstring_optional, (None | Some (PStr _)) => []
  | zstring_optional, _ => default_issue invalid_type
  | zenum vs, Some (PStr s) =>
      if existsb (String.eqb s) vs then [] else default_issue invalid_enum_value
  | zenum _, _ => default_issue invalid_type
  end.

Definition Schema := list (string * ZType).

(** The value of property [k] of an object literal. *)
Fixpoint prop (k : string) (o : list (string * option prim)) : option prim :=
  match o with
  | [] => None
  | (k', v) :: o' => if String.eqb k k' then v else prop k o'
  end.

(** An object literal, read through its properties. *)
Definition literal (o : list (string * option prim)) : string -> option prim :=
  fun k => prop k o.

(** An object is read through its properties: [o k] is [o.k]. *)
Definition issues (sch : Schema) (o : string -> option prim) : list Issue :=
  flat_map (fun kt => parse_field (fst kt) (snd kt) (o (fst kt))) sch.

(** [schema.parse(o)]: the object with the schema's keys, or a thrown
    [ZodError] with one issue per failed constraint. *)
Definition parse (sch : Schema) (o : string -> option prim)
  : M (list (string * option prim)) :=
  match issues sch o with
  | [] => ret (map (fun kt => (fst kt, o (fst kt))) sch)
  | errs => throw (ZodError errs)
  end.

(** The one issue of [schema.parse(v)] for a [v] that is an array. *)
Definition not_an_object : Issue :=
  {| path := None; message := zod_expected_object |}.

(** [error.errors.map((err) => ({field: err.path[0], message: err.message}))];
    a [field] that is [undefined] is not written. *)
Definition errors_json (errs : list Issue) : json :=
  JArr (map (fun i => JObj (opt_field "field" (PStr <$> path i)
                            ++ [("message", JS (message i))])%list)
            errs).

End Server.

(** ** Uploads ([multer]) *)

(** A file part of a multipart request as busboy reports it, with the
    value [Date.now()] has when multer names the file. *)
Record Upload := {
  fieldname : string;
  originalname : string;
  mimetype : string;
  arrival : Z
}.

(** The file object multer attaches to the request once the part is
    written to disk. *)
Record File := { upload_of : Upload; filename : string }.

(** [s.toLowerCase()] on the ASCII letters; other bytes are kept. *)
Definition lower (c : ascii) : ascii :=
  let n := nat_of_ascii c in
  if (Nat.leb 65 n && Nat.leb n 90)%bool then ascii_of_nat (n + 32) else c.

Definition toLowerCase (s : string) : string :=
  string_of_list_ascii (map lower (list_ascii_of_string s)).

(** [hay.includes(needle)]. *)
Fixpoint includes (needle hay : string) : bool :=
  (String.prefix needle hay ||
   match hay with
   | EmptyString => false
   | String _ rest => includes needle rest
   end)%bool.

(** [path.extname] of Node (POSIX flavour): one pass from the last
    character to the first, with the five variables of the original.
    Strings are byte strings here; [/] and [.] are single bytes in UTF-8,
    so the scan meets them where the original does. *)
Record Scan := {
  startDot : Z;
  startPart : Z;
  end_ : Z;
  matchedSlash : bool;
  preDotState : Z
}.

Fixpoint extname_scan (backwards : list ascii) (i : Z) (st : Scan) : Scan :=
  match backwards with
  | [] => st
  | c :: rest =>
      if Ascii.eqb c "/" then
        if negb (matchedSlash st)
        then {| startDot := startDot st; startPart := i + 1; end_ := end_ st;
                matchedSlash := matchedSlash st; preDotState := preDotState st |}
        else extname_scan rest (i - 1) st
      else
        let st1 :=
          if Z.eqb (end_ st) (-1)
          then {| startDot := startDot st; startPart := startPart st;
                  end_ := i + 1; matchedSlash := false;
                  preDotState := preDotState st |}
          else st in
        let st2 :=
          if Ascii.eqb c "." then
            if Z.eqb (startDot st1) (-1)
            then {| startDot := i; startPart := startPart st1; end_ := end_ st1;
                    matchedSlash := matchedSlash st1;
                    preDotState := preDotState st1 |}
            else if negb (Z.eqb (preDotState st1) 1)
            then {| startDot := startDot st1; startPart := startPart st1;
                    end_ := end_ st1; matchedSlash := matchedSlash st1;
                    preDotState := 1 |}
            else st1
          else if negb (Z.eqb (startDot st1) (-1))
          then {| startDot := startDot st1; startPart := startPart st1;
                  end_ := end_ st1; matchedSlash := matchedSlash st1;
                  preDotState := -1 |}
          else st1 in
        extname_scan rest (i - 1) st2
  end.

Definition extname (p : string) : string :=
  let st := extname_scan (rev (list_ascii_of_string p))
              (Z.of_nat (String.length p) - 1)
              {| startDot := -1; startPart := 0; end_ := -1;
                 matchedSlash := true; preDotState := 0 |} in
  if (Z.eqb (startDot st) (-1) || Z.eqb (end_ st) (-1)
      || Z.eqb (preDotState st) 0
      || (Z.eqb (preDotState st) 1 && Z.eqb (startDot st) (end_ st - 1)
          && Z.eqb (startDot st) (startPart st + 1)))%bool
  then ""
  else String.substring (Z.to_nat (startDot st))
         (Z.to_nat (end_ st - startDot st)) p.

(** [/jpeg|jpg|png|gif|pdf/.test(s)]: the pattern has no anchors, so it
    looks for one of the five words anywhere in [s]. *)
Definition filetypes : list string := ["jpeg"; "jpg"; "png"; "gif"; "pdf"].

Definition filetypes_test (s : string) : bool :=
  existsb (fun word => includes word s) filetypes.

(** [fileFilter]: [true] is [cb(null, true)], [false] is [cb(new
    Error("Only images and PDFs are allowed"))]. *)
Definition fileFilter (file : Upload) : bool :=
  let extname_ok := filetypes_test (toLowerCase (extname (originalname file))) in
  let mimetype_ok := filetypes_test (mimetype file) in
  (extname_ok && mimetype_ok)%bool.

(** [storage]: the destination is [public/], the name is
    [`${Date.now()}_${file.originalname}`]. *)
Definition storage_filename (file : Upload) : string :=
  decimal (arrival file) ++ "_" ++ originalname file.

Definition store (file : Upload) : M File :=
  fun w =>
    let name := storage_filename file in
    (Ok {| upload_of := file; filename := name |},
     set_public ({[ name ]} ∪ public w) w).

(** When multer gives up on a request it deletes what it has written for
    it and passes the error on. *)
Definition abort {A} (stored : list File) (e : exn) : M A :=
  fun w =>
    (Throw e,
     set_public (public w ∖ list_to_set (map filename stored)) w).

(** The file parts in order.  [left] is multer's [filesLeft]: how many
    more files each field may carry.  A part without a file name is
    passed over; any other is counted, then filtered, then stored. *)
Fixpoint receive (left : gmap string nat) (parts : list Upload)
    (stored : list File) : M (list File) :=
  match parts with
  | [] => ret stored
  | file :: rest =>
      if String.eqb (originalname file) "" then receive left rest stored
      else
        match left !! fieldname file with
        | Some (S n) =>
            if fileFilter file then
              f <- store file ;;
              receive (<[fieldname file := n]> left) rest (stored ++ [f])%list
            else abort stored (PlainError "Only images and PDFs are allowed")
        | _ => abort stored (PlainError "LIMIT_UNEXPECTED_FILE")
        end
  end.

(** ** Requests *)

Inductive Method := GET | POST | OtherMethod.

(** The body of a request that [bodyParser.json()] has let through.  A
    body sent as JSON is an object or an array, which becomes [req.body]
    (what the parser refuses is [Unreadable] below and is no [Request]).
    A body of another kind is not read and [req.body] is the empty
    object, which is [JsonBody ∅] here; a multipart form comes with its
    text fields and file parts.  The values inside an array are read by
    no handler. *)
Inductive Payload :=
| JsonBody (fields : gmap string prim)
| JsonArray (items : list json)
| MultipartBody (fields : gmap string string) (parts : list Upload).

Record Request := {
  method : Method;
  pathname : string;
  originalUrl : string;
  params : gmap string string;   (* the query string, parsed *)
  payload : Payload
}.

(** The request object a handler sees: the properties of [req.body] the
    handlers read by name, whether [req.body] is an array, and the rest.
    [files] is [None] while [req.files] is [undefined]. *)
Record Req := {
  body : gmap string prim;
  is_array : bool;                  (* [Array.isArray(req.body)] *)
  req_query : gmap string string;   (* [req.query] *)
  file : option File;
  files : option (gmap string (list File))
}.

(** The request after [bodyParser.json()] has accepted it and before any
    route.  [req.body] is an object from here on, the empty one when the
    body was not JSON, so the handlers can read its properties without
    throwing; none of the names they read is a property of an array. *)
Definition incoming (rq : Request) : Req :=
  {| body := match payload rq with
             | JsonBody b => b
             | _ => ∅
             end;
     is_array := match payload rq with
                 | JsonArray _ => true
                 | _ => false
                 end;
     req_query := params rq; file := None; files := None |}.

(** [multer({storage, fileFilter}).single("image")].  A request that is
    not multipart passes untouched. *)
Definition uploadImageOnly (rq : Request) (req : Req) : M Req :=
  match payload rq with
  | MultipartBody fields parts =>
      stored <- receive {[ "image" := 1%nat ]} parts [] ;;
      ret {| body := PStr <$> fields; is_array := false;
             req_query := req_query req;
             file := head stored; files := None |}
  | _ => ret req
  end.

Definition group (stored : list File) : gmap string (list File) :=
  fold_left (fun (m : gmap string (list File)) f =>
               let k := fieldname (upload_of f) in
               <[k := (default [] (m !! k) ++ [f])%list]> m)
            stored ∅.

(** [multer({storage, fileFilter}).fields([{name: "image", maxCount: 1},
    {name: "pdfFile", maxCount: 1}])]. *)
Definition upload (rq : Request) (req : Req) : M Req :=
  match payload rq with
  | MultipartBody fields parts =>
      stored <- receive {[ "image" := 1%nat; "pdfFile" := 1%nat ]} parts [] ;;
      ret {| body := PStr <$> fields; is_array := false;
             req_query := req_query req;
             file := None; files := Some (group stored) |}
  | _ => ret req
  end.

(** [checkImageType]. *)
Definition checkImageType (rq : Request) (req : Req) : M Req :=
  if is_string (body req !! "image") then ret req
  else uploadImageOnly rq req.

(** [handleUpload]: [checkFiles] sets two flags nothing reads, then
    [upload] runs and its error, if any, is passed on. *)
Definition handleUpload (rq : Request) (req : Req) : M Req :=
  upload rq req.

(** ** The routes of [server.js] *)

Section Routes.
Context {P : Platform}.

Definition obj (fields : list (string * json)) : json := JObj fields.

Definition fail_errors (errs : list Issue) : json :=
  obj [("status", JS "fail"); ("errors", errors_json errs)].

Definition error_message (msg : string) : json :=
  obj [("status", JS "error"); ("message", JS msg)].

Definition success_message (msg : string) : json :=
  obj [("status", JS "success"); ("message", JS msg)].

(** [error.response] is truthy. *)
Definition has_response (e : exn) : bool :=
  match e with
  | ResponseError r => negb (String.eqb r "")
  | _ => false
  end.

(** The [catch] block shared, up to the text of its second message, by
    the five [POST] handlers. *)
Definition catch_block (external : string) (error : exn) : M unit :=
  match error with
  | ZodError errs => send 400 (fail_errors errs)
  | _ =>
      if has_response error then send 500 (error_message external)
      else send 500 (error_message "An unexpected error occurred")
  end.

Definition formSchema : Schema :=
  [("fullName", zstring [min1 "Full Name is required"]);
   ("contact", zstring [min1 "Email Address or Phone Number is required";
                        email "Invalid email format"]);
   ("message", zstring [min1 "Message is required"])].

(** [schema.parse(req.body)]: an array is not an object, whatever it
    holds. *)
Definition parse_body (sch : Schema) (req : Req)
  : M (list (string * option prim)) :=
  if is_array req then throw (ZodError [not_an_object])
  else parse sch (fun k => body req !! k).

(** [await fs.readFile("email/mail.html", "utf-8")]. *)
Definition readFile : M string :=
  fun w => match mail_template (env w) with
           | Some t => (Ok t, w)
           | None => (Throw (PlainError "ENOENT"), w)
           end.

(** [await transporter.sendMail(mailOptions)].  Of the mail, the
    recipient and the subject are recorded. *)
Definition sendMail (to subject : string) : M unit :=
  fun w => match smtp (env w) with
           | Delivered =>
               (Ok tt, set_outbox (outbox w ++ [{| mail_to := to;
                                                   mail_subject := subject |}])%list w)
           | Refused r => (Throw (ResponseError r), w)
           | Unreachable => (Throw (PlainError "ECONNECTION"), w)
           end.

(** [POST /api/send-mail]. *)
Definition post_send_mail (req : Req) : M unit :=
  try_catch
    (formData <- parse_body formSchema req ;;
     emailTemplate <- readFile ;;
     sendMail (to_String (prop "contact" formData)) "Thank you for your message!" ;;
     send 200 (success_message "Email sent successfully!"))
    (catch_block "Failed to send email due to an external service error").

Definition loginSchema : Schema :=
  [("email", zstring [min1 "Email is required"]);
   ("password", zstring [min1 "Password is required"])].

(** [await bcrypt.compare(data, hash)]: both arguments must be strings. *)
Definition bcrypt_compare_async (data hash : option prim) : M bool :=
  match data, hash with
  | Some (PStr d), Some (PStr h) => ret (bcrypt_compare d h)
  | _, _ => throw (PlainError "data and hash must be strings")
  end.

(** The key [jwt.sign] is given, when it takes it: a key that is
    [undefined] or the empty string makes it throw. *)
Definition signing_key (e : Env) : option string :=
  match secret e with
  | Some key => if String.eqb key "" then None else Some key
  | None => None
  end.

(** [jwt.sign(userData, process.env.SECRET_KEY, {expiresIn: "1h"})]. *)
Definition sign_1h (userData : list (string * json)) : M string :=
  fun w => match signing_key (env w) with
           | Some key => (Ok (jwt_sign userData key (clock (env w)) 3600), w)
           | None => (Throw (PlainError "secretOrPrivateKey must have a value"), w)
           end.

Definition first_row (r : Result) : option Row :=
  match r with
  | ResultRows (user :: _) => Some user
  | _ => None
  end.

(** [POST /api/login]. *)
Definition post_login (req : Req) : M unit :=
  try_catch
    (getConnection ;;
     try_finally
       (formData <- parse_body loginSchema req ;;
        rows <- query (SelectWhere "users" "email" (prop "email" formData)) ;;
        match first_row rows with
        | None =>
            send 400
              (obj [("status", JS "fail");
                    ("errors",
                     JArr [obj [("field", JS "email");
                                ("message", JS "User does not exist")]])])
        | Some user =>
            isPasswordValid <-
              bcrypt_compare_async (prop "password" formData) (user !! "password") ;;
            if negb isPasswordValid then
              send 400
                (obj [("status", JS "fail");
                      ("errors",
                       JArr [obj [("field", JS "password");
                                  ("message", JS "Incorrect password")]])])
            else
              let userData := (opt_field "id" (user !! "id")
                               ++ opt_field "email" (user !! "email"))%list in
              token <- sign_1h userData ;;
              send 200
                (obj [("status", JS "success");
                      ("message", JS "Successfully Logged In!");
                      ("token", JS token)])
        end)
       release)
    (catch_block "Failed to Login").

Definition schema : Schema :=
  [("title", zstring [min1 "Title is required"]);
   ("content", zstring [min1 "Content is required"]);
   ("link", zstring [url "Link must be a valid URL"]);
   ("category", zenum ["d-only"; "d-and-d"]);
   ("image", zstring [min1 "Image path is required"])].

Definition editSchema : Schema :=
  [("title", zstring [min1 "Title is required"]);
   ("content", zstring [min1 "Content is required"]);
   ("link", zstring [url "Link must be a valid URL"]);
   ("category", zenum ["d-only"; "d-and-d"]);
   ("image", zstring [min1 "Image path is required"]);
   ("id", zstring [min1 "ID is required"])].

(** [imageFile ? `${imageFile.filename}` : otherwise]. *)
Definition filename_or (imageFile : option File) (otherwise : option prim)
  : option prim :=
  match imageFile with
  | Some f => Some (PStr (filename f))
  | None => otherwise
  end.

(** The callback the two create handlers hand to [query]. *)
Definition insert_callback : option exn -> option Result -> M unit :=
  fun err results =>
    match err with
    | Some _ => send 500 (obj [("error", JS "Database insertion failed")])
    | None => ret tt
    end.

Definition affected (results : option Result) : nat :=
  match results with
  | Some (ResultHeader n _) => n
  | _ => 0%nat
  end.

(** The callback the two edit handlers hand to [query]. *)
Definition update_callback : option exn -> option Result -> M unit :=
  fun err results =>
    match err with
    | Some _ => send 500 (obj [("error", JS "Database update failed")])
    | None =>
        if Nat.eqb (affected results) 0
        then send 404 (obj [("error", JS "Record not found")])
        else send 200 (obj [("message", JS "Record updated successfully")])
    end.

(** [INSERT INTO ?? (title, content, link, category, image) VALUES (?, ?,
    ?, ?, ?)] with [[table, validatedData.title, ...]]. *)
Definition insert_app (table : option prim)
    (validatedData : list (string * option prim)) : Statement :=
  Insert (escapeId table)
    ["title"; "content"; "link"; "category"; "image"]
    [prop "title" validatedData; prop "content" validatedData;
     prop "link" validatedData; prop "category" validatedData;
     prop "image" validatedData].

(** The object [POST /api/apps] hands to [schema.parse]. *)
Definition apps_fields (req : Req) : string -> option prim :=
  let imageFile := file req in
  literal [("title", body req !! "title");
           ("content", body req !! "content");
           ("link", body req !! "link");
           ("category", body req !! "category");
           ("image", filename_or imageFile (Some (PStr "")))].

(** [POST /api/apps], after [uploadImageOnly]. *)
Definition post_apps (req : Req) : M unit :=
  try_catch
    (getConnection ;;
     let table := body req !! "table" in
     try_finally
       (validatedData <- parse schema (apps_fields req) ;;
        query_with_callback (insert_app table validatedData)
          insert_callback ;;
        send 200 (success_message "Project submitted successfully!"))
       release)
    (catch_block "Failed to Login").

(** [UPDATE ?? SET title = ?, content = ?, link = ?, category = ?, image
    = ? WHERE id = ?] with [[table, validatedData.title, ...,
    validatedData.id]]. *)
Definition update_app (table : option prim)
    (validatedData : list (string * option prim)) : Statement :=
  Update (escapeId table)
    [("title", prop "title" validatedData);
     ("content", prop "content" validatedData);
     ("link", prop "link" validatedData);
     ("category", prop "category" validatedData);
     ("image", prop "image" validatedData)]
    (prop "id" validatedData).

(** The object [POST /api/edit/apps] hands to [editSchema.parse]. *)
Definition edit_apps_fields (req : Req) : string -> option prim :=
  let imageFile := file req in
  literal [("title", body req !! "title");
           ("content", body req !! "content");
           ("link", body req !! "link");
           ("category", body req !! "category");
           ("image", filename_or imageFile (body req !! "image"));
           ("id", body req !! "id")].

(** [POST /api/edit/apps], after [checkImageType]. *)
Definition post_edit_apps (req : Req) : M unit :=
  try_catch
    (getConnection ;;
     let table := body req !! "table" in
     try_finally
       (validatedData <- parse editSchema (edit_apps_fields req) ;;
        query_with_callback (update_app table validatedData)
          update_callback ;;
        send 200 (success_message "Project updated successfully!"))
       release)
    (catch_block "Failed to Login").

Definition query_failed : json :=
  obj [("status", JS "fail"); ("error", JS "Database query failed")].

Definition required (what : string) : json :=
  obj [("status", JS "fail"); ("error", JS what)].

Definition success_results (results : Result) : json :=
  obj [("status", JS "success"); ("results", json_of_result results)].

(** A query-string value as the JavaScript value it is. *)
Definition qs (req : Req) (k : string) : option prim := PStr <$> req_query req !! k.

(** [GET /api/apps] and [GET /api/projects], which have the same text. *)
Definition get_all (req : Req) : M unit :=
  try_catch
    (getConnection ;;
     let tableName := qs req "db" in
     try_finally
       (if negb (truthy tableName) then send 400 (required "Table name is required")
        else
          results <- query (SelectAll (escapeId tableName)) ;;
          send 200 (success_results results))
       release)
    (fun error => send 500 query_failed).

Definition get_apps := get_all.
Definition get_projects := get_all.

(** [GET /api/edit/apps]. *)
Definition get_edit_apps (req : Req) : M unit :=
  try_catch
    (getConnection ;;
     let tableName := qs req "db" in
     let id := qs req "id" in
     try_finally
       (if (negb (truthy tableName) || negb (truthy id))%bool
        then send 400 (required "Table or ID name is required")
        else
          results <- query (SelectWhere (escapeId tableName) "id" id) ;;
          send 200 (success_results results))
       release)
    (fun error => send 500 query_failed).

Definition projectSchema : Schema :=
  [("pdfFile", zstring_optional);
   ("image", zstring [min1 "Image path is required"])].

Definition projectEditSchema : Schema :=
  [("pdfFile", zstring_optional);
   ("image", zstring [min1 "Image path is required"]);
   ("id", zstring [min1 "ID is required"])].

(** What the two project handlers hold in [imageFile] and [pdfFile]: a
    file object of multer, or a plain value. *)
Inductive Slot :=
| SlotFile (f : File)
| SlotValue (v : option prim).

(** [req.files[k] ? req.files[k][0] : otherwise].  Reading a property of
    [req.files] while it is [undefined] throws a [TypeError]. *)
Definition files_slot (req : Req) (k : string) (otherwise : option prim) : M Slot :=
  match files req with
  | None => throw (PlainError "TypeError")
  | Some fs =>
      match fs !! k with
      | Some l => ret (match head l with
                       | Some f => SlotFile f
                       | None => SlotValue None
                       end)
      | None => ret (SlotValue otherwise)
      end
  end.

Definition slot_truthy (s : Slot) : bool :=
  match s with SlotFile _ => true | SlotValue v => truthy v end.

(** [`${s.filename}`]: a primitive has no such property, and
    [undefined] and [null] have no properties at all. *)
Definition filename_text (s : Slot) : M (option prim) :=
  match s with
  | SlotFile f => ret (Some (PStr (filename f)))
  | SlotValue (None | Some PNull) => throw (PlainError "TypeError")
  | SlotValue _ => ret (Some (PStr "undefined"))
  end.

(** [POST /api/projects], after [upload]. *)
Definition post_projects (req : Req) : M unit :=
  try_catch
    (getConnection ;;
     let table := body req !! "table" in
     imageFile <- files_slot req "image" (Some (PStr "")) ;;
     pdfFile <- files_slot req "pdfFile" (Some (PStr "")) ;;
     try_finally
       (pdf_text <- (if slot_truthy pdfFile then filename_text pdfFile
                     else ret (Some (PStr ""))) ;;
        image_text <- (if slot_truthy imageFile then filename_text imageFile
                       else ret (Some (PStr ""))) ;;
        validatedData <-
          parse projectSchema
            (literal [("pdfFile", pdf_text); ("image", image_text)]) ;;
        query_with_callback
          (Insert (escapeId table) ["pdf"; "image"]
             [prop "pdfFile" validatedData; prop "image" validatedData])
          insert_callback ;;
        send 200 (success_message "Project submitted successfully!"))
       release)
    (catch_block "Failed to Login").

(** [x ? x : ""]. *)
Definition or_empty (x : option prim) : option prim :=
  if truthy x then x else Some (PStr "").

(** [typeof s !== "string" ? `${s.filename}` : s]. *)
Definition reference_of (s : Slot) : M (option prim) :=
  match s with
  | SlotValue (Some (PStr x)) => ret (Some (PStr x))
  | _ => filename_text s
  end.

(** [POST /api/edit/projects], after [handleUpload]. *)
Definition post_edit_projects (req : Req) : M unit :=
  try_catch
    (getConnection ;;
     let table := body req !! "table" in
     let image := body req !! "image" in
     let pdfFile := body req !! "pdfFile" in
     let id := body req !! "id" in
     imageFile <- files_slot req "image" (or_empty image) ;;
     pdfFile2 <- files_slot req "pdfFile" (or_empty pdfFile) ;;
     try_finally
       (pdf_text <- reference_of pdfFile2 ;;
        image_text <- reference_of imageFile ;;
        validatedData <-
          parse projectEditSchema
            (literal [("pdfFile", pdf_text); ("image", image_text); ("id", id)]) ;;
        query_with_callback
          (Update (escapeId table)
             [("pdf", prop "pdfFile" validatedData);
              ("image", prop "image" validatedData)]
             (prop "id" validatedData))
          update_callback ;;
        send 200 (success_message "Project submitted successfully!"))
       release)
    (catch_block "Failed to Login").

(** [GET /api/edit/projects]. *)
Definition get_edit_projects (req : Req) : M unit :=
  try_catch
    (getConnection ;;
     let tableName := qs req "db" in
     let id := qs req "id" in
     try_finally
       (if negb (truthy tableName) then send 400 (required "Table name is required")
        else
          results <- query (SelectWhere (escapeId tableName) "id" id) ;;
          send 200 (success_results results))
       release)
    (fun error => send 500 query_failed).

(** [GET /api/projects/delete]. *)
Definition get_projects_delete (req : Req) : M unit :=
  try_catch
    (getConnection ;;
     let tableName := qs req "type" in
     let id := qs req "id" in
     try_finally
       (if negb (truthy tableName) then send 400 (required "Table name is required")
        else
          results <- query (Delete (escapeId tableName) id) ;;
          send 200 (success_results results))
       release)
    (fun error => send 500 query_failed).

(** Reading an identifier that no declaration in scope binds throws a
    [ReferenceError]. *)
Definition unbound (name : string) : M json :=
  throw (PlainError ("ReferenceError: " ++ name ++ " is not defined")).

(** [GET /].  The handler's parameters are [req] and [res] and the module
    declares no [results], so building the object literal throws before
    [json] is called. *)
Definition get_root (req : Req) : M unit :=
  results <- unbound "results" ;;
  send 200 (obj [("status", JS "success"); ("results", results)]).

(** [app.all("*", ...)]. *)
Definition not_found (rq : Request) : M unit :=
  send 404
    (obj [("status", JS "fail");
          ("message", JS ("Cannot find " ++ originalUrl rq ++ " on this server"))]).

(** The error middleware registered last. *)
Definition global_error_handler (err : exn) : M unit :=
  send 500 (error_message "Internal Server Error").

(** ** The application *)

Definition Middleware := Request -> Req -> M Req.

Definition no_middleware : Middleware := fun _ req => ret req.

Record Layer := {
  verb : Method;
  route : string;
  before : Middleware;
  handler : Req -> M unit
}.

(** The routes in the order [server.js] registers them. *)
Definition stack : list Layer :=
  [ {| verb := POST; route := "/api/send-mail"; before := no_middleware;
       handler := post_send_mail |};
    {| verb := POST; route := "/api/login"; before := no_middleware;
       handler := post_login |};
    {| verb := POST; route := "/api/apps"; before := uploadImageOnly;
       handler := post_apps |};
    {| verb := POST; route := "/api/edit/apps"; before := checkImageType;
       handler := post_edit_apps |};
    {| verb := GET; route := "/api/apps"; before := no_middleware;
       handler := get_apps |};
    {| verb := GET; route := "/api/edit/apps"; before := no_middleware;
       handler := get_edit_apps |};
    {| verb := POST; route := "/api/projects"; before := upload;
       handler := post_projects |};
    {| verb := POST; route := "/api/edit/projects"; before := handleUpload;
       handler := post_edit_projects |};
    {| verb := GET; route := "/api/projects"; before := no_middleware;
       handler := get_projects |};
    {| verb := GET; route := "/api/edit/projects"; before := no_middleware;
       handler := get_edit_projects |};
    {| verb := GET; route := "/api/projects/delete"; before := no_middleware;
       handler := get_projects_delete |};
    {| verb := GET; route := "/"; before := no_middleware;
       handler := get_root |} ].

Definition same_method (a b : Method) : bool :=
  match a, b with
  | GET, GET | POST, POST => true
  | _, _ => false
  end.

Definition ends_with_slash (s : string) : bool :=
  match rev (list_ascii_of_string s) with
  | c :: _ => Ascii.eqb c "/"
  | [] => false
  end.

(** Express's test of a request path against a route path without
    parameters, with the router's default settings: letter case is
    ignored and one trailing slash is optional. *)
Definition reaches (r p : string) : bool :=
  let r := toLowerCase r in
  let p := toLowerCase p in
  (String.eqb p r
   || (if ends_with_slash r then String.eqb (p ++ "/") r
       else String.eqb p (r ++ "/")))%bool.

Definition serves (rq : Request) (l : Layer) : bool :=
  (same_method (verb l) (method rq) && reaches (route l) (pathname rq))%bool.

(** One layer: an error the middleware passes to [next] reaches the error
    middleware; an error that escapes the [async] handler is a rejected
    promise, which the router of Express 4 (the one that takes the path
    ["*"] of [app.all]) does not look at: nothing is written. *)
Definition run_layer (l : Layer) (rq : Request) : M unit :=
  fun w =>
    match before l rq (incoming rq) w with
    | (Throw err, w1) => global_error_handler err w1
    | (Ok req, w1) => handler l req w1
    end.

(** [express.static] on [public/], registered before every route: a
    [GET] for a file that is there is answered with the file, [/] standing
    for [index.html].  Its handling of dot files, directories and encoded
    paths is left out. *)
Definition static_name (rq : Request) : string :=
  match pathname rq with
  | String "/" EmptyString => "index.html"
  | String "/" name => name
  | other => other
  end.

Definition serve_static (name : string) : M unit :=
  fun w => (Ok tt, set_sent (Some {| status := 200; content := StaticFile name |}) w).

Definition app (rq : Request) : M unit :=
  fun w =>
    if (same_method GET (method rq)
        && bool_decide (static_name rq ∈ public w))%bool
    then serve_static (static_name rq) w
    else match find (serves rq) stack with
         | Some l => run_layer l rq w
         | None => not_found rq w
         end.

(** The world after one request, and the response the client receives
    ([None]: the application writes none). *)
Definition serve (rq : Request) (w : World) : World :=
  snd (app rq (set_sent None w)).

Definition response (rq : Request) (w : World) : option Response :=
  sent (serve rq w).

(** What arrives at the server.  [bodyParser.json()] is registered first:
    a body sent as JSON that it cannot read (text that is not JSON, or a
    JSON value that is neither an object nor an array) ends at the error
    middleware, past the static files and every route; any other request
    goes on to [app]. *)
Inductive Arrival :=
| Unreadable
| Readable (rq : Request).

Definition answer (a : Arrival) (w : World) : World :=
  match a with
  | Unreadable =>
      snd (global_error_handler (PlainError "entity.parse.failed")
             (set_sent None w))
  | Readable rq => serve rq w
  end.

End Routes.

(** ** A platform and a world to run the model on *)

Definition prim_eqb (a b : prim) : bool :=
  match a, b with
  | PBool x, PBool y => Bool.eqb x y
  | PNum x, PNum y => Z.eqb x y
  | PStr x, PStr y => String.eqb x y
  | PNum x, PStr y | PStr y, PNum x => String.eqb (decimal x) y
  | _, _ => false
  end.

(** A deployment with plain stand-ins for the library tests: an e-mail
    address holds an [@], a URL starts with a scheme, a hash is the
    password behind a prefix, and the server compares a number with its
    decimal text as equal. *)
Definition deployment : Platform := {|
  is_email s := includes "@" s;
  is_url s := (String.prefix "http://" s || String.prefix "https://" s)%bool;
  zod_message c v :=
    match c with
    | invalid_type => "Required"
    | invalid_enum_value => "Invalid enum value"
    end;
  bcrypt_compare d h := String.eqb h ("$2b$" ++ d);
  jwt_sign payload key now ttl :=
    "jwt." ++ key ++ "." ++ decimal now ++ "." ++ decimal ttl;
  zod_expected_object := "Expected object, received array";
  sql_eq := prim_eqb
|}.

Definition env0 : Env :=
  {| reachable := true; secret := Some "s3cret";
     mail_template := Some "<p>Hello {{name}}</p>"; smtp := Delivered;
     clock := 1700000000000 |}.

Definition alice : Row :=
  {[ "id" := PNum 1; "email" := PStr "alice@example.com";
     "password" := PStr "$2b$wonderland" ]}.

Definition atlas : Row :=
  {[ "id" := PNum 1; "title" := PStr "Atlas"; "content" := PStr "Maps";
     "link" := PStr "https://atlas.example.com"; "category" := PStr "d-only";
     "image" := PStr "1690000000000_atlas.png" ]}.

Definition app_columns : list string :=
  ["title"; "content"; "link"; "category"; "image"].

Definition project_columns : list string := ["pdf"; "image"].

Definition apps_demo : Table :=
  {| next_id := 2; columns := app_columns; rows := [atlas] |}.

Definition no_projects : Table :=
  {| next_id := 1; columns := project_columns; rows := [] |}.

Definition users : Table :=
  {| next_id := 2; columns := ["email"; "password"]; rows := [alice] |}.

(** A database with one app in [apps_demo], an empty [projects] and one
    user; nothing under [public/]. *)
Definition world0 : World :=
  {| env := env0;
     tables := {[ "apps_demo" := apps_demo; "projects" := no_projects;
                  "users" := users ]};
     leased := 0; statements := []; public := ∅; outbox := []; sent := None |}.

Definition request (m : Method) (p : string) (q : gmap string string)
    (b : Payload) : Request :=
  {| method := m; pathname := p; originalUrl := p; params := q; payload := b |}.

(** ** Requests to run the model on *)

Definition phone_request : Request :=
  request POST "/api/send-mail" ∅
    (JsonBody {[ "fullName" := PStr "Ada"; "contact" := PStr "+1 555 0100";
                 "message" := PStr "Hello" ]}).

Definition delete_request : Request :=
  request GET "/api/projects/delete" {[ "type" := "projects" ]} (JsonBody ∅).

Definition root_request : Request := request GET "/" ∅ (JsonBody ∅).

Definition alice_login : Request :=
  request POST "/api/login" ∅
    (JsonBody {[ "email" := PStr "alice@example.com";
                 "password" := PStr "wonderland" ]}).

Definition ghost_login : Request :=
  request POST "/api/login" ∅
    (JsonBody {[ "email" := PStr "ghost@example.com"; "password" := PStr "" ]}).

Definition edit_fields : gmap string prim :=
  {[ "title" := PStr "Atlas 2"; "content" := PStr "More maps";
     "link" := PStr "https://atlas.example.com"; "category" := PStr "d-and-d";
     "image" := PStr "1690000000000_atlas.png"; "id" := PStr "999";
     "table" := PStr "apps_demo" ]}.

Definition edit_missing_row : Request :=
  request POST "/api/edit/apps" ∅ (JsonBody edit_fields).

Definition logo : Upload :=
  {| fieldname := "image"; originalname := "logo.png"; mimetype := "image/png";
     arrival := 1700000000123 |}.

Definition create_fields : gmap string string :=
  {[ "title" := "Compass"; "content" := "Bearings";
     "link" := "https://compass.example.com"; "category" := "d-only" ]}.

Definition create_without_table : Request :=
  request POST "/api/apps" ∅ (MultipartBody create_fields [logo]).

Definition create_in_apps_demo : Request :=
  request POST "/api/apps" ∅
    (MultipartBody (<["table" := "apps_demo"]> create_fields) [logo]).

Definition untitled_fields : gmap string string :=
  {[ "title" := ""; "content" := "Bearings";
     "link" := "https://compass.example.com"; "category" := "d-only";
     "table" := "apps_demo" ]}.

Definition create_untitled : Request :=
  request POST "/api/apps" ∅ (MultipartBody untitled_fields [logo]).


Definition project_as_json : Request :=
  request POST "/api/projects" ∅ (JsonBody {[ "table" := PStr "projects" ]}).

(** The same world with one file under [public/], with the database out
    of reach, and with a transport that refuses the mail. *)
Definition world_with_file : World :=
  set_public {[ "1690000000000_atlas.png" ]} world0.

Definition world_down : World :=
  {| env := {| reachable := false; secret := Some "s3cret";
               mail_template := Some "<p>Hello {{name}}</p>"; smtp := Delivered;
               clock := 1700000000000 |};
     tables := tables world0; leased := 0; statements := []; public := ∅;
     outbox := []; sent := None |}.

Definition world_refusing : World :=
  {| env := {| reachable := true; secret := Some "s3cret";
               mail_template := Some "<p>Hello {{name}}</p>";
               smtp := Refused "550 mailbox unavailable";
               clock := 1700000000000 |};
     tables := tables world0; leased := 0; statements := []; public := ∅;
     outbox := []; sent := None |}.

Definition list_projects_unnamed : Request :=
  request GET "/api/projects" ∅ (JsonBody ∅).

Definition list_apps : Request :=
  request GET "/api/apps" {[ "db" := "apps_demo" ]} (JsonBody ∅).


Definition read_project_unnumbered : Request :=
  request GET "/api/edit/projects" {[ "db" := "apps_demo" ]} (JsonBody ∅).


Definition delete_unnumbered : Request :=
  request GET "/api/projects/delete" {[ "type" := "apps_demo" ]} (JsonBody ∅).

Definition ada_writes : Request :=
  request POST "/api/send-mail" ∅
    (JsonBody {[ "fullName" := PStr "Ada"; "contact" := PStr "ada@example.com";
                 "message" := PStr "Hello" ]}).

Definition empty_form : Request := request POST "/api/send-mail" ∅ (JsonBody ∅).

Definition cv : Upload :=
  {| fieldname := "pdfFile"; originalname := "cv.pdf";
     mimetype := "application/pdf"; arrival := 1700000000456 |}.

Definition installer : Upload :=
  {| fieldname := "pdfFile"; originalname := "setup.exe";
     mimetype := "application/octet-stream"; arrival := 1700000000456 |}.

Definition app_with_cv : Request :=
  request POST "/api/apps" ∅ (MultipartBody create_fields [logo; cv]).

Definition project_with_installer : Request :=
  request POST "/api/projects" ∅
    (MultipartBody {[ "table" := "projects" ]} [logo; installer]).

(** The same name at the same moment, sent in another field. *)
Definition logo_again : Upload :=
  {| fieldname := "pdfFile"; originalname := "logo.png"; mimetype := "image/x-png";
     arrival := 1700000000123 |}.

Definition project_with_files : Request :=
  request POST "/api/projects" ∅
    (MultipartBody {[ "table" := "projects" ]} [logo; cv]).

Definition project_with_cv_only : Request :=
  request POST "/api/projects" ∅ (MultipartBody {[ "table" := "projects" ]} [cv]).

Definition edit_project_as_json : Request :=
  request POST "/api/edit/projects" ∅
    (JsonBody {[ "table" := PStr "projects"; "id" := PStr "1" ]}).

Definition brochure : Row :=
  {[ "id" := PNum 1; "pdf" := PStr "1690000000000_brochure.pdf";
     "image" := PStr "1690000000000_brochure.png" ]}.

Definition portfolio : Table :=
  {| next_id := 2; columns := project_columns; rows := [brochure] |}.

(** The same world with one project in [projects]. *)
Definition world_with_project : World :=
  {| env := env0; tables := <["projects" := portfolio]> (tables world0);
     leased := 0; statements := []; public := ∅; outbox := []; sent := None |}.

Definition edit_project_fields : gmap string string :=
  {[ "table" := "projects"; "id" := "1";
     "image" := "1690000000000_brochure.png";
     "pdfFile" := "1690000000000_brochure.pdf" ]}.

Definition edit_project_by_name : Request :=
  request POST "/api/edit/projects" ∅ (MultipartBody edit_project_fields []).



Definition edit_atlas_fields : gmap string prim := <[ "id" := PStr "1" ]> edit_fields.

Definition edit_atlas : Request :=
  request POST "/api/edit/apps" ∅ (JsonBody edit_atlas_fields).

Definition app_with_two_logos : Request :=
  request POST "/api/apps" ∅ (MultipartBody create_fields [logo; logo]).

Definition photo : Upload :=
  {| fieldname := "image"; originalname := "Photo.JPG"; mimetype := "image/jpeg";
     arrival := 1700000000789 |}.

Definition readme : Upload :=
  {| fieldname := "image"; originalname := "README"; mimetype := "image/png";
     arrival := 1700000000789 |}.

Definition app_with_readme : Request :=
  request POST "/api/apps" ∅ (MultipartBody create_fields [readme]).

Definition edit_form : gmap string string :=
  <[ "id" := "1" ]> (<[ "table" := "apps_demo" ]> create_fields).

Definition edit_atlas_image : Request :=
  request POST "/api/edit/apps" ∅ (MultipartBody edit_form [logo]).

(** ** Vocabulary of the properties *)

Section Vocabulary.
Context {P : Platform}.

Definition contact_issue : Issue :=
  {| path := Some "contact"; message := "Invalid email format" |}.

Definition bad_request (errs : list Issue) : Response :=
  {| status := 400; content := Json (fail_errors errs) |}.

Definition internal_server_error : Response :=
  {| status := 500; content := Json (error_message "Internal Server Error") |}.

(** The row [POST /api/login] takes for the user: the first row of
    [users] whose [email] equals the one supplied. *)
Definition find_user (w : World) (e : string) : option Row :=
  T ← tables w !! "users";
  head (filter (fun r => matches "email" (Some (PStr e)) r = true) (rows T)).

Fixpoint json_field (k : string) (fields : list (string * json)) : option json :=
  match fields with
  | [] => None
  | (k', v) :: rest => if String.eqb k k' then Some v else json_field k rest
  end.

(** The [token] property of a response, if it has one. *)
Definition token_of (r : option Response) : option json :=
  match r with
  | Some {| content := Json (JObj fields) |} => json_field "token" fields
  | _ => None
  end.

Definition field_error (field msg : string) : Response :=
  {| status := 400;
     content := Json (obj [("status", JS "fail");
                           ("errors", JArr [obj [("field", JS field);
                                                 ("message", JS msg)]])]) |}.

Definition user_does_not_exist : Response := field_error "email" "User does not exist".
Definition incorrect_password : Response := field_error "password" "Incorrect password".

Definition unexpected_error : Response :=
  {| status := 500; content := Json (error_message "An unexpected error occurred") |}.

Definition logged_in (token : string) : Response :=
  {| status := 200;
     content := Json (obj [("status", JS "success");
                           ("message", JS "Successfully Logged In!");
                           ("token", JS token)]) |}.

(** What a login with a well-formed body is answered, once a connection
    is leased and the [users] table is there. *)
Definition login_answer (w : World) (e pw : string) : Response :=
  match find_user w e with
  | None => user_does_not_exist
  | Some user =>
      match user !! "password" with
      | Some (PStr h) =>
          if bcrypt_compare pw h then
            match signing_key (env w) with
            | Some key =>
                logged_in (jwt_sign (opt_field "id" (user !! "id")
                                     ++ opt_field "email" (user !! "email"))%list
                                    key (clock (env w)) 3600)
            | None => unexpected_error
            end
          else incorrect_password
      | _ => unexpected_error
      end
  end.

Definition answered (code : Z) (doc : json) : Response :=
  {| status := code; content := Json doc |}.

(** How a write handler can end: no connection to lease, fields that fail
    the schema, or one statement sent and then answered by the server. *)
Inductive write_path (w w' : World) (errs : list Issue) (st : Statement)
    (done : string) : Prop :=
| no_connection :
    reachable (env w) = false ->
    sent w' = Some unexpected_error ->
    tables w' = tables w -> statements w' = statements w ->
    write_path w w' errs st done
| invalid_fields :
    reachable (env w) = true -> errs <> [] ->
    sent w' = Some (bad_request errs) ->
    tables w' = tables w -> statements w' = statements w ->
    write_path w w' errs st done
| statement_sent :
    reachable (env w) = true -> errs = [] ->
    statements w' = (statements w ++ [st])%list ->
    match execute st (tables w) with
    | Some (_, db') =>
        tables w' = db' /\ sent w' = Some (answered 200 (success_message done))
    | None => tables w' = tables w /\ sent w' = Some unexpected_error
    end ->
    write_path w w' errs st done.

(** What [parse] returns for fields that pass. *)
Definition validated (sch : Schema) (o : string -> option prim)
  : list (string * option prim) :=
  map (fun kt => (fst kt, o (fst kt))) sch.

(** A named part that [fileFilter] turns down stops the upload with an
    error. *)
Definition turned_down (file : Upload) : Prop :=
  originalname file <> "" /\ fileFilter file = false.

(** The routes that create or edit a record. *)
Definition upload_routes : list string :=
  ["/api/apps"; "/api/edit/apps"; "/api/projects"; "/api/edit/projects"].

(** A computation that leaves as many connections leased as it found. *)
Definition balanced {A} (m : M A) : Prop :=
  forall w, leased (snd (m w)) = leased w.

(** The request [POST /api/apps] sees once multer has stored the one
    image of a multipart form. *)
Definition with_image (rq : Request) (fields : gmap string string) (u : Upload) : Req :=
  {| body := PStr <$> fields; is_array := false; req_query := params rq;
     file := Some {| upload_of := u; filename := storage_filename u |};
     files := None |}.

(** A file that is neither an image nor a PDF by extension or by type. *)
Definition disguised : Upload :=
  {| fieldname := "image"; originalname := "notes.pdfx";
     mimetype := "application/x-pdfx"; arrival := 1700000000123 |}.

Definition listed_extensions : list string :=
  [".jpeg"; ".jpg"; ".png"; ".gif"; ".pdf"].

Definition listed_mimetypes : list string :=
  ["image/jpeg"; "image/jpg"; "image/png"; "image/gif"; "application/pdf"].

(** The four text fields of an app are as [schema] wants them. *)
Definition valid_app (b : gmap string prim) : Prop :=
  exists title content link category,
    b !! "title" = Some (PStr title) /\ title <> ""
    /\ b !! "content" = Some (PStr content) /\ content <> ""
    /\ b !! "link" = Some (PStr link) /\ is_url link = true
    /\ b !! "category" = Some (PStr category)
    /\ (category = "d-only" \/ category = "d-and-d").

(** The discipline of the write handlers.  A computation is [quiet] when
    it touches neither the database nor the response.  Once a statement
    has gone out a handler is [committed]: it no longer throws a
    [ZodError] and no longer answers 400. *)
Definition quiet {A} (m : M A) : Prop :=
  forall w, tables (snd (m w)) = tables w
            /\ statements (snd (m w)) = statements w
            /\ sent (snd (m w)) = sent w.

Definition no_400 (w : World) : Prop :=
  sent w = None \/ exists r, sent w = Some r /\ status r <> 400.

Definition committed {A} (res : outcome A * World) : Prop :=
  (forall errs, fst res <> Throw (ZodError errs)) /\ no_400 (snd res).

Definition untouched {A} (w : World) (res : outcome A * World) : Prop :=
  tables (snd res) = tables w /\ statements (snd res) = statements w
  /\ sent (snd res) = None.

Definition validates_first {A} (m : M A) : Prop :=
  forall w, sent w = None -> untouched w (m w) \/ committed (m w).

Definition past_validation {A} (m : M A) : Prop :=
  forall w, no_400 w -> committed (m w).

(** The upload middlewares write files and nothing else. *)
Definition frames (mw : Middleware) : Prop :=
  forall rq req w,
    tables (snd (mw rq req w)) = tables w
    /\ statements (snd (mw rq req w)) = statements w
    /\ sent (snd (mw rq req w)) = sent w.

(** [m] leaves the component [f] of the world as it found it. *)
Definition keeps {A X} (f : World -> X) (m : M A) : Prop :=
  forall w, f (snd (m w)) = f w.

(** A query-string value that is missing or empty. *)
Definition blank (v : option string) : Prop := v = None \/ v = Some "".

(** The routes that only read the database. *)
Definition read_routes : list (Method * string) :=
  [(POST, "/api/login"); (GET, "/api/apps"); (GET, "/api/edit/apps");
   (GET, "/api/projects"); (GET, "/api/edit/projects")].

(** How a read or delete handler can end: no connection to lease, a
    parameter that is missing, or one statement sent and then answered by
    the server. *)
Inductive read_path (w w' : World) (missing : bool) (msg : string)
    (st : Statement) : Prop :=
| read_no_connection :
    reachable (env w) = false ->
    sent w' = Some (answered 500 query_failed) ->
    tables w' = tables w -> statements w' = statements w ->
    read_path w w' missing msg st
| read_refused :
    reachable (env w) = true -> missing = true ->
    sent w' = Some (answered 400 (required msg)) ->
    tables w' = tables w -> statements w' = statements w ->
    read_path w w' missing msg st
| read_sent :
    reachable (env w) = true -> missing = false ->
    statements w' = (statements w ++ [st])%list ->
    match execute st (tables w) with
    | Some (res, db') =>
        tables w' = db' /\ sent w' = Some (answered 200 (success_results res))
    | None => tables w' = tables w /\ sent w' = Some (answered 500 query_failed)
    end ->
    read_path w w' missing msg st.

(** The routes that take the table name from the query string, each with
    the parameter that carries it. *)
Definition table_routes : list (string * string) :=
  [("/api/apps", "db"); ("/api/projects", "db"); ("/api/edit/projects", "db");
   ("/api/projects/delete", "type")].

(** The routes that lease a connection. *)
Definition database_routes : list (Method * string) :=
  [(POST, "/api/login"); (POST, "/api/apps"); (POST, "/api/edit/apps");
   (GET, "/api/apps"); (GET, "/api/edit/apps"); (POST, "/api/projects");
   (POST, "/api/edit/projects"); (GET, "/api/projects");
   (GET, "/api/edit/projects"); (GET, "/api/projects/delete")].

Definition table_name_required : Response :=
  answered 400 (required "Table name is required").

Definition listed (rs : list Row) : Response :=
  answered 200 (success_results (ResultRows rs)).


(** A contact form that passes [formSchema]. *)
Definition valid_form (b : gmap string prim) (name contact message : string) : Prop :=
  b !! "fullName" = Some (PStr name) /\ name <> ""
  /\ b !! "contact" = Some (PStr contact) /\ contact <> ""
  /\ is_email contact = true
  /\ b !! "message" = Some (PStr message) /\ message <> "".

(** A field that is missing, is not a string, or is the empty string. *)
Definition unfilled (b : gmap string prim) (k : string) : Prop :=
  forall s, b !! k = Some (PStr s) -> s = "".

Definition form_fields : list string := ["fullName"; "contact"; "message"].

Definition thank_you (contact : string) : Mail :=
  {| mail_to := contact; mail_subject := "Thank you for your message!" |}.

Definition mail_sent : Response :=
  answered 200 (success_message "Email sent successfully!").

Definition mail_service_error : Response :=
  answered 500
    (error_message "Failed to send email due to an external service error").

(** The file fields a route lets through. *)
Definition allowed_fields (p : string) : list string :=
  if (String.eqb p "/api/apps" || String.eqb p "/api/edit/apps")%bool
  then ["image"] else ["image"; "pdfFile"].

(** A named part in a field the route has not declared. *)
Definition unexpected (p : string) (file : Upload) : Prop :=
  originalname file <> "" /\ fieldname file ∉ allowed_fields p.

(** A stored name taken apart at its first underscore. *)
Fixpoint before_underscore (s : string) : string :=
  match s with
  | EmptyString => EmptyString
  | String c rest =>
      if Ascii.eqb c "_" then EmptyString else String c (before_underscore rest)
  end.

Fixpoint after_underscore (s : string) : string :=
  match s with
  | EmptyString => EmptyString
  | String c rest => if Ascii.eqb c "_" then rest else after_underscore rest
  end.

(** No character of [s] is an underscore. *)
Fixpoint plain (s : string) : bool :=
  match s with
  | EmptyString => true
  | String c rest => (negb (Ascii.eqb c "_") && plain rest)%bool
  end.

(** The two routes that write a project. *)
Definition project_writers : list string := ["/api/projects"; "/api/edit/projects"].

(** The request came as a multipart form. *)
Definition multipart (rq : Request) : Prop :=
  exists fields parts, payload rq = MultipartBody fields parts.




(** The file object multer makes of an upload it has stored. *)
Definition stored_as (u : Upload) : File :=
  {| upload_of := u; filename := storage_filename u |}.

Definition image_required : Issue :=
  {| path := Some "image"; message := "Image path is required" |}.

(** A character that is neither a dot nor a slash. *)
Definition clean (c : ascii) : Prop :=
  Ascii.eqb c "." = false /\ Ascii.eqb c "/" = false.





End Vocabulary.

(** ** Properties *)

Section Properties.
Context {P : Platform}.

(** Writing the response, while none has been written. *)
Ltac respond Hs :=
  repeat (progress (unfold send, catch_block, has_response; cbn;
                    try rewrite Hs)).

(** *** Routing *)

Lemma app_post (rq : Request) (w : World) (l : Layer) :
  method rq = POST -> find (serves rq) stack = Some l ->
  app rq w = run_layer l rq w.
Proof. intros Hm Hf. unfold app. rewrite Hm, Hf. reflexivity. Qed.

Lemma app_get (rq : Request) (w : World) (l : Layer) :
  method rq = GET -> static_name rq ∉ public w ->
  find (serves rq) stack = Some l ->
  app rq w = run_layer l rq w.
Proof.
  intros Hm Hs Hf. unfold app. rewrite Hm, Hf.
  rewrite bool_decide_eq_false_2 by exact Hs. reflexivity.
Qed.

Lemma find_route (rq : Request) (m : Method) (p : string) (l : Layer) :
  method rq = m -> pathname rq = p ->
  find (fun l => (same_method (verb l) m && String.eqb (route l) p)%bool) stack
    = Some l ->
  find (serves rq) stack = Some l.
Proof.
  intros <- <- H. unfold serves.
  pose proof H as H'. apply find_some in H' as [Hin Hc].
  apply andb_prop in Hc as [Hv Hr]. apply String.eqb_eq in Hr.
  rewrite <- Hr. clear H Hr. cbn in Hin.
  destruct (method rq);
    repeat (destruct Hin as [<-|Hin]); try contradiction;
    first [discriminate Hv | reflexivity].
Qed.

(** A handler with no middleware of its own starts from the request as
    the body parser left it. *)
Lemma run_layer_plain (v : Method) (r : string) (h : Req -> M unit)
    (rq : Request) (w : World) :
  run_layer {| verb := v; route := r; before := no_middleware; handler := h |} rq w
  = h (incoming rq) w.
Proof. reflexivity. Qed.

(** *** The body of the request *)

Lemma parse_body_array (sch : Schema) (req : Req) :
  is_array req = true -> parse_body sch req = throw (ZodError [not_an_object]).
Proof. unfold parse_body. intros ->. reflexivity. Qed.

Lemma parse_body_object (sch : Schema) (req : Req) :
  is_array req = false -> parse_body sch req = parse sch (fun k => body req !! k).
Proof. unfold parse_body. intros ->. reflexivity. Qed.

(** A request whose body has a property the handlers read came with a
    JSON object. *)
Lemma incoming_body (rq : Request) (k : string) (v : prim) :
  body (incoming rq) !! k = Some v ->
  is_array (incoming rq) = false
  /\ exists b, payload rq = JsonBody b /\ body (incoming rq) = b.
Proof.
  unfold incoming. destruct (payload rq) as [b|items|fields parts]; cbn;
    rewrite ?lookup_empty; try discriminate.
  intros _. eauto.
Qed.

(** *** The contact form *)

Lemma contact_issues (o : string -> option prim) :
  issues formSchema o = [] ->
  exists s, o "contact" = Some (PStr s) /\ is_email s = true.
Proof.
  unfold issues, formSchema. cbn [flat_map fst snd]. intros H.
  apply app_eq_nil in H as [_ H]. apply app_eq_nil in H as [H _].
  unfold parse_field in H.
  destruct (o "contact") as [[| | |s]|]; try discriminate.
  exists s. split; [reflexivity|].
  cbn [flat_map run_check] in H.
  destruct (is_email s); [reflexivity|].
  destruct (String.eqb s ""); discriminate.
Qed.

Lemma contact_rejected (o : string -> option prim) (s : string) :
  o "contact" = Some (PStr s) -> is_email s = false ->
  contact_issue ∈ issues formSchema o.
Proof.
  intros Hc He. unfold issues, formSchema. cbn [flat_map fst snd].
  rewrite Hc. cbn [parse_field run_check flat_map map]. rewrite He.
  rewrite !elem_of_app. right. left.
  destruct (String.eqb s ""); cbn; set_solver.
Qed.

(** C8.  [POST /api/send-mail] takes [contact] only as an e-mail address:
    a string that fails Zod's e-mail test (a phone number, say) is
    answered 400 with the issue [contact: Invalid email format] and no
    mail is sent, and a 200 answer is given only to a [contact] that
    passes the test. *)
Theorem send_mail_contact_must_be_email (rq : Request) (w : World) :
  method rq = POST -> pathname rq = "/api/send-mail" ->
  (forall s, body (incoming rq) !! "contact" = Some (PStr s) ->
             is_email s = false ->
             (exists errs, response rq w = Some (bad_request errs)
                           /\ contact_issue ∈ errs)
             /\ outbox (serve rq w) = outbox w)
  /\ (forall r, response rq w = Some r -> status r = 200 ->
                exists s, body (incoming rq) !! "contact" = Some (PStr s)
                          /\ is_email s = true).
Proof.
  intros Hm Hp.
  assert (Hrun : app rq (set_sent None w)
                 = run_layer {| verb := POST; route := "/api/send-mail";
                                before := no_middleware;
                                handler := post_send_mail |} rq (set_sent None w)).
  { apply app_post; [exact Hm|].
    apply (find_route rq POST "/api/send-mail"); [exact Hm|exact Hp|reflexivity]. }
  unfold response, serve. rewrite Hrun, run_layer_plain.
  unfold post_send_mail, try_catch, bind.
  split.
  - intros s Hc He.
    rewrite parse_body_object by (eapply incoming_body, Hc). unfold parse.
    pose proof (contact_rejected (fun k => body (incoming rq) !! k) s Hc He) as Hin.
    destruct (issues formSchema _) as [|i errs] eqn:Hi.
    + inversion Hin.
    + cbn. split; [|reflexivity]. exists (i :: errs). split; [reflexivity|exact Hin].
  - intros r. destruct (is_array (incoming rq)) eqn:Ha.
    + rewrite parse_body_array by exact Ha. cbn. intros [= <-]. cbn. discriminate.
    + rewrite parse_body_object by exact Ha. unfold parse.
      destruct (issues formSchema _) as [|i errs] eqn:Hi.
      * intros _ _. apply contact_issues in Hi. exact Hi.
      * cbn. intros [= <-]. cbn. discriminate.
Qed.

(** *** Deleting a project *)

Lemma truthy_string (t : string) : t <> "" -> truthy (Some (PStr t)) = true.
Proof.
  intros Ht. unfold truthy. destruct (String.eqb_spec t ""); [contradiction|reflexivity].
Qed.

(** C10.  [GET /api/projects/delete] checks the table name only: with
    [type] given and [id] left out the request is never answered 400, and
    once a connection is leased the [DELETE] is sent with an [undefined]
    id. *)
Theorem delete_without_id_is_not_rejected (rq : Request) (w : World) (t : string) :
  method rq = GET -> pathname rq = "/api/projects/delete" ->
  "api/projects/delete" ∉ public w ->
  params rq !! "type" = Some t -> t <> "" -> params rq !! "id" = None ->
  (exists r, response rq w = Some r /\ status r <> 400)
  /\ (reachable (env w) = true ->
      statements (serve rq w) = (statements w ++ [Delete t None])%list).
Proof.
  intros Hm Hp Hs Ht Hne Hid.
  assert (Hrun : app rq (set_sent None w)
                 = run_layer {| verb := GET; route := "/api/projects/delete";
                                before := no_middleware;
                                handler := get_projects_delete |} rq (set_sent None w)).
  { apply app_get; [exact Hm| |].
    - unfold static_name. rewrite Hp. exact Hs.
    - apply (find_route rq GET "/api/projects/delete");
        [exact Hm|exact Hp|reflexivity]. }
  unfold response, serve. rewrite Hrun, run_layer_plain.
  unfold get_projects_delete, try_catch, try_finally, bind, getConnection, qs.
  cbn [incoming req_query env set_sent].
  rewrite Ht, Hid. cbn [fmap option_fmap option_map].
  rewrite (truthy_string t Hne). cbn [negb escapeId to_String].
  destruct (reachable (env w)) eqn:Hr.
  - unfold query. cbn [tables set_leased statements set_sent].
    destruct (execute (Delete t None) (tables w)) as [[res db']|]; cbn.
    + split; [eexists; split; [reflexivity|cbn; discriminate]|reflexivity].
    + split; [eexists; split; [reflexivity|cbn; discriminate]|reflexivity].
  - cbn. split; [eexists; split; [reflexivity|cbn; discriminate]|discriminate].
Qed.

(** *** The root path *)

(** C9, where the code departs from it.  A [GET /] that reaches the
    handler gets neither the 200 answer nor the 500 [Internal Server
    Error] of the error middleware: reading [results] throws inside the
    [async] handler, the rejected promise never reaches the error
    middleware, and no response is written. *)
Theorem root_never_succeeds (rq : Request) (w : World) :
  method rq = GET -> pathname rq = "/" -> "index.html" ∉ public w ->
  response rq w = None.
Proof.
  intros Hm Hp Hs.
  assert (Hrun : app rq (set_sent None w)
                 = run_layer {| verb := GET; route := "/";
                                before := no_middleware;
                                handler := get_root |} rq (set_sent None w)).
  { apply app_get; [exact Hm| |].
    - unfold static_name. rewrite Hp. exact Hs.
    - apply (find_route rq GET "/"); [exact Hm|exact Hp|reflexivity]. }
  unfold response, serve. rewrite Hrun, run_layer_plain.
  unfold get_root, bind, unbound, throw. reflexivity.
Qed.

(** *** Login *)

Lemma login_issues (o : string -> option prim) :
  issues loginSchema o = [] <->
  exists e pw, o "email" = Some (PStr e) /\ e <> ""
               /\ o "password" = Some (PStr pw) /\ pw <> "".
Proof.
  unfold issues, loginSchema. cbn [flat_map fst snd parse_field]. split.
  - intros H. apply app_eq_nil in H as [He H]. apply app_eq_nil in H as [Hp _].
    destruct (o "email") as [[| | |e]|]; try discriminate.
    destruct (o "password") as [[| | |pw]|]; try discriminate.
    cbn in He, Hp.
    destruct (String.eqb_spec e ""); [discriminate|].
    destruct (String.eqb_spec pw ""); [discriminate|].
    exists e, pw. auto.
  - intros (e & pw & -> & He & -> & Hp). cbn.
    destruct (String.eqb_spec e ""); [contradiction|].
    destruct (String.eqb_spec pw ""); [contradiction|]. reflexivity.
Qed.

Lemma first_row_head (l : list Row) : first_row (ResultRows l) = head l.
Proof. destruct l; reflexivity. Qed.

Lemma login_run (req : Req) (w : World) (e pw : string) (T : Table) :
  is_array req = false ->
  body req !! "email" = Some (PStr e) -> e <> "" ->
  body req !! "password" = Some (PStr pw) -> pw <> "" ->
  reachable (env w) = true -> tables w !! "users" = Some T ->
  has_column T "email" = true -> sent w = None ->
  exists w', post_login req w = (Ok tt, w')
             /\ sent w' = Some (login_answer w e pw)
             /\ leased w' = leased w.
Proof.
  intros Ha He Hne Hp Hnp Hr HT Hcol Hs.
  assert (Hi : issues loginSchema (fun k => body req !! k) = []).
  { apply login_issues. exists e, pw. auto. }
  unfold post_login, try_catch, try_finally, bind, getConnection.
  rewrite Hr, (parse_body_object _ _ Ha). unfold parse. rewrite Hi.
  cbn [ret map fst snd loginSchema prop String.eqb Ascii.eqb Bool.eqb].
  rewrite He, Hp. unfold query, execute.
  cbn [tables set_leased set_statements]. rewrite HT.
  cbn [mbind option_bind]. rewrite Hcol, first_row_head.
  unfold login_answer, find_user. rewrite HT. cbn [mbind option_bind].
  destruct (head _) as [user|]; cbn.
  - destruct (user !! "password") as [[| | |h]|]; cbn;
      try (respond Hs; eexists; split; [reflexivity|split; reflexivity]).
    destruct (bcrypt_compare pw h); cbn.
    + unfold sign_1h. cbn. destruct (signing_key (env w)); respond Hs;
        eexists; (split; [reflexivity|split; reflexivity]).
    + respond Hs. eexists; split; [reflexivity|split; reflexivity].
  - respond Hs. eexists; split; [reflexivity|split; reflexivity].
Qed.

Lemma app_login (rq : Request) (w : World) :
  method rq = POST -> pathname rq = "/api/login" ->
  app rq (set_sent None w) = post_login (incoming rq) (set_sent None w).
Proof.
  intros Hm Hp.
  rewrite (app_post rq _ _ Hm (find_route rq POST _ _ Hm Hp eq_refl)).
  apply run_layer_plain.
Qed.

Lemma login_response (rq : Request) (w : World) (e pw : string) (T : Table) :
  method rq = POST -> pathname rq = "/api/login" ->
  body (incoming rq) !! "email" = Some (PStr e) -> e <> "" ->
  body (incoming rq) !! "password" = Some (PStr pw) -> pw <> "" ->
  reachable (env w) = true -> tables w !! "users" = Some T ->
  has_column T "email" = true ->
  response rq w = Some (login_answer w e pw).
Proof.
  intros Hm Hp He Hne Hpw Hnp Hr HT Hcol.
  unfold response, serve. rewrite (app_login rq w Hm Hp).
  destruct (login_run (incoming rq) (set_sent None w) e pw T)
    as (w' & -> & Hsent & _); auto.
  apply (incoming_body rq _ _ He).
Qed.

(** What a login is answered when its body does not get past the schema,
    or the statement is refused: never with a token. *)
Lemma login_refused (rq : Request) (w : World) :
  method rq = POST -> pathname rq = "/api/login" ->
  reachable (env w) = true ->
  (is_array (incoming rq) = true ->
   response rq w = Some (bad_request [not_an_object]))
  /\ (forall i errs,
        is_array (incoming rq) = false ->
        issues loginSchema (fun k => body (incoming rq) !! k) = i :: errs ->
        response rq w = Some (bad_request (i :: errs)))
  /\ (is_array (incoming rq) = false ->
      issues loginSchema (fun k => body (incoming rq) !! k) = [] ->
      match tables w !! "users" with
      | Some T => has_column T "email" = false
      | None => True
      end ->
      response rq w = Some unexpected_error).
Proof.
  intros Hm Hp Hr. unfold response, serve. rewrite (app_login rq w Hm Hp).
  unfold post_login, try_catch, try_finally, bind, getConnection.
  cbn [env set_sent]. rewrite Hr. split_and!.
  - intros Ha. rewrite (parse_body_array _ _ Ha). reflexivity.
  - intros i errs Ha Hi. rewrite (parse_body_object _ _ Ha). unfold parse.
    rewrite Hi. reflexivity.
  - intros Ha Hi HT. rewrite (parse_body_object _ _ Ha). unfold parse. rewrite Hi.
    cbn [ret map fst snd loginSchema prop String.eqb Ascii.eqb Bool.eqb].
    unfold query, execute. cbn [tables set_leased set_statements set_sent].
    destruct (tables w !! "users") as [T|]; cbn [mbind option_bind];
      [rewrite HT|]; reflexivity.
Qed.

Lemma no_token_in_errors (errs : list Issue) :
  token_of (Some (bad_request errs)) = None.
Proof. reflexivity. Qed.

(** C7, as amended.  For a login that reaches the handler while a
    connection can be leased.  With [email] and [password] non-empty
    strings, the [users] table there with its [email] column and a
    non-empty signing key: an email matching no row is answered 400 [User
    does not exist]; a password that does not verify against the hash of
    the first matching row is answered 400 [Incorrect password]; and the
    response carries a token exactly when a row matches and the password
    verifies.  With a JSON object that fails [loginSchema] the answer is
    the 400 that carries the schema's issues, and no token, whatever
    [users] holds. *)
Theorem login_token_iff_credentials (rq : Request) (w : World) :
  method rq = POST -> pathname rq = "/api/login" ->
  reachable (env w) = true ->
  (forall e pw key T,
     body (incoming rq) !! "email" = Some (PStr e) -> e <> "" ->
     body (incoming rq) !! "password" = Some (PStr pw) -> pw <> "" ->
     secret (env w) = Some key -> key <> "" ->
     tables w !! "users" = Some T -> has_column T "email" = true ->
     (find_user w e = None ->
      response rq w = Some user_does_not_exist
      /\ token_of (response rq w) = None)
     /\ (forall user h,
           find_user w e = Some user -> user !! "password" = Some (PStr h) ->
           bcrypt_compare pw h = false ->
           response rq w = Some incorrect_password
           /\ token_of (response rq w) = None)
     /\ (is_Some (token_of (response rq w)) <->
         exists user h, find_user w e = Some user
                        /\ user !! "password" = Some (PStr h)
                        /\ bcrypt_compare pw h = true))
  /\ (forall b errs,
        payload rq = JsonBody b ->
        issues loginSchema (fun k => b !! k) = errs -> errs <> [] ->
        response rq w = Some (bad_request errs)
        /\ token_of (response rq w) = None).
Proof.
  intros Hm Hp Hr. split.
  - intros e pw key T He Hne Hpw Hnp Hk Hnk HT Hcol.
    rewrite (login_response rq w e pw T) by assumption.
    unfold login_answer, signing_key. rewrite Hk.
    destruct (String.eqb_spec key "") as [|_]; [contradiction|].
    split; [|split].
    + intros ->. split; reflexivity.
    + intros user h -> -> ->. split; reflexivity.
    + destruct (find_user w e) as [user|].
      * destruct (user !! "password") as [[| | |h]|] eqn:Hh; cbn.
        1-3, 5: (split; [intros [? [=]]|intros (? & ? & [= <-] & Hh' & _); congruence]).
        destruct (bcrypt_compare pw h) eqn:Hb; cbn.
        -- split; [intros _; exists user, h; auto|intros _; eexists; reflexivity].
        -- split; [intros [? [=]]|].
           intros (? & ? & [= <-] & Hh' & Hb').
           rewrite Hh in Hh'. injection Hh' as <-. congruence.
      * cbn. split; [intros [? [=]]|intros (? & ? & [=] & _)].
  - intros b errs Hb Hi Hne.
    assert (Hbody : body (incoming rq) = b /\ is_array (incoming rq) = false)
      by (unfold incoming; rewrite Hb; auto).
    destruct Hbody as [Hbody Ha].
    destruct errs as [|i errs]; [contradiction|].
    destruct (login_refused rq w Hm Hp Hr) as (_ & Hrefused & _).
    rewrite (Hrefused i errs Ha) by (rewrite Hbody; exact Hi).
    split; reflexivity.
Qed.

(** X29.  Whatever the request, [POST /api/login] hands out a token only
    for an email that matches a row and a password that verifies against
    its hash. *)
Lemma login_token_only_for_credentials (rq : Request) (w : World) :
  method rq = POST -> pathname rq = "/api/login" ->
  is_Some (token_of (response rq w)) ->
  exists e pw user h,
    body (incoming rq) !! "email" = Some (PStr e)
    /\ body (incoming rq) !! "password" = Some (PStr pw)
    /\ find_user w e = Some user
    /\ user !! "password" = Some (PStr h)
    /\ bcrypt_compare pw h = true.
Proof.
  intros Hm Hp.
  destruct (reachable (env w)) eqn:Hr.
  - destruct (login_refused rq w Hm Hp Hr) as (Harr & Hbad & Herr).
    destruct (is_array (incoming rq)) eqn:Ha.
    { rewrite (Harr eq_refl). intros H; destruct (is_Some_None H). }
    destruct (issues loginSchema (fun k => body (incoming rq) !! k))
      as [|i errs] eqn:Hi.
    + pose proof Hi as Hvalid.
      apply login_issues in Hi as (e & pw & He & Hne & Hpw & Hnp).
      destruct (tables w !! "users") as [T|] eqn:HT.
      * destruct (has_column T "email") eqn:Hcol.
        -- rewrite (login_response rq w e pw T); auto.
           unfold login_answer.
           destruct (find_user w e) as [user|] eqn:Hf;
             [|cbn; intros H; destruct (is_Some_None H)].
           destruct (user !! "password") as [[| | |h]|] eqn:Hh;
             try (cbn; intros H; destruct (is_Some_None H)).
           destruct (bcrypt_compare pw h) eqn:Hb;
             [|cbn; intros H; destruct (is_Some_None H)].
           intros _. exists e, pw, user, h. repeat split; assumption.
        -- rewrite (Herr eq_refl eq_refl eq_refl).
           intros H; destruct (is_Some_None H).
      * rewrite (Herr eq_refl eq_refl I). intros H; destruct (is_Some_None H).
    + rewrite (Hbad i errs eq_refl eq_refl). intros H; destruct (is_Some_None H).
  - unfold response, serve. rewrite (app_login rq w Hm Hp).
    unfold post_login, try_catch, try_finally, bind, getConnection.
    cbn [env set_sent]. rewrite Hr. cbn. intros H; destruct (is_Some_None H).
Qed.

(** *** The write handlers, path by path *)

(** The body every write handler shares once its fields are at hand. *)
Lemma guarded_write (sch : Schema) (o : string -> option prim)
    (st : list (string * option prim) -> Statement)
    (cb : option exn -> option Result -> M unit) (done : string) (w : World) :
  sent w = None ->
  exists w',
    try_catch
      (getConnection ;;
       try_finally
         (validatedData <- parse sch o ;;
          query_with_callback (st validatedData) cb ;;
          send 200 (success_message done))
         release)
      (catch_block "Failed to Login") w = (Ok tt, w')
    /\ leased w' = leased w /\ public w' = public w
    /\ write_path w w' (issues sch o) (st (validated sch o)) done.
Proof.
  intros Hs.
  unfold try_catch, try_finally, bind, getConnection, parse, query_with_callback.
  destruct (reachable (env w)) eqn:Hr.
  - destruct (issues sch o) as [|i errs] eqn:Hi.
    + unfold ret, query. fold (validated sch o).
      cbn [tables set_leased statements].
      set (s := st (validated sch o)).
      destruct (execute s (tables w)) as [[res db']|] eqn:He; respond Hs.
      * eexists. split; [reflexivity|]. split; [reflexivity|]. split; [reflexivity|].
        apply statement_sent; auto. rewrite He. auto.
      * eexists. split; [reflexivity|]. split; [reflexivity|]. split; [reflexivity|].
        apply statement_sent; auto. rewrite He. auto.
    + unfold throw. respond Hs.
      eexists. split; [reflexivity|]. split; [reflexivity|]. split; [reflexivity|].
      apply invalid_fields; auto; discriminate.
  - respond Hs.
    eexists. split; [reflexivity|]. split; [reflexivity|]. split; [reflexivity|].
    apply no_connection; auto.
Qed.

Lemma post_apps_paths (req : Req) (w : World) :
  sent w = None ->
  exists w',
    post_apps req w = (Ok tt, w')
    /\ leased w' = leased w /\ public w' = public w
    /\ write_path w w' (issues schema (apps_fields req))
         (insert_app (body req !! "table") (validated schema (apps_fields req)))
         "Project submitted successfully!".
Proof.
  intros Hs.
  exact (guarded_write schema (apps_fields req) (insert_app (body req !! "table"))
           insert_callback "Project submitted successfully!" w Hs).
Qed.

Lemma post_edit_apps_paths (req : Req) (w : World) :
  sent w = None ->
  exists w',
    post_edit_apps req w = (Ok tt, w')
    /\ leased w' = leased w /\ public w' = public w
    /\ write_path w w' (issues editSchema (edit_apps_fields req))
         (update_app (body req !! "table")
            (validated editSchema (edit_apps_fields req)))
         "Project updated successfully!".
Proof.
  intros Hs.
  exact (guarded_write editSchema (edit_apps_fields req)
           (update_app (body req !! "table")) _
           "Project updated successfully!" w Hs).
Qed.

Lemma write_path_base (w0 w w' : World) errs st done :
  env w = env w0 -> tables w = tables w0 -> statements w = statements w0 ->
  write_path w w' errs st done -> write_path w0 w' errs st done.
Proof.
  intros He Ht Hs [Hr ? ? ?|Hr ? ? ? ?|Hr ? ? Hx]; rewrite He in Hr.
  - apply no_connection; congruence.
  - apply invalid_fields; congruence.
  - apply statement_sent; try congruence. rewrite <- Ht. exact Hx.
Qed.

(** *** Uploads *)

(** multer touches the [public/] directory and nothing else. *)
Lemma receive_frame (parts : list Upload) :
  forall left stored w,
    let w' := snd (receive left parts stored w) in
    env w' = env w /\ tables w' = tables w /\ statements w' = statements w
    /\ leased w' = leased w /\ sent w' = sent w /\ outbox w' = outbox w.
Proof.
  induction parts as [|file rest IH]; intros left stored w; cbn [receive].
  - cbn. auto 10.
  - destruct (String.eqb (originalname file) ""); [apply IH|].
    destruct (left !! fieldname file) as [[|n]|]; [cbn; auto 10| |cbn; auto 10].
    destruct (fileFilter file); [|cbn; auto 10].
    unfold bind, store.
    specialize (IH (<[fieldname file := n]> left)
                   (stored ++ [{| upload_of := file;
                                  filename := storage_filename file |}])%list
                   (set_public ({[storage_filename file]} ∪ public w) w)).
    cbn in IH. exact IH.
Qed.

(** What multer hands to the route is what [fileFilter] let through, under
    the name [storage] gave it. *)
Lemma receive_accepts (parts : list Upload) :
  forall left stored w fs w',
    receive left parts stored w = (Ok fs, w') ->
    (forall f, f ∈ stored ->
               fileFilter (upload_of f) = true
               /\ filename f = storage_filename (upload_of f)) ->
    forall f, f ∈ fs ->
              fileFilter (upload_of f) = true
              /\ filename f = storage_filename (upload_of f).
Proof.
  induction parts as [|file rest IH]; intros left stored w fs w'; cbn [receive].
  - intros [= <- <-] H. exact H.
  - destruct (String.eqb (originalname file) ""); [apply IH|].
    destruct (left !! fieldname file) as [[|n]|]; [discriminate| |discriminate].
    destruct (fileFilter file) eqn:Hf; [|discriminate].
    unfold bind, store. intros Hrun Hst. eapply IH; [exact Hrun|].
    intros f [Hin|Hin]%elem_of_app; [auto|].
    apply list_elem_of_singleton in Hin as ->. cbn. auto.
Qed.

Lemma receive_rejects (parts : list Upload) :
  forall left stored w,
    (exists file, file ∈ parts /\ turned_down file) ->
    exists e w', receive left parts stored w = (Throw e, w').
Proof.
  induction parts as [|file rest IH]; intros left stored w (bad & Hin & Hn & Hbad).
  - inversion Hin.
  - cbn [receive].
    assert (Hrest : file <> bad ->
                    exists file', file' ∈ rest /\ turned_down file').
    { intros Hne. exists bad. split; [|split; assumption].
      apply elem_of_cons in Hin as [->|Hin]; [contradiction|exact Hin]. }
    destruct (String.eqb_spec (originalname file) "") as [He|He].
    + apply IH, Hrest. intros ->. contradiction.
    + destruct (left !! fieldname file) as [[|n]|]; [cbn; eauto| |cbn; eauto].
      destruct (fileFilter file) eqn:Hf; [|cbn; eauto].
      unfold bind, store. apply IH, Hrest. intros ->. congruence.
Qed.

(** An error in the middleware is answered by the error middleware; the
    route's handler does not run and the database is not touched. *)
Lemma middleware_error (l : Layer) (rq : Request) (w : World) (e : exn) (w1 : World) :
  before l rq (incoming rq) w = (Throw e, w1) -> sent w1 = None ->
  exists w', run_layer l rq w = (Ok tt, w')
             /\ sent w' = Some internal_server_error
             /\ tables w' = tables w1 /\ statements w' = statements w1.
Proof.
  intros Hb Hs. unfold run_layer. rewrite Hb.
  unfold global_error_handler, send. rewrite Hs.
  eexists. split; [reflexivity|]. cbn. auto.
Qed.

(** A multipart request with a named part that [fileFilter] turns down,
    sent to any of the four upload routes, is answered 500 and writes
    nothing to the database. *)
Lemma rejected_upload_writes_nothing (rq : Request) (w : World)
    (fields : gmap string string) (parts : list Upload) :
  method rq = POST -> pathname rq ∈ upload_routes ->
  payload rq = MultipartBody fields parts ->
  (exists file, file ∈ parts /\ turned_down file) ->
  response rq w = Some internal_server_error
  /\ tables (serve rq w) = tables w /\ statements (serve rq w) = statements w.
Proof.
  intros Hm Hp Hpl Hbad.
  assert (Hmw : forall left, exists e w1,
             receive left parts [] (set_sent None w) = (Throw e, w1)
             /\ sent w1 = None /\ tables w1 = tables w
             /\ statements w1 = statements w).
  { intros left.
    destruct (receive_rejects parts left [] (set_sent None w) Hbad) as (e & w1 & Hr).
    pose proof (receive_frame parts left [] (set_sent None w)) as Hf.
    cbn zeta in Hf. rewrite Hr in Hf. cbn in Hf.
    destruct Hf as (_ & Ht & Hs & _ & Hsent & _). eauto 10. }
  unfold response, serve.
  assert (Hgo : forall l, find (serves rq) stack = Some l ->
             (exists e w1, before l rq (incoming rq) (set_sent None w) = (Throw e, w1)
                           /\ sent w1 = None /\ tables w1 = tables w
                           /\ statements w1 = statements w) ->
             sent (snd (app rq (set_sent None w))) = Some internal_server_error
             /\ tables (snd (app rq (set_sent None w))) = tables w
             /\ statements (snd (app rq (set_sent None w))) = statements w).
  { intros l Hl (e & w1 & Hb & Hs1 & Ht1 & Hst1).
    rewrite (app_post rq _ l Hm Hl).
    destruct (middleware_error l rq _ e w1 Hb Hs1) as (w' & -> & ? & ? & ?).
    cbn. split; [assumption|split; congruence]. }
  assert (Hthrow : forall (left : gmap string nat) (k : list File -> M Req),
             exists e w1, (stored <- receive left parts [] ;; k stored) (set_sent None w)
                          = (Throw e, w1)
                          /\ sent w1 = None /\ tables w1 = tables w
                          /\ statements w1 = statements w).
  { intros left k. destruct (Hmw left) as (e & w1 & Hr & ?).
    exists e, w1. unfold bind. rewrite Hr. auto. }
  unfold upload_routes in Hp.
  repeat (apply elem_of_cons in Hp as [Hp|Hp]); [| | | |inversion Hp].
  - eapply (Hgo _ (find_route rq POST _ _ Hm Hp eq_refl)).
    cbn [before]. unfold uploadImageOnly. rewrite Hpl. apply Hthrow.
  - eapply (Hgo _ (find_route rq POST _ _ Hm Hp eq_refl)).
    cbn [before]. unfold checkImageType, incoming.
    rewrite Hpl. cbn [body]. rewrite lookup_empty. cbn [is_string].
    unfold uploadImageOnly. rewrite Hpl. apply Hthrow.
  - eapply (Hgo _ (find_route rq POST _ _ Hm Hp eq_refl)).
    cbn [before]. unfold upload. rewrite Hpl. apply Hthrow.
  - eapply (Hgo _ (find_route rq POST _ _ Hm Hp eq_refl)).
    cbn [before]. unfold handleUpload, upload. rewrite Hpl. apply Hthrow.
Qed.

(** *** Connections *)

(** C5, where the code departs from it.  [POST /api/projects] reads
    [req.files] between leasing the connection and entering the [try]
    whose [finally] releases it.  A request that is not multipart leaves
    [req.files] undefined: the read throws, the request is answered 500,
    no statement is sent and the connection stays leased. *)
Theorem create_project_without_files_keeps_connection
    (rq : Request) (w : World) (b : gmap string prim) :
  method rq = POST -> pathname rq = "/api/projects" ->
  payload rq = JsonBody b -> reachable (env w) = true ->
  response rq w = Some unexpected_error
  /\ leased (serve rq w) = S (leased w)
  /\ statements (serve rq w) = statements w.
Proof.
  intros Hm Hp Hb Hr.
  assert (Hrun : app rq (set_sent None w)
                 = run_layer {| verb := POST; route := "/api/projects";
                                before := upload;
                                handler := post_projects |} rq (set_sent None w)).
  { apply app_post; [exact Hm|].
    apply (find_route rq POST "/api/projects"); [exact Hm|exact Hp|reflexivity]. }
  unfold response, serve. rewrite Hrun.
  unfold run_layer. cbn [before handler]. unfold upload. rewrite Hb.
  unfold ret, post_projects, try_catch, bind, getConnection.
  cbn [env set_sent]. rewrite Hr.
  unfold files_slot, incoming. cbn [files]. unfold throw.
  cbn. auto.
Qed.

Lemma balanced_ret {A} (a : A) : balanced (ret a).
Proof. intros w. reflexivity. Qed.

Lemma balanced_throw {A} (e : exn) : balanced (@throw A e).
Proof. intros w. reflexivity. Qed.

Lemma balanced_bind {A B} (m : M A) (k : A -> M B) :
  balanced m -> (forall a, balanced (k a)) -> balanced (bind m k).
Proof.
  intros Hm Hk w. unfold bind. specialize (Hm w).
  destruct (m w) as [[a|e] w1]; cbn in *; [|exact Hm].
  rewrite (Hk a w1). exact Hm.
Qed.

Lemma balanced_try_catch {A} (m : M A) (h : exn -> M A) :
  balanced m -> (forall e, balanced (h e)) -> balanced (try_catch m h).
Proof.
  intros Hm Hh w. unfold try_catch. specialize (Hm w).
  destruct (m w) as [[a|e] w1]; cbn in *; [exact Hm|].
  rewrite (Hh e w1). exact Hm.
Qed.

Lemma balanced_send (code : Z) (doc : json) : balanced (send code doc).
Proof. intros w. unfold send. destruct (sent w); reflexivity. Qed.

Lemma balanced_query (st : Statement) : balanced (query st).
Proof.
  intros w. unfold query. destruct (execute st (tables w)) as [[? ?]|]; reflexivity.
Qed.

Lemma balanced_parse (sch : Schema) (o : string -> option prim) :
  balanced (parse sch o).
Proof. intros w. unfold parse. destruct (issues sch o); reflexivity. Qed.

Lemma balanced_parse_body (sch : Schema) (req : Req) :
  balanced (parse_body sch req).
Proof.
  unfold parse_body. destruct (is_array req);
    [apply balanced_throw|apply balanced_parse].
Qed.

Lemma balanced_catch_block (msg : string) (e : exn) : balanced (catch_block msg e).
Proof.
  unfold catch_block. destruct e; try destruct (has_response _);
    apply balanced_send.
Qed.

(** The discipline of the handlers: lease, then [try { ... } finally {
    release }] with nothing in between. *)
Lemma balanced_lease {A} (m : M A) :
  balanced m -> balanced (getConnection ;; try_finally m release).
Proof.
  intros Hm w. unfold bind, getConnection, try_finally, release.
  destruct (reachable (env w)); [|reflexivity].
  specialize (Hm (set_leased (S (leased w)) w)).
  destruct (m _) as [r w1]. cbn in *. rewrite Hm. reflexivity.
Qed.

Create HintDb balanced.
#[local] Hint Resolve balanced_ret balanced_throw balanced_send balanced_query
  balanced_parse balanced_parse_body balanced_catch_block : balanced.

Ltac balance :=
  repeat first
    [ apply balanced_try_catch; [|intros ?]
    | apply balanced_lease
    | apply balanced_bind; [|intros ?]
    | solve [auto with balanced]
    | match goal with
      | |- balanced (if ?c then _ else _) => destruct c
      | |- balanced (match ?x with _ => _ end) => destruct x
      end ].

(** Every handler but the two project writers keeps that discipline. *)
Lemma handlers_release (req : Req) :
  balanced (post_login req) /\ balanced (post_apps req)
  /\ balanced (post_edit_apps req) /\ balanced (get_all req)
  /\ balanced (get_edit_apps req) /\ balanced (get_edit_projects req)
  /\ balanced (get_projects_delete req).
Proof.
  repeat split.
  - unfold post_login. balance.
    + unfold bcrypt_compare_async. balance.
    + intros w. unfold sign_1h. destruct (signing_key (env w)); reflexivity.
  - unfold post_apps, query_with_callback. balance.
  - unfold post_edit_apps, query_with_callback. balance.
  - unfold get_all. balance.
  - unfold get_edit_apps. balance.
  - unfold get_edit_projects. balance.
  - unfold get_projects_delete. balance.
Qed.

(** *** Creating and editing an app *)

(** A file that passes [fileFilter] has a name. *)
Lemma fileFilter_named (u : Upload) :
  fileFilter u = true -> String.eqb (originalname u) "" = false.
Proof.
  unfold fileFilter. destruct (originalname u); [|reflexivity].
  vm_compute. discriminate.
Qed.

Lemma single_image (rq : Request) (w : World) (fields : gmap string string)
    (u : Upload) :
  payload rq = MultipartBody fields [u] -> fieldname u = "image" ->
  fileFilter u = true ->
  uploadImageOnly rq (incoming rq) w
  = (Ok (with_image rq fields u),
     set_public ({[ storage_filename u ]} ∪ public w) w).
Proof.
  intros Hp Hf Ha. unfold uploadImageOnly. rewrite Hp.
  unfold bind. cbn [receive].
  rewrite (fileFilter_named u Ha), Hf, lookup_singleton_eq, Ha.
  reflexivity.
Qed.

(** C4, where the code departs from it.  [fileFilter] lets through a file
    whose extension [.pdfx] and MIME type [application/x-pdfx] are not on
    the list, because each only has to contain one of the five words; the
    upload middleware of [POST /api/apps] writes it to [public/] for
    every world. *)
Theorem upload_accepts_unlisted_type (w : World) :
  let rq := request POST "/api/apps" ∅ (MultipartBody ∅ [disguised]) in
  toLowerCase (extname (originalname disguised)) = ".pdfx"
  /\ (".pdfx" ∉ listed_extensions)
  /\ (mimetype disguised ∉ listed_mimetypes)
  /\ fileFilter disguised = true
  /\ exists req,
       uploadImageOnly rq (incoming rq) w
       = (Ok req, set_public ({[ "1700000000123_notes.pdfx" ]} ∪ public w) w)
       /\ file req = Some {| upload_of := disguised;
                             filename := "1700000000123_notes.pdfx" |}.
Proof.
  cbn zeta. split; [vm_compute; reflexivity|].
  split; [|split; [|split; [vm_compute; reflexivity|]]].
  - unfold listed_extensions. rewrite !elem_of_cons. intros H.
    repeat (destruct H as [H|H]; [discriminate H|]). inversion H.
  - unfold listed_mimetypes. rewrite !elem_of_cons. intros H.
    repeat (destruct H as [H|H]; [discriminate H|]). inversion H.
  - assert (Hname : storage_filename disguised = "1700000000123_notes.pdfx")
      by (vm_compute; reflexivity).
    assert (Hok : fileFilter disguised = true) by (vm_compute; reflexivity).
    exists (with_image (request POST "/api/apps" ∅ (MultipartBody ∅ [disguised]))
              ∅ disguised).
    rewrite (single_image (request POST "/api/apps" ∅ (MultipartBody ∅ [disguised]))
               w ∅ disguised eq_refl eq_refl Hok).
    unfold with_image. rewrite Hname. split; reflexivity.
Qed.

Lemma create_app_paths (rq : Request) (w : World) (fields : gmap string string)
    (u : Upload) :
  method rq = POST -> pathname rq = "/api/apps" ->
  payload rq = MultipartBody fields [u] -> fieldname u = "image" ->
  fileFilter u = true ->
  let req := with_image rq fields u in
  let w' := serve rq w in
  public w' = {[ storage_filename u ]} ∪ public w
  /\ leased w' = leased w
  /\ write_path w w' (issues schema (apps_fields req))
       (insert_app (body req !! "table") (validated schema (apps_fields req)))
       "Project submitted successfully!".
Proof.
  intros Hm Hp Hpl Hf Ha. cbn zeta. unfold serve.
  assert (Hrun : app rq (set_sent None w)
                 = run_layer {| verb := POST; route := "/api/apps";
                                before := uploadImageOnly;
                                handler := post_apps |} rq (set_sent None w)).
  { apply app_post; [exact Hm|].
    apply (find_route rq POST "/api/apps"); [exact Hm|exact Hp|reflexivity]. }
  rewrite Hrun. unfold run_layer. cbn [before handler].
  rewrite (single_image rq _ fields u Hpl Hf Ha). cbv beta iota.
  destruct (post_apps_paths (with_image rq fields u)
              (set_public ({[storage_filename u]} ∪ public (set_sent None w))
                 (set_sent None w)))
    as (w' & -> & Hl & Hpub & Hpath); [reflexivity|].
  cbn [snd]. split; [exact Hpub|]. split; [exact Hl|].
  eapply write_path_base; [| | |exact Hpath]; reflexivity.
Qed.

Lemma storage_filename_not_empty (u : Upload) :
  String.eqb (storage_filename u) "" = false.
Proof.
  unfold storage_filename. destruct (decimal (arrival u)); reflexivity.
Qed.

Lemma valid_app_with_image (rq : Request) (fields : gmap string string) (u : Upload) :
  valid_app (PStr <$> fields) ->
  issues schema (apps_fields (with_image rq fields u)) = [].
Proof.
  intros (t & c & l & cat & Ht & Hnt & Hc & Hnc & Hl & Hu & Hcat & Hin).
  unfold issues, schema, apps_fields, literal.
  cbn [flat_map fst snd prop String.eqb Ascii.eqb Bool.eqb with_image body file
       filename_or filename].
  rewrite Ht, Hc, Hl, Hcat.
  cbn [parse_field run_check flat_map map app]. rewrite Hu.
  rewrite storage_filename_not_empty.
  destruct (String.eqb_spec t ""); [contradiction|].
  destruct (String.eqb_spec c ""); [contradiction|].
  destruct Hin as [-> | ->]; reflexivity.
Qed.

(** C6, as amended.  A create-app request with valid fields and one
    image that [fileFilter] accepts, for a table that exists and has the
    columns of an app, with a connection to lease: the file is stored as
    [<timestamp>_<original name>], the new row's [image] is that same
    name, and the answer is the 200 success document. *)
Theorem create_app_names_image (rq : Request) (w : World)
    (fields : gmap string string) (u : Upload) (t : string) (T : Table) :
  method rq = POST -> pathname rq = "/api/apps" ->
  payload rq = MultipartBody fields [u] -> fieldname u = "image" ->
  fileFilter u = true -> valid_app (PStr <$> fields) ->
  fields !! "table" = Some t -> tables w !! t = Some T ->
  has_columns T app_columns = true ->
  reachable (env w) = true ->
  let name := (decimal (arrival u) ++ "_" ++ originalname u)%string in
  public (serve rq w) = {[ name ]} ∪ public w
  /\ (exists row,
        tables (serve rq w) !! t
        = Some {| next_id := next_id T + 1; columns := columns T;
                  rows := (rows T ++ [row])%list |}
        /\ row !! "image" = Some (PStr name))
  /\ response rq w
     = Some (answered 200 (success_message "Project submitted successfully!")).
Proof.
  intros Hm Hp Hpl Hf Ha Hv Ht HT Hcols Hr name.
  destruct (create_app_paths rq w fields u Hm Hp Hpl Hf Ha) as (Hpub & _ & Hpath).
  split; [exact Hpub|].
  rewrite (valid_app_with_image rq fields u Hv) in Hpath.
  destruct Hpath as [Hr'|_ Hne|_ _ _ Hx]; [congruence|contradiction|].
  unfold insert_app, with_image in Hx. cbn [body] in Hx.
  rewrite lookup_fmap, Ht in Hx. cbn [fmap option_fmap option_map escapeId to_String] in Hx.
  unfold execute in Hx. rewrite HT in Hx. cbn [mbind option_bind] in Hx.
  unfold app_columns in Hcols. rewrite Hcols in Hx.
  destruct Hx as [Htab Hsent]. unfold response. split; [|exact Hsent].
  rewrite Htab, lookup_insert_eq. eexists. split; [reflexivity|].
  cbn [zip zip_with assign fold_left fst snd].
  rewrite lookup_insert_ne by discriminate. rewrite lookup_insert_eq.
  reflexivity.
Qed.

(** C2, where the code departs from it.  [POST /api/apps] never looks at
    [table] before the query: with valid fields, an accepted image and no
    [table] field, the [INSERT] is sent for the table named [undefined],
    and the answer is not a 400. *)
Theorem create_without_table_sends_insert (rq : Request) (w : World)
    (fields : gmap string string) (u : Upload) :
  method rq = POST -> pathname rq = "/api/apps" ->
  payload rq = MultipartBody fields [u] -> fieldname u = "image" ->
  fileFilter u = true -> valid_app (PStr <$> fields) ->
  fields !! "table" = None -> reachable (env w) = true ->
  (exists vals,
     statements (serve rq w)
     = (statements w ++ [Insert "undefined" app_columns vals])%list)
  /\ (exists r, response rq w = Some r /\ status r <> 400).
Proof.
  intros Hm Hp Hpl Hf Ha Hv Ht Hr.
  destruct (create_app_paths rq w fields u Hm Hp Hpl Hf Ha) as (_ & _ & Hpath).
  rewrite (valid_app_with_image rq fields u Hv) in Hpath.
  destruct Hpath as [Hr'|_ Hne|_ _ Hst Hx]; [congruence|contradiction|].
  unfold insert_app, with_image in Hst, Hx. cbn [body] in Hst, Hx.
  rewrite lookup_fmap, Ht in Hst, Hx.
  cbn [fmap option_fmap option_map escapeId to_String] in Hst, Hx.
  split; [eexists; exact Hst|].
  unfold response.
  destruct (execute _ (tables w)) as [[res db']|]; destruct Hx as [_ ->];
    eexists; (split; [reflexivity|cbn; discriminate]).
Qed.

Lemma no_row_hit (col : string) (v : option prim) (sets : list (string * option prim))
    (rs : list Row) :
  (forall r, r ∈ rs -> matches col v r = false) ->
  map (fun r => if matches col v r then assign sets r else r) rs = rs
  /\ filter (fun r => matches col v r = true) rs = [].
Proof.
  induction rs as [|r rs IH]; intros H; [split; reflexivity|].
  destruct IH as [IH1 IH2]; [intros r' Hr'; apply H; right; exact Hr'|].
  pose proof (H r ltac:(left)) as Hr.
  split.
  - cbn [map]. rewrite Hr, IH1. reflexivity.
  - rewrite filter_cons_False by (rewrite Hr; discriminate). exact IH2.
Qed.

(** C1, where the code departs from it.  [POST /api/edit/apps] with valid
    fields, an [image] kept as a string and an [id] that matches no row of
    the table: the statement updates nothing, and the answer is still the
    200 success document (on a table that has the columns of an app; on
    one that does not, the server refuses the statement and the answer is
    500), never a 404.  The callback that would answer 404 is handed to a
    [query] that never calls it. *)
Theorem edit_of_missing_row_reports_success (rq : Request) (w : World)
    (b : gmap string prim) (T : Table) :
  method rq = POST -> pathname rq = "/api/edit/apps" ->
  payload rq = JsonBody b -> is_string (b !! "image") = true ->
  issues editSchema (edit_apps_fields (incoming rq)) = [] ->
  reachable (env w) = true ->
  tables w !! escapeId (b !! "table") = Some T ->
  (forall r, r ∈ rows T -> matches "id" (b !! "id") r = false) ->
  response rq w
  = Some (if has_columns T app_columns
          then answered 200 (success_message "Project updated successfully!")
          else unexpected_error)
  /\ tables (serve rq w) !! escapeId (b !! "table") = Some T.
Proof.
  intros Hm Hp Hb Himg Hv Hr HT Hmiss.
  assert (Hrun : app rq (set_sent None w)
                 = run_layer {| verb := POST; route := "/api/edit/apps";
                                before := checkImageType;
                                handler := post_edit_apps |} rq (set_sent None w)).
  { apply app_post; [exact Hm|].
    apply (find_route rq POST "/api/edit/apps"); [exact Hm|exact Hp|reflexivity]. }
  assert (Hbody : body (incoming rq) = b) by (unfold incoming; rewrite Hb; reflexivity).
  unfold response, serve. rewrite Hrun. unfold run_layer. cbn [before handler].
  unfold checkImageType. rewrite Hbody, Himg. unfold ret.
  destruct (post_edit_apps_paths (incoming rq) (set_sent None w))
    as (w' & -> & _ & _ & Hpath); [reflexivity|].
  cbn [snd]. rewrite Hv in Hpath.
  destruct Hpath as [Hr'|_ Hne|_ _ _ Hx];
    [cbn in Hr'; congruence|contradiction|].
  unfold update_app in Hx. rewrite Hbody in Hx.
  cbn [validated editSchema map fst snd prop String.eqb Ascii.eqb Bool.eqb] in Hx.
  unfold edit_apps_fields at 6 in Hx. unfold literal in Hx.
  cbn [prop String.eqb Ascii.eqb Bool.eqb] in Hx. rewrite Hbody in Hx.
  unfold execute in Hx. cbn [tables set_sent] in Hx. rewrite HT in Hx.
  cbn [mbind option_bind map fst] in Hx. unfold app_columns.
  destruct (has_columns T _);
    [|destruct Hx as [Htab Hsent]; split; [exact Hsent|rewrite Htab; exact HT]].
  destruct Hx as [Htab Hsent]. split; [exact Hsent|].
  rewrite Htab, lookup_insert_eq.
  destruct (no_row_hit "id" (b !! "id")
              [("title", edit_apps_fields (incoming rq) "title");
               ("content", edit_apps_fields (incoming rq) "content");
               ("link", edit_apps_fields (incoming rq) "link");
               ("category", edit_apps_fields (incoming rq) "category");
               ("image", edit_apps_fields (incoming rq) "image")]
              (rows T) Hmiss) as [-> _].
  destruct T; reflexivity.
Qed.

(** *** Validation comes first *)

Lemma write_path_400 (w w' : World) errs st done (r : Response) :
  write_path w w' errs st done -> sent w' = Some r -> status r = 400 ->
  tables w' = tables w /\ statements w' = statements w.
Proof.
  intros [_ Hs _ _|_ _ _ Ht Hst|_ _ _ Hx] Hr H400.
  - rewrite Hs in Hr. injection Hr as <-. discriminate H400.
  - auto.
  - destruct (execute st (tables w)) as [[? ?]|]; destruct Hx as [_ Hs];
      rewrite Hs in Hr; injection Hr as <-; discriminate H400.
Qed.

Lemma quiet_validates_first {A} (m : M A) : quiet m -> validates_first m.
Proof.
  intros Hq w Hs. left. destruct (Hq w) as (? & ? & Hsent).
  repeat split; congruence.
Qed.

Lemma past_validation_validates_first {A} (m : M A) :
  past_validation m -> validates_first m.
Proof. intros Hp w Hs. right. apply Hp. left. exact Hs. Qed.

Lemma validates_first_bind {A B} (m : M A) (k : A -> M B) :
  quiet m -> (forall a, validates_first (k a)) -> validates_first (bind m k).
Proof.
  intros Hq Hk w Hs. unfold bind. destruct (Hq w) as (Ht & Hst & Hsent).
  destruct (m w) as [[a|e] w1]; cbn in *.
  - destruct (Hk a w1) as [(Ht' & Hst' & Hsent')|Hc];
      [congruence| |right; exact Hc].
    left. unfold untouched. rewrite Ht', Hst', Hsent', Ht, Hst. auto.
  - left. unfold untouched. cbn. rewrite Ht, Hst, Hsent. auto.
Qed.

Lemma past_validation_bind {A B} (m : M A) (k : A -> M B) :
  past_validation m -> (forall a, past_validation (k a)) ->
  past_validation (bind m k).
Proof.
  intros Hm Hk w Hw. unfold bind. specialize (Hm w Hw).
  destruct (m w) as [[a|e] w1]; cbn in *.
  - apply Hk. exact (proj2 Hm).
  - split; [|exact (proj2 Hm)]. intros errs [= ->]. exact (proj1 Hm errs eq_refl).
Qed.

Lemma past_validation_ret {A} (a : A) : past_validation (ret a).
Proof. intros w Hw. split; [discriminate|exact Hw]. Qed.

Lemma past_validation_query (st : Statement) : past_validation (query st).
Proof.
  intros w Hw. unfold query.
  destruct (execute st (tables w)) as [[res db']|]; split; try discriminate;
    exact Hw.
Qed.

Lemma past_validation_send (code : Z) (doc : json) :
  code <> 400 -> past_validation (send code doc).
Proof.
  intros Hc w Hw. unfold send. destruct (sent w) as [r|] eqn:Hs.
  - split; [discriminate|exact Hw].
  - split; [discriminate|]. right. eexists. split; [reflexivity|exact Hc].
Qed.

Lemma validates_first_finally {A} (m : M A) :
  validates_first m -> validates_first (try_finally m release).
Proof.
  intros Hm w Hs. unfold try_finally, release. specialize (Hm w Hs).
  destruct (m w) as [r w1]. exact Hm.
Qed.

Lemma quiet_ret {A} (a : A) : quiet (ret a).
Proof. intros w. auto. Qed.

Lemma quiet_throw {A} (e : exn) : quiet (@throw A e).
Proof. intros w. auto. Qed.

Lemma quiet_getConnection : quiet getConnection.
Proof. intros w. unfold getConnection. destruct (reachable (env w)); auto. Qed.

Lemma quiet_parse (sch : Schema) (o : string -> option prim) : quiet (parse sch o).
Proof. intros w. unfold parse. destruct (issues sch o); auto. Qed.

Lemma quiet_files_slot (req : Req) (k : string) (v : option prim) :
  quiet (files_slot req k v).
Proof.
  intros w. unfold files_slot. destruct (files req) as [fs|]; [|auto].
  destruct (fs !! k); auto.
Qed.

Lemma quiet_filename_text (s : Slot) : quiet (filename_text s).
Proof. intros w. destruct s as [f|[[| | |]|]]; cbn; auto. Qed.

Lemma quiet_reference_of (s : Slot) : quiet (reference_of s).
Proof. intros w. destruct s as [f|[[| | |]|]]; cbn; auto. Qed.


Create HintDb validation.
#[local] Hint Resolve quiet_ret quiet_throw quiet_getConnection quiet_parse
  quiet_files_slot quiet_filename_text quiet_reference_of
  past_validation_ret past_validation_query : validation.

Ltac quietness :=
  repeat first
    [ solve [auto with validation]
    | match goal with
      | |- quiet (if ?c then _ else _) => destruct c
      | |- quiet (match ?x with _ => _ end) => destruct x
      end ].

Ltac validation :=
  repeat first
    [ solve [auto with validation]
    | apply validates_first_finally
    | apply validates_first_bind; [solve [quietness]|intros ?]
    | apply past_validation_validates_first
    | apply past_validation_bind; [|intros ?]
    | apply past_validation_send; discriminate ].



Lemma uploadImageOnly_frames : frames uploadImageOnly.
Proof.
  intros rq req w. unfold uploadImageOnly.
  destruct (payload rq) as [b|items|fields parts]; [cbn; auto..|].
  unfold bind.
  pose proof (receive_frame parts {[ "image" := 1%nat ]} [] w) as Hf.
  cbn zeta in Hf. destruct (receive _ parts [] w) as [[fs|e] w1]; cbn in *;
    destruct Hf as (_ & ? & ? & _ & ? & _); auto.
Qed.

Lemma checkImageType_frames : frames checkImageType.
Proof.
  intros rq req w. unfold checkImageType.
  destruct (is_string _); [cbn; auto|apply uploadImageOnly_frames].
Qed.

Lemma upload_frames : frames upload.
Proof.
  intros rq req w. unfold upload.
  destruct (payload rq) as [b|items|fields parts]; [cbn; auto..|].
  unfold bind.
  pose proof (receive_frame parts {[ "image" := 1%nat; "pdfFile" := 1%nat ]} [] w)
    as Hf.
  cbn zeta in Hf. destruct (receive _ parts [] w) as [[fs|e] w1]; cbn in *;
    destruct Hf as (_ & ? & ? & _ & ? & _); auto.
Qed.





(** *** What the handlers leave alone *)

Lemma keeps_ret {A X} (f : World -> X) (a : A) : keeps f (ret a).
Proof. intros w. reflexivity. Qed.

Lemma keeps_throw {A X} (f : World -> X) (e : exn) : keeps f (@throw A e).
Proof. intros w. reflexivity. Qed.

Lemma keeps_bind {A B X} (f : World -> X) (m : M A) (k : A -> M B) :
  keeps f m -> (forall a, keeps f (k a)) -> keeps f (bind m k).
Proof.
  intros Hm Hk w. unfold bind. specialize (Hm w).
  destruct (m w) as [[a|e] w1]; cbn in *; [|exact Hm].
  rewrite (Hk a w1). exact Hm.
Qed.

Lemma keeps_try_catch {A X} (f : World -> X) (m : M A) (h : exn -> M A) :
  keeps f m -> (forall e, keeps f (h e)) -> keeps f (try_catch m h).
Proof.
  intros Hm Hh w. unfold try_catch. specialize (Hm w).
  destruct (m w) as [[a|e] w1]; cbn in *; [exact Hm|].
  rewrite (Hh e w1). exact Hm.
Qed.

Lemma keeps_try_finally {A X} (f : World -> X) (m : M A) (c : M unit) :
  keeps f m -> keeps f c -> keeps f (try_finally m c).
Proof.
  intros Hm Hc w. unfold try_finally. specialize (Hm w).
  destruct (m w) as [r w1]. specialize (Hc w1).
  destruct (c w1) as [[u|e] w2]; cbn in *; congruence.
Qed.

(** Each primitive changes one component of the world at most. *)
Lemma send_frame (code : Z) (doc : json) :
  keeps tables (send code doc) /\ keeps public (send code doc)
  /\ keeps statements (send code doc) /\ keeps outbox (send code doc).
Proof. split_and!; intros w; unfold send; destruct (sent w); reflexivity. Qed.

Lemma lease_frame :
  (keeps tables getConnection /\ keeps public getConnection
   /\ keeps statements getConnection /\ keeps outbox getConnection)
  /\ (keeps tables release /\ keeps public release
      /\ keeps statements release /\ keeps outbox release).
Proof.
  split; split_and!; intros w; unfold getConnection, release;
    try destruct (reachable (env w)); reflexivity.
Qed.

Lemma query_frame (st : Statement) :
  keeps public (query st) /\ keeps outbox (query st).
Proof.
  split; intros w; unfold query;
    destruct (execute st (tables w)) as [[? ?]|]; reflexivity.
Qed.

(** A [SELECT] leaves the tables as they are. *)
Lemma select_keeps_tables (st : Statement) :
  (exists t, st = SelectAll t) \/ (exists t col v, st = SelectWhere t col v) ->
  keeps tables (query st).
Proof.
  intros [[t ->]|(t & col & v & ->)] w; unfold query, execute;
    destruct (tables w !! t) as [T|]; cbn [mbind option_bind];
    try destruct (has_column T col); reflexivity.
Qed.

Lemma pure_steps_frame {X} (f : World -> X) :
  (forall sch o, keeps f (parse sch o))
  /\ (forall d h, keeps f (bcrypt_compare_async d h))
  /\ (forall u, keeps f (sign_1h u))
  /\ (forall req k v, keeps f (files_slot req k v))
  /\ (forall s, keeps f (filename_text s))
  /\ (forall s, keeps f (reference_of s))
  /\ (forall x, keeps f (unbound x))
  /\ keeps f readFile
  /\ (forall sch req, keeps f (parse_body sch req)).
Proof.
  assert (Hparse : forall sch o, keeps f (parse sch o)).
  { intros sch o w. unfold parse. destruct (issues sch o); reflexivity. }
  split_and!.
  - exact Hparse.
  - intros [[| | |d]|] [[| | |h]|] w; reflexivity.
  - intros u w. unfold sign_1h. destruct (signing_key (env w)); reflexivity.
  - intros req k v w. unfold files_slot. destruct (files req) as [fs|]; [|reflexivity].
    destruct (fs !! k); reflexivity.
  - intros [g|[[| | |]|]] w; reflexivity.
  - intros [g|[[| | |]|]] w; reflexivity.
  - intros x w. reflexivity.
  - intros w. unfold readFile. destruct (mail_template (env w)); reflexivity.
  - intros sch req. unfold parse_body. destruct (is_array req);
      [intros w; reflexivity|apply Hparse].
Qed.

Lemma sendMail_frame (to subject : string) :
  keeps tables (sendMail to subject) /\ keeps public (sendMail to subject)
  /\ keeps statements (sendMail to subject).
Proof.
  split_and!; intros w; unfold sendMail; destruct (smtp (env w)); reflexivity.
Qed.

Ltac frame_step :=
  first
    [ apply keeps_ret | apply keeps_throw
    | apply send_frame | apply lease_frame | apply query_frame
    | apply sendMail_frame
    | apply (pure_steps_frame tables) | apply (pure_steps_frame public)
    | apply (pure_steps_frame statements) | apply (pure_steps_frame outbox)
    | apply select_keeps_tables; solve [left; eexists; reflexivity
                                       |right; do 3 eexists; reflexivity]
    | apply keeps_try_catch; [|intros ?]
    | apply keeps_try_finally
    | apply keeps_bind; [|intros ?]
    | match goal with
      | |- keeps _ (catch_block _ ?e) =>
          unfold catch_block; destruct e; try destruct (has_response _)
      | |- keeps _ (if ?c then _ else _) => destruct c
      | |- keeps _ (match ?x with _ => _ end) => destruct x
      end ].

Ltac frame := repeat frame_step.

(** No handler writes to, or deletes from, [public/]. *)
Lemma handlers_keep_public (l : Layer) (req : Req) :
  In l stack -> keeps public (handler l req).
Proof.
  intros Hin. cbn in Hin.
  repeat (destruct Hin as [<-|Hin]); [..|destruct Hin]; cbn [handler];
    unfold post_send_mail, post_login, post_apps, post_edit_apps, get_apps,
      get_projects, get_all, get_edit_apps, post_projects, post_edit_projects,
      get_edit_projects, get_projects_delete, get_root, query_with_callback;
    frame.
Qed.

Lemma receive_public (parts : list Upload) :
  forall left stored w fs w',
    receive left parts stored w = (Ok fs, w') -> public w ⊆ public w'.
Proof.
  induction parts as [|file rest IH]; intros left stored w fs w'; cbn [receive].
  - intros [= <- <-]. reflexivity.
  - destruct (String.eqb (originalname file) ""); [apply IH|].
    destruct (left !! fieldname file) as [[|n]|]; [discriminate| |discriminate].
    destruct (fileFilter file); [|discriminate].
    unfold bind, store. intros Hrun. apply IH in Hrun. cbn in Hrun.
    set_solver.
Qed.

Lemma stack_frames (l : Layer) : In l stack -> frames (before l).
Proof.
  intros Hin. cbn in Hin.
  repeat (destruct Hin as [<-|Hin]); [..|destruct Hin]; cbn [before];
    first [ apply uploadImageOnly_frames | apply checkImageType_frames
          | apply upload_frames | intros rq req w; cbn; auto ].
Qed.

Lemma stack_public (l : Layer) (rq : Request) (req req' : Req) (w w1 : World) :
  In l stack -> before l rq req w = (Ok req', w1) -> public w ⊆ public w1.
Proof.
  intros Hin. cbn in Hin.
  assert (Hone : forall left (k : list File -> Req),
             (stored <- receive left
                          match payload rq with
                          | MultipartBody _ parts => parts
                          | _ => []
                          end [] ;; ret (k stored)) w = (Ok req', w1) ->
             public w ⊆ public w1).
  { intros left k. unfold bind.
    destruct (receive left _ [] w) as [[fs|e] w2] eqn:Hr; [|discriminate].
    cbn. intros [= _ <-]. eapply receive_public, Hr. }
  assert (Hsingle : uploadImageOnly rq req w = (Ok req', w1) ->
                    public w ⊆ public w1).
  { unfold uploadImageOnly.
    destruct (payload rq) as [b|items|fields parts] eqn:Hp.
    - intros [= _ <-]. reflexivity.
    - intros [= _ <-]. reflexivity.
    - intros H. eapply (Hone _ (fun stored => _)). exact H. }
  assert (Hfields : upload rq req w = (Ok req', w1) -> public w ⊆ public w1).
  { unfold upload.
    destruct (payload rq) as [b|items|fields parts] eqn:Hp.
    - intros [= _ <-]. reflexivity.
    - intros [= _ <-]. reflexivity.
    - intros H. eapply (Hone _ (fun stored => _)). exact H. }
  repeat (destruct Hin as [<-|Hin]); [..|destruct Hin]; cbn [before];
    try (intros [= _ <-]; reflexivity); try assumption.
  unfold checkImageType. destruct (is_string _); [|exact Hsingle].
  intros [= _ <-]. reflexivity.
Qed.

(** X1.  Whatever the request, the files under [public/] stay there unless
    the upload middleware gave up on the request, which is answered 500
    [Internal Server Error]: no handler removes a file, and replacing an
    attachment leaves the previous file in place. *)
Theorem stored_files_are_kept (rq : Request) (w : World) :
  response rq w <> Some internal_server_error ->
  public w ⊆ public (serve rq w).
Proof.
  unfold response, serve, app. cbn [public set_sent].
  destruct (same_method GET (method rq)
            && bool_decide (static_name rq ∈ public w))%bool;
    [intros _; reflexivity|].
  destruct (find (serves rq) stack) as [l|] eqn:Hf.
  - apply find_some in Hf as [Hin _]. unfold run_layer.
    destruct (stack_frames l Hin rq (incoming rq) (set_sent None w))
      as (_ & _ & Hsent).
    destruct (before l rq (incoming rq) (set_sent None w)) as [[req|e] w1] eqn:Hb;
      cbn [snd] in Hsent.
    + pose proof (stack_public l rq _ _ _ _ Hin Hb) as Hsub. cbn in Hsub.
      pose proof (handlers_keep_public l req Hin w1) as Hk.
      intros _. rewrite Hk. exact Hsub.
    + unfold global_error_handler, send. rewrite Hsent. cbn. intros H.
      contradiction H. reflexivity.
  - intros _. unfold not_found.
    match goal with
    | |- _ ⊆ public (snd (send ?c ?d ?w0)) =>
        rewrite (proj1 (proj2 (send_frame c d)) w0)
    end.
    reflexivity.
Qed.

(** *** Reading and deleting *)

(** The body the five [GET] handlers share. *)
Lemma guarded_read (missing : bool) (msg : string) (st : Statement) (w : World) :
  sent w = None ->
  exists w',
    try_catch
      (getConnection ;;
       try_finally
         (if missing then send 400 (required msg)
          else results <- query st ;; send 200 (success_results results))
         release)
      (fun error => send 500 query_failed) w = (Ok tt, w')
    /\ leased w' = leased w /\ public w' = public w
    /\ read_path w w' missing msg st.
Proof.
  intros Hs. unfold try_catch, try_finally, bind, getConnection.
  destruct (reachable (env w)) eqn:Hr.
  - destruct missing.
    + respond Hs. eexists. split_and!; try reflexivity.
      apply read_refused; auto.
    + unfold query. cbn [tables set_leased statements].
      destruct (execute st (tables w)) as [[res db']|] eqn:He; respond Hs;
        (eexists; split_and!; try reflexivity;
         apply read_sent; auto; rewrite He; auto).
  - respond Hs. eexists. split_and!; try reflexivity.
    apply read_no_connection; auto.
Qed.

Lemma read_path_base (w0 w w' : World) missing msg st :
  env w = env w0 -> tables w = tables w0 -> statements w = statements w0 ->
  read_path w w' missing msg st -> read_path w0 w' missing msg st.
Proof.
  intros He Ht Hs [Hr ? ? ?|Hr ? ? ? ?|Hr ? ? Hx]; rewrite He in Hr.
  - apply read_no_connection; congruence.
  - apply read_refused; congruence.
  - apply read_sent; try congruence. rewrite <- Ht. exact Hx.
Qed.

(** A [GET] route with no static file in its way runs its handler on the
    request as it came. *)
Lemma get_route_paths (rq : Request) (w : World) (p : string)
    (h : Req -> M unit) (missing : bool) (msg : string) (st : Statement) :
  method rq = GET -> pathname rq = p -> static_name rq ∉ public w ->
  find (fun l => (same_method (verb l) GET && String.eqb (route l) p)%bool) stack
  = Some {| verb := GET; route := p; before := no_middleware; handler := h |} ->
  (forall w0, sent w0 = None ->
              exists w', h (incoming rq) w0 = (Ok tt, w')
                         /\ leased w' = leased w0 /\ public w' = public w0
                         /\ read_path w0 w' missing msg st) ->
  leased (serve rq w) = leased w /\ public (serve rq w) = public w
  /\ read_path w (serve rq w) missing msg st.
Proof.
  intros Hm Hp Hs Hf Hh. unfold serve.
  rewrite (app_get rq (set_sent None w) _ Hm Hs (find_route rq GET p _ Hm Hp Hf)),
    run_layer_plain.
  destruct (Hh (set_sent None w) eq_refl) as (w' & -> & Hl & Hpub & Hpath).
  cbn [snd]. split_and!; [exact Hl|exact Hpub|].
  eapply read_path_base; [| | |exact Hpath]; reflexivity.
Qed.

Lemma get_all_paths (req : Req) (w : World) :
  sent w = None ->
  exists w', get_all req w = (Ok tt, w')
             /\ leased w' = leased w /\ public w' = public w
             /\ read_path w w' (negb (truthy (qs req "db"))) "Table name is required"
                  (SelectAll (escapeId (qs req "db"))).
Proof. intros Hs. exact (guarded_read _ _ _ w Hs). Qed.


Lemma get_edit_projects_paths (req : Req) (w : World) :
  sent w = None ->
  exists w', get_edit_projects req w = (Ok tt, w')
             /\ leased w' = leased w /\ public w' = public w
             /\ read_path w w' (negb (truthy (qs req "db"))) "Table name is required"
                  (SelectWhere (escapeId (qs req "db")) "id" (qs req "id")).
Proof. intros Hs. exact (guarded_read _ _ _ w Hs). Qed.

Lemma get_projects_delete_paths (req : Req) (w : World) :
  sent w = None ->
  exists w', get_projects_delete req w = (Ok tt, w')
             /\ leased w' = leased w /\ public w' = public w
             /\ read_path w w' (negb (truthy (qs req "type"))) "Table name is required"
                  (Delete (escapeId (qs req "type")) (qs req "id")).
Proof. intros Hs. exact (guarded_read _ _ _ w Hs). Qed.

Lemma truthy_blank (v : option string) : blank v -> truthy (PStr <$> v) = false.
Proof. intros [-> | ->]; reflexivity. Qed.

Lemma truthy_given (v : option string) (t : string) :
  v = Some t -> t <> "" -> truthy (PStr <$> v) = true /\ escapeId (PStr <$> v) = t.
Proof. intros -> Ht. split; [apply truthy_string, Ht|reflexivity]. Qed.

Lemma read_path_refused (w w' : World) msg st :
  read_path w w' true msg st -> reachable (env w) = true ->
  sent w' = Some (answered 400 (required msg))
  /\ tables w' = tables w /\ statements w' = statements w.
Proof. intros [Hr ? ? ?|? ? ? ? ?|? Hm ? ?] Hr'; [congruence|auto|discriminate]. Qed.

Lemma read_path_sent (w w' : World) msg st :
  read_path w w' false msg st -> reachable (env w) = true ->
  statements w' = (statements w ++ [st])%list
  /\ match execute st (tables w) with
     | Some (res, db') =>
         tables w' = db' /\ sent w' = Some (answered 200 (success_results res))
     | None => tables w' = tables w /\ sent w' = Some (answered 500 query_failed)
     end.
Proof. intros [Hr ? ? ?|? Hm ? ? ?|? ? ? ?] Hr'; [congruence|discriminate|auto]. Qed.

(** X2.  The four routes that take the table name from the query string
    ([GET /api/apps], [/api/projects], [/api/edit/projects] and
    [/api/projects/delete]) answer 400 [Table name is required] when it is
    missing or empty, send no statement, and give the connection back. *)
Theorem read_without_table_is_refused (rq : Request) (w : World) (p key : string) :
  method rq = GET -> (p, key) ∈ table_routes -> pathname rq = p ->
  static_name rq ∉ public w -> blank (params rq !! key) ->
  reachable (env w) = true ->
  response rq w = Some table_name_required
  /\ statements (serve rq w) = statements w
  /\ tables (serve rq w) = tables w
  /\ leased (serve rq w) = leased w.
Proof.
  intros Hm Hin Hp Hs Hb Hr. unfold table_routes in Hin.
  assert (Hgo : forall st,
             leased (serve rq w) = leased w /\ public (serve rq w) = public w
             /\ read_path w (serve rq w)
                  (negb (truthy (PStr <$> params rq !! key)))
                  "Table name is required" st ->
             response rq w = Some table_name_required
             /\ statements (serve rq w) = statements w
             /\ tables (serve rq w) = tables w
             /\ leased (serve rq w) = leased w).
  { intros st (Hl & _ & Hpath). rewrite (truthy_blank _ Hb) in Hpath.
    destruct (read_path_refused _ _ _ _ Hpath Hr) as (? & ? & ?).
    unfold response. auto. }
  repeat (apply elem_of_cons in Hin as [Hin|Hin]); [| | | |inversion Hin];
    injection Hin as -> ->; eapply Hgo;
    apply (get_route_paths rq w _ _ _ _ _ Hm Hp Hs eq_refl); intros w0 Hs0.
  - apply get_all_paths, Hs0.
  - apply get_all_paths, Hs0.
  - apply get_edit_projects_paths, Hs0.
  - apply get_projects_delete_paths, Hs0.
Qed.


Lemma matches_null (col : string) (r : Row) : matches col None r = false.
Proof. reflexivity. Qed.

Lemma filter_null (col : string) (rs : list Row) :
  filter (fun r => matches col None r = true) rs = []
  /\ filter (fun r => matches col None r = false) rs = rs.
Proof.
  induction rs as [|r rs [IH1 IH2]]; [split; reflexivity|]. split.
  - rewrite filter_cons_False by (rewrite matches_null; discriminate). exact IH1.
  - rewrite filter_cons_True by apply matches_null. rewrite IH2. reflexivity.
Qed.


(** X5.  [GET /api/edit/projects] checks the table name only: with the id
    left out the [SELECT] is still sent, with an [undefined] id that no
    row equals, and the answer is 200 with an empty list. *)
Theorem read_one_project_without_id (rq : Request) (w : World) (t : string)
    (T : Table) :
  method rq = GET -> pathname rq = "/api/edit/projects" ->
  static_name rq ∉ public w -> reachable (env w) = true ->
  params rq !! "db" = Some t -> t <> "" -> params rq !! "id" = None ->
  tables w !! t = Some T ->
  response rq w = Some (listed [])
  /\ statements (serve rq w) = (statements w ++ [SelectWhere t "id" None])%list.
Proof.
  intros Hm Hp Hs Hr Ht Hnt Hi HT.
  assert (Hpath : read_path w (serve rq w)
                    (negb (truthy (PStr <$> params rq !! "db")))
                    "Table name is required"
                    (SelectWhere (escapeId (PStr <$> params rq !! "db")) "id"
                       (PStr <$> params rq !! "id"))).
  { apply (get_route_paths rq w _ _ _ _ _ Hm Hp Hs eq_refl).
    intros w0 Hs0. apply get_edit_projects_paths, Hs0. }
  destruct (truthy_given _ t Ht Hnt) as [Htr Hid].
  rewrite Htr, Hid, Hi in Hpath. cbn [negb fmap option_fmap option_map] in Hpath.
  destruct (read_path_sent _ _ _ _ Hpath Hr) as [Hst Hx].
  unfold execute in Hx. rewrite HT in Hx. cbn [mbind option_bind] in Hx.
  rewrite (proj1 (filter_null "id" (rows T))) in Hx.
  unfold response. destruct Hx as [_ ->]. split; [reflexivity|exact Hst].
Qed.

Lemma delete_paths (rq : Request) (w : World) (t : string) (T : Table) :
  method rq = GET -> pathname rq = "/api/projects/delete" ->
  static_name rq ∉ public w -> reachable (env w) = true ->
  params rq !! "type" = Some t -> t <> "" -> tables w !! t = Some T ->
  let id := PStr <$> params rq !! "id" in
  tables (serve rq w)
  = <[t := {| next_id := next_id T; columns := columns T;
              rows := filter (fun r => matches "id" id r = false) (rows T) |}]>
      (tables w)
  /\ response rq w
     = Some (answered 200
               (success_results
                  (ResultHeader
                     (length (filter (fun r => matches "id" id r = true) (rows T)))
                     0))).
Proof.
  intros Hm Hp Hs Hr Ht Hnt HT. cbn zeta.
  assert (Hpath : read_path w (serve rq w)
                    (negb (truthy (PStr <$> params rq !! "type")))
                    "Table name is required"
                    (Delete (escapeId (PStr <$> params rq !! "type"))
                       (PStr <$> params rq !! "id"))).
  { apply (get_route_paths rq w _ _ _ _ _ Hm Hp Hs eq_refl).
    intros w0 Hs0. apply get_projects_delete_paths, Hs0. }
  destruct (truthy_given _ t Ht Hnt) as [Htr Hid].
  rewrite Htr, Hid in Hpath. cbn [negb] in Hpath.
  destruct (read_path_sent _ _ _ _ Hpath Hr) as [_ Hx].
  unfold execute in Hx. rewrite HT in Hx. cbn [mbind option_bind] in Hx.
  unfold response. destruct Hx as [-> ->]. split; reflexivity.
Qed.


(** X7.  Without an id, [GET /api/projects/delete] deletes nothing: the
    statement is sent, no row equals the [undefined] id, the tables are as
    before and the answer is 200 with zero affected rows. *)
Theorem delete_without_id_deletes_nothing (rq : Request) (w : World) (t : string)
    (T : Table) :
  method rq = GET -> pathname rq = "/api/projects/delete" ->
  static_name rq ∉ public w -> reachable (env w) = true ->
  params rq !! "type" = Some t -> t <> "" -> tables w !! t = Some T ->
  params rq !! "id" = None ->
  tables (serve rq w) = tables w
  /\ response rq w = Some (answered 200 (success_results (ResultHeader 0 0))).
Proof.
  intros Hm Hp Hs Hr Ht Hnt HT Hid.
  destruct (delete_paths rq w t T Hm Hp Hs Hr Ht Hnt HT) as [Htab Hresp].
  cbn zeta in Htab, Hresp. rewrite Hid in Htab, Hresp.
  cbn [fmap option_fmap option_map] in Htab, Hresp.
  destruct (filter_null "id" (rows T)) as [H1 H2].
  rewrite H1 in Hresp. rewrite H2 in Htab. split; [|exact Hresp].
  rewrite Htab. apply insert_id. rewrite HT. destruct T; reflexivity.
Qed.

Lemma run_plain_keeps {X} (f : World -> X) (v : Method) (r : string)
    (h : Req -> M unit) (rq : Request) :
  (forall code doc, keeps f (send code doc)) -> (forall req, keeps f (h req)) ->
  keeps f (run_layer {| verb := v; route := r; before := no_middleware;
                        handler := h |} rq).
Proof.
  intros _ Hh w. rewrite run_layer_plain. exact (Hh (incoming rq) w).
Qed.

(** X8.  Login and the four read routes never change the database,
    whatever the request. *)
Theorem reads_leave_database (rq : Request) (w : World) :
  (method rq, pathname rq) ∈ read_routes ->
  tables (serve rq w) = tables w.
Proof.
  intros Hin. unfold serve, app.
  destruct (same_method GET (method rq)
            && bool_decide (static_name rq ∈ public (set_sent None w)))%bool;
    [reflexivity|].
  unfold read_routes in Hin.
  repeat (apply elem_of_cons in Hin as [Hin|Hin]); [| | | | |inversion Hin];
    injection Hin as Hm Hp;
    rewrite (find_route rq _ _ _ Hm Hp eq_refl);
    (rewrite run_plain_keeps; [reflexivity|intros; apply send_frame|intros req]).
  - unfold post_login. frame.
  - unfold get_apps, get_all. frame.
  - unfold get_edit_apps. frame.
  - unfold get_projects, get_all. frame.
  - unfold get_edit_projects. frame.
Qed.

Lemma stack_env (l : Layer) (rq : Request) (req : Req) (w : World) :
  In l stack -> env (snd (before l rq req w)) = env w.
Proof.
  intros Hin. cbn in Hin.
  assert (Hone : forall left parts (k : list File -> Req),
             env (snd ((stored <- receive left parts [] ;; ret (k stored)) w))
             = env w).
  { intros left parts k. unfold bind.
    pose proof (receive_frame parts left [] w) as Hf. cbn zeta in Hf.
    destruct (receive left parts [] w) as [[fs|e] w1]; cbn in *;
      exact (proj1 Hf). }
  assert (Hsingle : env (snd (uploadImageOnly rq req w)) = env w).
  { unfold uploadImageOnly. destruct (payload rq); [reflexivity..|].
    apply (Hone _ _ (fun stored => _)). }
  assert (Hfields : env (snd (upload rq req w)) = env w).
  { unfold upload. destruct (payload rq); [reflexivity..|].
    apply (Hone _ _ (fun stored => _)). }
  repeat (destruct Hin as [<-|Hin]); [..|destruct Hin]; cbn [before];
    try reflexivity; try assumption.
  unfold checkImageType. destruct (is_string _); [reflexivity|exact Hsingle].
Qed.

(** With no connection to lease, a handler that uses the database answers
    500 before it looks at the request. *)
Lemma handler_down (l : Layer) (req : Req) (w : World) :
  In l stack -> route l <> "/api/send-mail" -> route l <> "/" ->
  reachable (env w) = false -> sent w = None ->
  exists r, handler l req w = (Ok tt, set_sent (Some r) w) /\ status r = 500.
Proof.
  intros Hin Hm Hroot Hr Hs. cbn in Hin.
  repeat (destruct Hin as [<-|Hin]); [..|destruct Hin]; cbn [handler route] in *;
    try contradiction;
    unfold post_login, post_apps, post_edit_apps, get_apps, get_projects, get_all,
      get_edit_apps, post_projects, post_edit_projects, get_edit_projects,
      get_projects_delete, try_catch, bind, getConnection;
    rewrite Hr; respond Hs; eexists; split; reflexivity.
Qed.

Lemma layer_down (l : Layer) (rq : Request) (w : World) :
  In l stack -> route l <> "/api/send-mail" -> route l <> "/" ->
  reachable (env w) = false -> sent w = None ->
  (exists r, sent (snd (run_layer l rq w)) = Some r /\ status r = 500)
  /\ tables (snd (run_layer l rq w)) = tables w
  /\ statements (snd (run_layer l rq w)) = statements w.
Proof.
  intros Hin Hm Hroot Hr Hs. unfold run_layer.
  destruct (stack_frames l Hin rq (incoming rq) w) as (Ht & Hst & Hsent).
  pose proof (stack_env l rq (incoming rq) w Hin) as Henv.
  destruct (before l rq (incoming rq) w) as [[req|e] w1]; cbn [snd] in *.
  - destruct (handler_down l req w1 Hin Hm Hroot) as (r & -> & H500);
      [congruence|congruence|].
    cbn. split; [eauto|auto].
  - unfold global_error_handler, send. rewrite Hsent, Hs. cbn.
    split; [eexists; split; reflexivity|auto].
Qed.

(** X9.  When the pool has no connection to give, every route that uses
    the database answers 500, whatever the request holds: the connection
    is asked for before the fields are validated or the table name is
    looked at.  No statement is sent. *)
Theorem database_down_answers_500 (rq : Request) (w : World) :
  (method rq, pathname rq) ∈ database_routes ->
  (method rq = GET -> static_name rq ∉ public w) ->
  reachable (env w) = false ->
  (exists r, response rq w = Some r /\ status r = 500)
  /\ tables (serve rq w) = tables w
  /\ statements (serve rq w) = statements w.
Proof.
  intros Hin Hs Hr. unfold response, serve. unfold database_routes in Hin.
  repeat (apply elem_of_cons in Hin as [Hin|Hin]); [..|inversion Hin];
    injection Hin as Hm Hp;
    pose proof (find_route rq _ _ _ Hm Hp eq_refl) as Hf;
    first [ rewrite (app_post rq _ _ Hm Hf)
          | rewrite (app_get rq (set_sent None w) _ Hm (Hs Hm) Hf) ];
    refine (layer_down _ rq (set_sent None w) _ _ _ Hr eq_refl);
    first [ discriminate | (cbn; tauto) ].
Qed.

(** *** The contact form, path by path *)

Lemma app_send_mail (rq : Request) (w : World) :
  method rq = POST -> pathname rq = "/api/send-mail" ->
  serve rq w = snd (post_send_mail (incoming rq) (set_sent None w))
  \/ exists e w', post_send_mail (incoming rq) (set_sent None w) = (Throw e, w').
Proof.
  intros Hm Hp. unfold serve.
  rewrite (app_post rq _ _ Hm (find_route rq POST _ _ Hm Hp eq_refl)),
    run_layer_plain.
  destruct (post_send_mail (incoming rq) (set_sent None w)) as [[[]|e] w'];
    [left; reflexivity|right; eauto].
Qed.

Lemma valid_form_issues (b : gmap string prim) (name contact message : string) :
  valid_form b name contact message ->
  issues formSchema (fun k => b !! k) = [].
Proof.
  intros (Hn & Hnn & Hc & Hnc & He & Hm & Hnm).
  unfold issues, formSchema. cbn [flat_map fst snd]. rewrite Hn, Hc, Hm.
  cbn [parse_field run_check flat_map map app]. rewrite He.
  destruct (String.eqb_spec name ""); [contradiction|].
  destruct (String.eqb_spec contact ""); [contradiction|].
  destruct (String.eqb_spec message ""); [contradiction|]. reflexivity.
Qed.

(** What a valid form is answered, and the mail that goes out, by the
    state of the template and of the transport. *)
Lemma valid_form_run (req : Req) (w : World) (name contact message : string) :
  is_array req = false ->
  valid_form (body req) name contact message -> sent w = None ->
  exists w',
    post_send_mail req w = (Ok tt, w')
    /\ match mail_template (env w), smtp (env w) with
       | Some _, Delivered =>
           sent w' = Some mail_sent
           /\ outbox w' = (outbox w ++ [thank_you contact])%list
       | Some _, Refused r =>
           sent w' = Some (if String.eqb r "" then unexpected_error
                           else mail_service_error)
           /\ outbox w' = outbox w
       | _, _ => sent w' = Some unexpected_error /\ outbox w' = outbox w
       end.
Proof.
  intros Hobj Hv Hs. pose proof (valid_form_issues _ _ _ _ Hv) as Hi.
  destruct Hv as (_ & _ & Hc & _).
  unfold post_send_mail. rewrite (parse_body_object _ _ Hobj).
  unfold try_catch, bind, parse, readFile, sendMail.
  rewrite Hi.
  cbn [ret map fst snd formSchema prop String.eqb Ascii.eqb Bool.eqb].
  rewrite Hc. cbn [to_String].
  destruct (mail_template (env w)) as [tpl|].
  - destruct (smtp (env w)) as [|r|].
    + respond Hs. eexists. split; [reflexivity|]. split; reflexivity.
    + unfold catch_block, has_response. destruct (String.eqb r ""); respond Hs;
        (eexists; split; [reflexivity|]; split; reflexivity).
    + respond Hs. eexists. split; [reflexivity|]. split; reflexivity.
  - respond Hs. eexists. split; [reflexivity|]. split; reflexivity.
Qed.

Lemma send_mail_response (rq : Request) (w : World) (w' : World) :
  method rq = POST -> pathname rq = "/api/send-mail" ->
  post_send_mail (incoming rq) (set_sent None w) = (Ok tt, w') ->
  serve rq w = w'.
Proof.
  intros Hm Hp Hrun. destruct (app_send_mail rq w Hm Hp) as [->|(e & w2 & H)].
  - rewrite Hrun. reflexivity.
  - congruence.
Qed.

(** X10.  A valid contact form, with the template readable and the
    transport delivering: exactly one mail is handed over, addressed to
    [contact] with the subject [Thank you for your message!], and the
    answer is 200 [Email sent successfully!]. *)
Theorem send_mail_delivers_one_mail (rq : Request) (w : World)
    (name contact message tpl : string) :
  method rq = POST -> pathname rq = "/api/send-mail" ->
  valid_form (body (incoming rq)) name contact message ->
  mail_template (env w) = Some tpl -> smtp (env w) = Delivered ->
  response rq w = Some mail_sent
  /\ outbox (serve rq w) = (outbox w ++ [thank_you contact])%list.
Proof.
  intros Hm Hp Hv Ht Hd.
  destruct (incoming_body rq _ _ (proj1 Hv)) as [Hobj _].
  destruct (valid_form_run (incoming rq) (set_sent None w) _ _ _ Hobj Hv eq_refl)
    as (w' & Hrun & Hx).
  unfold response. rewrite (send_mail_response rq w w' Hm Hp Hrun).
  cbn [env set_sent] in Hx. rewrite Ht, Hd in Hx. exact Hx.
Qed.

(** X11.  A valid contact form that cannot be served sends no mail and is
    answered 500: [Failed to send email due to an external service error]
    when the transport refuses with a response text, [An unexpected error
    occurred] when the template cannot be read or the transport fails
    without one. *)
Theorem send_mail_failures (rq : Request) (w : World)
    (name contact message : string) :
  method rq = POST -> pathname rq = "/api/send-mail" ->
  valid_form (body (incoming rq)) name contact message ->
  (mail_template (env w) = None \/ smtp (env w) <> Delivered) ->
  outbox (serve rq w) = outbox w
  /\ response rq w
     = Some (match mail_template (env w), smtp (env w) with
             | Some _, Refused r =>
                 if String.eqb r "" then unexpected_error else mail_service_error
             | _, _ => unexpected_error
             end).
Proof.
  intros Hm Hp Hv Hfail.
  destruct (incoming_body rq _ _ (proj1 Hv)) as [Hobj _].
  destruct (valid_form_run (incoming rq) (set_sent None w) _ _ _ Hobj Hv eq_refl)
    as (w' & Hrun & Hx).
  unfold response. rewrite (send_mail_response rq w w' Hm Hp Hrun).
  cbn [env set_sent] in Hx.
  destruct (mail_template (env w)) as [tpl|]; [|destruct Hx; auto].
  destruct (smtp (env w)) as [|r|]; [|destruct Hx; auto..].
  destruct Hfail as [Hfail|Hfail]; [discriminate|contradiction].
Qed.

Lemma unfilled_issue (b : gmap string prim) (k msg : string)
    (more : list Check) :
  unfilled b k ->
  exists i, i ∈ parse_field k (zstring (min1 msg :: more)) (b !! k)
            /\ path i = Some k.
Proof.
  intros Hu. unfold parse_field.
  destruct (b !! k) as [[| | |s]|] eqn:Hk;
    try (eexists; split; [apply list_elem_of_here|reflexivity]).
  rewrite (Hu s Hk). cbn [flat_map run_check String.eqb app map].
  eexists; split; [apply list_elem_of_here|reflexivity].
Qed.

Lemma parse_field_path (k : string) (t : ZType) (v : option prim) (i : Issue) :
  i ∈ parse_field k t v -> path i = Some k.
Proof.
  unfold parse_field.
  destruct t as [cs| |vs]; destruct v as [[| | |s]|];
    try (intros ->%list_elem_of_singleton; reflexivity);
    try (intros H; inversion H; fail).
  - intros (m & -> & _)%list_elem_of_fmap. reflexivity.
  - destruct (existsb _ vs); [intros H; inversion H|].
    intros ->%list_elem_of_singleton; reflexivity.
Qed.

(** X12.  [POST /api/send-mail] with a body that is not a valid form.
    When the body is a JSON object, or no JSON at all, and a field is
    missing, not a string or empty, the answer is 400 with an entry for
    every such field, not only the first, and every entry names one of
    the three fields.  When the body is a JSON array the answer is 400
    with the single entry zod gives for a value that is not an object,
    which names no field.  In both cases no mail is sent.  A body sent as
    JSON that the body parser cannot read never reaches the route: the
    error middleware answers 500 [Internal Server Error] and no mail is
    sent. *)
Theorem send_mail_reports_every_field (rq : Request) (w : World) :
  method rq = POST -> pathname rq = "/api/send-mail" ->
  (forall k0,
     (forall items, payload rq <> JsonArray items) ->
     k0 ∈ form_fields -> unfilled (body (incoming rq)) k0 ->
     exists errs,
       response rq w = Some (bad_request errs)
       /\ (forall k, k ∈ form_fields -> unfilled (body (incoming rq)) k ->
                     exists i, i ∈ errs /\ path i = Some k)
       /\ (forall i, i ∈ errs -> exists k, path i = Some k /\ k ∈ form_fields)
       /\ outbox (serve rq w) = outbox w)
  /\ (forall items,
        payload rq = JsonArray items ->
        response rq w = Some (bad_request [not_an_object])
        /\ path not_an_object = None
        /\ outbox (serve rq w) = outbox w)
  /\ sent (answer Unreadable w) = Some internal_server_error
  /\ outbox (answer Unreadable w) = outbox w.
Proof.
  intros Hm Hp. split_and!; [| |reflexivity..].
  2:{ intros items Hpay.
      assert (Hrun : post_send_mail (incoming rq) (set_sent None w)
                     = (Ok tt, set_sent (Some (bad_request [not_an_object])) w)).
      { unfold post_send_mail. rewrite parse_body_array;
          [reflexivity|unfold incoming; rewrite Hpay; reflexivity]. }
      unfold response. rewrite (send_mail_response rq w _ Hm Hp Hrun).
      split_and!; reflexivity. }
  intros k0 Hobj Hk0 Hu0.
  assert (Hobj' : is_array (incoming rq) = false).
  { unfold incoming. destruct (payload rq) as [?|items|? ?]; cbn;
      [reflexivity| |reflexivity]. destruct (Hobj items eq_refl). }
  clear Hobj.
  set (b := body (incoming rq)) in *.
  assert (Hall : forall k, k ∈ form_fields -> unfilled b k ->
                           exists i, i ∈ issues formSchema (fun k => b !! k)
                                     /\ path i = Some k).
  { intros k Hk Hu. unfold issues, formSchema. cbn [flat_map fst snd].
    unfold form_fields in Hk.
    repeat (apply elem_of_cons in Hk as [->|Hk]); [| | |inversion Hk].
    - destruct (unfilled_issue b _ "Full Name is required" [] Hu)
        as (i & Hi & Hpath).
      exists i; (split; [|exact Hpath]); rewrite !elem_of_app; eauto.
    - destruct (unfilled_issue b _ "Email Address or Phone Number is required"
                  [email "Invalid email format"] Hu) as (i & Hi & Hpath).
      exists i; (split; [|exact Hpath]); rewrite !elem_of_app; eauto.
    - destruct (unfilled_issue b _ "Message is required" [] Hu)
        as (i & Hi & Hpath).
      exists i; (split; [|exact Hpath]); rewrite !elem_of_app; eauto. }
  assert (Hpaths : forall i, i ∈ issues formSchema (fun k => b !! k) ->
                             exists k, path i = Some k /\ k ∈ form_fields).
  { intros i. unfold issues, formSchema. cbn [flat_map fst snd].
    rewrite !elem_of_app. unfold form_fields.
    intros [H|[H|[H|H]]]; [apply parse_field_path in H..|inversion H];
      (eexists; split; [exact H|]); repeat constructor. }
  destruct (Hall k0 Hk0 Hu0) as (i0 & Hi0 & _).
  destruct (issues formSchema (fun k => b !! k)) as [|i errs] eqn:Hi;
    [inversion Hi0|].
  assert (Hrun : post_send_mail (incoming rq) (set_sent None w)
                 = (Ok tt, set_sent (Some (bad_request (i :: errs))) w)).
  { unfold post_send_mail. rewrite (parse_body_object _ _ Hobj').
    unfold try_catch, bind, parse. fold b. rewrite Hi. reflexivity. }
  exists (i :: errs). unfold response.
  rewrite (send_mail_response rq w _ Hm Hp Hrun).
  split_and!; [reflexivity|exact Hall|exact Hpaths|reflexivity].
Qed.

(** *** Uploads that multer gives up on *)

Lemma receive_unexpected (parts : list Upload) :
  forall left stored w,
    (exists file, file ∈ parts /\ originalname file <> ""
                  /\ left !! fieldname file = None) ->
    exists e w', receive left parts stored w = (Throw e, w').
Proof.
  induction parts as [|file rest IH]; intros left stored w (bad & Hin & Hn & Hl).
  - inversion Hin.
  - cbn [receive].
    destruct (String.eqb_spec (originalname file) "") as [He|He].
    + apply IH. exists bad. split_and!; try assumption.
      apply elem_of_cons in Hin as [->|Hin]; [contradiction|exact Hin].
    + destruct (left !! fieldname file) as [[|n]|] eqn:Hf; [cbn; eauto| |cbn; eauto].
      destruct (fileFilter file); [|cbn; eauto].
      unfold bind, store. apply IH. exists bad.
      apply elem_of_cons in Hin as [->|Hin]; [congruence|].
      split_and!; try assumption.
      rewrite lookup_insert_ne; [exact Hl|]. intros Heq. congruence.
Qed.

(** What an aborted upload leaves under [public/]: nothing it wrote. *)
Lemma receive_abort_public (parts : list Upload) :
  forall left stored w e w',
    receive left parts stored w = (Throw e, w') ->
    public w' ⊆ public w ∖ list_to_set (map filename stored).
Proof.
  induction parts as [|file rest IH]; intros left stored w e w'; cbn [receive].
  - discriminate.
  - destruct (String.eqb (originalname file) ""); [apply IH|].
    destruct (left !! fieldname file) as [[|n]|];
      try (unfold abort; intros [= _ <-]; reflexivity).
    destruct (fileFilter file);
      [|unfold abort; intros [= _ <-]; reflexivity].
    unfold bind, store. intros Hrun. apply IH in Hrun. cbn in Hrun.
    rewrite map_app, list_to_set_app_L in Hrun. cbn in Hrun. set_solver.
Qed.

(** An upload that multer gives up on, on any of the four upload routes:
    the answer is 500, the database is untouched and no file of the
    request is left behind. *)
Lemma upload_abort (rq : Request) (w : World) (fields : gmap string string)
    (parts : list Upload) :
  method rq = POST -> pathname rq ∈ upload_routes ->
  payload rq = MultipartBody fields parts ->
  (forall left, (left = {[ "image" := 1%nat ]} /\ allowed_fields (pathname rq) = ["image"])
                \/ (left = {[ "image" := 1%nat; "pdfFile" := 1%nat ]}
                    /\ allowed_fields (pathname rq) = ["image"; "pdfFile"]) ->
                exists e w1, receive left parts [] (set_sent None w) = (Throw e, w1)) ->
  response rq w = Some internal_server_error
  /\ tables (serve rq w) = tables w /\ statements (serve rq w) = statements w
  /\ public (serve rq w) ⊆ public w.
Proof.
  intros Hm Hp Hpl Hthrows.
  assert (Hmw : forall left (k : list File -> M Req),
             (left = {[ "image" := 1%nat ]} /\ allowed_fields (pathname rq) = ["image"])
             \/ (left = {[ "image" := 1%nat; "pdfFile" := 1%nat ]}
                 /\ allowed_fields (pathname rq) = ["image"; "pdfFile"]) ->
             exists e w1, (stored <- receive left parts [] ;; k stored) (set_sent None w)
                          = (Throw e, w1)
                          /\ sent w1 = None /\ tables w1 = tables w
                          /\ statements w1 = statements w /\ public w1 ⊆ public w).
  { intros left k Hleft. destruct (Hthrows left Hleft) as (e & w1 & Hr).
    pose proof (receive_frame parts left [] (set_sent None w)) as Hf.
    pose proof (receive_abort_public parts left [] _ _ _ Hr) as Hpub.
    cbn zeta in Hf. rewrite Hr in Hf. cbn in Hf, Hpub.
    destruct Hf as (_ & Ht & Hs & _ & Hsent & _).
    exists e, w1. unfold bind. rewrite Hr. split_and!; auto. set_solver. }
  unfold response, serve.
  assert (Hgo : forall l, find (serves rq) stack = Some l ->
             (exists e w1, before l rq (incoming rq) (set_sent None w) = (Throw e, w1)
                           /\ sent w1 = None /\ tables w1 = tables w
                           /\ statements w1 = statements w /\ public w1 ⊆ public w) ->
             sent (snd (app rq (set_sent None w))) = Some internal_server_error
             /\ tables (snd (app rq (set_sent None w))) = tables w
             /\ statements (snd (app rq (set_sent None w))) = statements w
             /\ public (snd (app rq (set_sent None w))) ⊆ public w).
  { intros l Hl (e & w1 & Hb & Hs1 & Ht1 & Hst1 & Hpub).
    rewrite (app_post rq _ l Hm Hl). unfold run_layer. rewrite Hb.
    unfold global_error_handler, send. rewrite Hs1. cbn. auto. }
  unfold upload_routes in Hp.
  repeat (apply elem_of_cons in Hp as [Hp|Hp]); [| | | |inversion Hp];
    apply (Hgo _ (find_route rq POST _ _ Hm Hp eq_refl)); cbn [before];
    unfold handleUpload, checkImageType, incoming, uploadImageOnly, upload;
    rewrite Hpl; cbn [body]; try rewrite lookup_empty; cbn [is_string];
    apply Hmw; rewrite Hp; auto.
Qed.

(** X13.  A file part in a field the route has not declared ([image] for
    the app routes, [image] and [pdfFile] for the project routes) makes
    multer give up: the answer is 500 [Internal Server Error], nothing is
    written to the database and no file of the request stays under
    [public/]. *)
Theorem unexpected_file_is_refused (rq : Request) (w : World)
    (fields : gmap string string) (parts : list Upload) :
  method rq = POST -> pathname rq ∈ upload_routes ->
  payload rq = MultipartBody fields parts ->
  (exists file, file ∈ parts /\ unexpected (pathname rq) file) ->
  response rq w = Some internal_server_error
  /\ tables (serve rq w) = tables w /\ statements (serve rq w) = statements w
  /\ public (serve rq w) ⊆ public w.
Proof.
  intros Hm Hp Hpl (bad & Hin & Hn & Hf).
  apply (upload_abort rq w fields parts Hm Hp Hpl).
  intros left Hleft. apply receive_unexpected. exists bad. split_and!; auto.
  destruct Hleft as [[-> Ha]|[-> Ha]]; rewrite Ha in Hf.
  - apply lookup_singleton_ne. intros Heq. apply Hf. rewrite <- Heq.
    repeat constructor.
  - rewrite lookup_insert_ne; [apply lookup_singleton_ne|];
      intros Heq; apply Hf; rewrite <- Heq; repeat constructor.
Qed.

(** X14.  When [fileFilter] turns a named part down, what multer had
    already written for the request is deleted again: no file of the
    request stays under [public/], the database is untouched and the
    answer is 500 [Internal Server Error]. *)
Theorem rejected_upload_leaves_no_file (rq : Request) (w : World)
    (fields : gmap string string) (parts : list Upload) :
  method rq = POST -> pathname rq ∈ upload_routes ->
  payload rq = MultipartBody fields parts ->
  (exists file, file ∈ parts /\ turned_down file) ->
  public (serve rq w) ⊆ public w
  /\ response rq w = Some internal_server_error
  /\ tables (serve rq w) = tables w /\ statements (serve rq w) = statements w.
Proof.
  intros Hm Hp Hpl Hbad.
  destruct (upload_abort rq w fields parts Hm Hp Hpl) as (? & ? & ? & ?); [|auto].
  intros left _. apply receive_rejects, Hbad.
Qed.

(** *** Stored names *)

Lemma plain_split (s x : string) :
  plain s = true ->
  before_underscore (s ++ String "_" x) = s
  /\ after_underscore (s ++ String "_" x) = x.
Proof.
  induction s as [|c s IH]; [intros _; split; reflexivity|].
  simpl. destruct (Ascii.eqb c "_"); [discriminate|]. simpl. intros H.
  destruct (IH H) as [H1 H2]. rewrite H1, H2. auto.
Qed.

Lemma plain_uint (d : Decimal.uint) : plain (NilEmpty.string_of_uint d) = true.
Proof. induction d; cbn; auto. Qed.

Lemma plain_decimal (n : Z) : plain (decimal n) = true.
Proof.
  unfold decimal, NilZero.string_of_int, NilZero.string_of_uint.
  destruct (Z.to_int n) as [d|d]; destruct d; cbn; try reflexivity;
    apply plain_uint.
Qed.

Lemma decimal_inj (a b : Z) : decimal a = decimal b -> a = b.
Proof.
  unfold decimal. intros H. apply DecimalZ.to_int_inj.
  assert (Hn : forall z, Z.to_int z <> Decimal.Pos Decimal.Nil
                         /\ Z.to_int z <> Decimal.Neg Decimal.Nil).
  { intros [|p|p]; cbn; split; try discriminate;
      intros [= Hp]; exact (DecimalPos.Unsigned.to_uint_nonnil p Hp). }
  pose proof (NilZero.isi (Z.to_int a) (proj1 (Hn a)) (proj2 (Hn a))) as Ha.
  pose proof (NilZero.isi (Z.to_int b) (proj1 (Hn b)) (proj2 (Hn b))) as Hb.
  rewrite H in Ha. congruence.
Qed.

(** X15.  The name [storage] gives a file tells the moment and the
    original name apart: two uploads get the same stored name, and so the
    same file under [public/], only if they arrive in the same millisecond
    under the same original name. *)
Theorem stored_names_collide_only_when_equal (u v : Upload) :
  storage_filename u = storage_filename v ->
  arrival u = arrival v /\ originalname u = originalname v.
Proof.
  unfold storage_filename.
  change (decimal (arrival u) ++ String "_" (originalname u)
          = decimal (arrival v) ++ String "_" (originalname v) ->
          arrival u = arrival v /\ originalname u = originalname v).
  intros H.
  destruct (plain_split (decimal (arrival u)) (originalname u)
              (plain_decimal _)) as [Hbu Hau].
  destruct (plain_split (decimal (arrival v)) (originalname v)
              (plain_decimal _)) as [Hbv Hav].
  rewrite H in Hbu, Hau. split; [apply decimal_inj|]; congruence.
Qed.

(** *** Connections, request by request *)

Lemma balanced_release_after {A} (m : M A) :
  balanced m ->
  forall w, leased (snd (try_finally m release w)) = Nat.pred (leased w).
Proof.
  intros Hm w. unfold try_finally, release. specialize (Hm w).
  destruct (m w) as [r w1]. cbn in *. rewrite Hm. reflexivity.
Qed.

Lemma balanced_slot_text (s : Slot) :
  balanced (filename_text s) /\ balanced (reference_of s).
Proof. split; intros w; destruct s as [f|[[| | |]|]]; reflexivity. Qed.

(** With [req.files] defined the two project writers keep the discipline
    as well: reading the two slots cannot throw. *)
Lemma project_writers_release (req : Req) :
  is_Some (files req) ->
  balanced (post_projects req) /\ balanced (post_edit_projects req).
Proof.
  intros [fs Hfs].
  assert (Hslot : forall k v, exists s, files_slot req k v = ret s).
  { intros k v. unfold files_slot. rewrite Hfs. destruct (fs !! k); eauto. }
  split.
  - unfold post_projects. apply balanced_try_catch; [|intros e; auto with balanced].
    intros w. unfold bind at 1 2 3, getConnection.
    destruct (reachable (env w)); [|reflexivity].
    destruct (Hslot "image" (Some (PStr ""))) as [s1 ->].
    destruct (Hslot "pdfFile" (Some (PStr ""))) as [s2 ->]. unfold ret at 1 2.
    rewrite balanced_release_after; [reflexivity|].
    unfold query_with_callback. balance; apply balanced_slot_text.
  - unfold post_edit_projects. apply balanced_try_catch; [|intros e; auto with balanced].
    intros w. unfold bind at 1 2 3, getConnection.
    destruct (reachable (env w)); [|reflexivity].
    destruct (Hslot "image" (or_empty (body req !! "image"))) as [s1 ->].
    destruct (Hslot "pdfFile" (or_empty (body req !! "pdfFile"))) as [s2 ->].
    unfold ret at 1 2.
    rewrite balanced_release_after; [reflexivity|].
    unfold query_with_callback. balance; apply balanced_slot_text.
Qed.

Lemma stack_leased (l : Layer) (rq : Request) (req : Req) (w : World) :
  In l stack -> leased (snd (before l rq req w)) = leased w.
Proof.
  intros Hin. cbn in Hin.
  assert (Hone : forall left parts (k : list File -> Req),
             leased (snd ((stored <- receive left parts [] ;; ret (k stored)) w))
             = leased w).
  { intros left parts k. unfold bind.
    pose proof (receive_frame parts left [] w) as Hf. cbn zeta in Hf.
    destruct (receive left parts [] w) as [[fs|e] w1]; cbn in *;
      exact (proj1 (proj2 (proj2 (proj2 Hf)))). }
  assert (Hsingle : leased (snd (uploadImageOnly rq req w)) = leased w).
  { unfold uploadImageOnly. destruct (payload rq); [reflexivity..|].
    apply (Hone _ _ (fun stored => _)). }
  assert (Hfields : leased (snd (upload rq req w)) = leased w).
  { unfold upload. destruct (payload rq); [reflexivity..|].
    apply (Hone _ _ (fun stored => _)). }
  repeat (destruct Hin as [<-|Hin]); [..|destruct Hin]; cbn [before];
    try reflexivity; try assumption.
  unfold checkImageType. destruct (is_string _); [reflexivity|exact Hsingle].
Qed.

(** What [upload] hands on for a multipart request has [req.files]. *)
Lemma upload_defines_files (rq : Request) (req req' : Req) (w w1 : World) :
  multipart rq -> upload rq req w = (Ok req', w1) -> is_Some (files req').
Proof.
  intros (fields & parts & Hp). unfold upload. rewrite Hp. unfold bind.
  destruct (receive _ parts [] w) as [[fs|e] w2]; [|discriminate].
  intros [= <- _]. cbn. eauto.
Qed.

Lemma balanced_layer (l : Layer) (rq : Request) (w : World) :
  In l stack ->
  (forall req w1, before l rq (incoming rq) w = (Ok req, w1) ->
                  balanced (handler l req)) ->
  leased (snd (run_layer l rq w)) = leased w.
Proof.
  intros Hin Hh. unfold run_layer.
  pose proof (stack_leased l rq (incoming rq) w Hin) as Hb.
  destruct (before l rq (incoming rq) w) as [[req|e] w1] eqn:Hbefore; cbn [snd] in Hb.
  - specialize (Hh req w1 eq_refl w1).
    destruct (handler l req w1) as [[[]|e] w2]; cbn [snd] in *; congruence.
  - unfold global_error_handler. rewrite balanced_send. exact Hb.
Qed.

(** X16.  Every request leaves as many connections leased as it found,
    with one exception: a [POST] that is not a multipart form and whose
    path reaches [/api/projects] or [/api/edit/projects], in any letter
    case and with or without a trailing slash. *)
Theorem connections_are_returned (rq : Request) (w : World) :
  (method rq = POST ->
   (exists r, r ∈ project_writers /\ reaches r (pathname rq) = true) ->
   multipart rq) ->
  leased (serve rq w) = leased w.
Proof.
  intros Hmp. unfold serve, app.
  destruct (same_method GET (method rq) && _)%bool; [reflexivity|].
  destruct (find (serves rq) stack) as [l|] eqn:Hf.
  - apply find_some in Hf as [Hin Hserves].
    rewrite (balanced_layer l rq _ Hin); [reflexivity|].
    unfold serves in Hserves. apply andb_prop in Hserves as [Hverb Hroute].
    assert (Hpost : verb l = POST -> method rq = POST).
    { intros Hv. rewrite Hv in Hverb. destruct (method rq); [discriminate|reflexivity|discriminate]. }
    clear Hverb. cbn in Hin.
    repeat (destruct Hin as [<-|Hin]); [..|destruct Hin];
      cbn [before handler verb route] in *; intros req w1 Hb;
      try (apply (handlers_release req)).
    + unfold post_send_mail. balance.
      * intros w0. unfold readFile. destruct (mail_template (env w0)); reflexivity.
      * intros w0. unfold sendMail. destruct (smtp (env w0)); reflexivity.
    + apply project_writers_release. eapply upload_defines_files; [|exact Hb].
      apply Hmp; [auto|]. eexists. split; [|exact Hroute].
      unfold project_writers. repeat constructor.
    + apply project_writers_release. eapply upload_defines_files; [|exact Hb].
      apply Hmp; [auto|]. eexists. split; [|exact Hroute].
      unfold project_writers. repeat constructor.
    + unfold get_root, unbound. balance.
  - unfold not_found. rewrite balanced_send. reflexivity.
Qed.

(** X17.  [POST /api/edit/projects] has the defect of [POST /api/projects]:
    [req.files] is read between leasing the connection and the [try]
    whose [finally] releases it.  A request that is not multipart is
    answered 500 [An unexpected error occurred], no statement is sent and
    the connection stays leased. *)
Theorem edit_project_without_files_keeps_connection
    (rq : Request) (w : World) (b : gmap string prim) :
  method rq = POST -> pathname rq = "/api/edit/projects" ->
  payload rq = JsonBody b -> reachable (env w) = true ->
  response rq w = Some unexpected_error
  /\ leased (serve rq w) = S (leased w)
  /\ statements (serve rq w) = statements w
  /\ tables (serve rq w) = tables w.
Proof.
  intros Hm Hp Hb Hr. unfold response, serve.
  rewrite (app_post rq _ _ Hm (find_route rq POST _ _ Hm Hp eq_refl)).
  unfold run_layer. cbn [before handler]. unfold handleUpload, upload. rewrite Hb.
  unfold ret, post_edit_projects, try_catch, bind, getConnection.
  cbn [env set_sent]. rewrite Hr.
  unfold files_slot, incoming. cbn [files]. unfold throw.
  cbn. auto.
Qed.

(** *** Uploads and what follows them *)

(** No step of a handler or of the middleware changes the environment. *)
Lemma primitives_keep_env :
  (forall code doc, keeps env (send code doc))
  /\ keeps env getConnection /\ keeps env release
  /\ (forall st, keeps env (query st))
  /\ (forall to subject, keeps env (sendMail to subject)).
Proof.
  split_and!.
  - intros code doc w. unfold send. destruct (sent w); reflexivity.
  - intros w. unfold getConnection. destruct (reachable (env w)); reflexivity.
  - intros w. reflexivity.
  - intros st w. unfold query. destruct (execute st (tables w)) as [[? ?]|]; reflexivity.
  - intros to subject w. unfold sendMail. destruct (smtp (env w)); reflexivity.
Qed.

Ltac frame_env :=
  repeat first
    [ apply keeps_ret | apply keeps_throw
    | apply primitives_keep_env
    | apply (pure_steps_frame env)
    | apply keeps_try_catch; [|intros ?]
    | apply keeps_try_finally
    | apply keeps_bind; [|intros ?]
    | match goal with
      | |- keeps _ (catch_block _ ?e) =>
          unfold catch_block; destruct e; try destruct (has_response _)
      | |- keeps _ (if ?c then _ else _) => destruct c
      | |- keeps _ (match ?x with _ => _ end) => destruct x
      end ].

Lemma handlers_keep_env (l : Layer) (req : Req) :
  In l stack -> keeps env (handler l req).
Proof.
  intros Hin. cbn in Hin.
  repeat (destruct Hin as [<-|Hin]); [..|destruct Hin]; cbn [handler];
    unfold post_send_mail, post_login, post_apps, post_edit_apps, get_apps,
      get_projects, get_all, get_edit_apps, post_projects, post_edit_projects,
      get_edit_projects, get_projects_delete, get_root, query_with_callback;
    frame_env.
Qed.

Lemma serve_env (rq : Request) (w : World) : env (serve rq w) = env w.
Proof.
  unfold serve, app.
  destruct (same_method GET (method rq) && _)%bool; [reflexivity|].
  destruct (find (serves rq) stack) as [l|] eqn:Hf.
  - apply find_some in Hf as [Hin _]. unfold run_layer.
    pose proof (stack_env l rq (incoming rq) (set_sent None w) Hin) as Hb.
    change (env (set_sent None w)) with (env w) in Hb.
    destruct (before l rq (incoming rq) (set_sent None w)) as [[req|e] w1];
      cbn [snd] in Hb.
    + pose proof (handlers_keep_env l req Hin w1) as Hk.
      destruct (handler l req w1) as [[[]|e] w2]; cbn [snd] in *; congruence.
    + unfold global_error_handler. rewrite (proj1 primitives_keep_env). exact Hb.
  - unfold not_found. rewrite (proj1 primitives_keep_env). reflexivity.
Qed.

(** X18.  In [POST /api/apps] the image is on disk before the handler
    runs and nothing takes it away again: with an accepted image the file
    is under [public/] after the request whatever the answer, and an
    answer other than 200 means the database is as it was, so the file
    belongs to no row. *)
Theorem accepted_upload_is_never_undone (rq : Request) (w : World)
    (fields : gmap string string) (u : Upload) :
  method rq = POST -> pathname rq = "/api/apps" ->
  payload rq = MultipartBody fields [u] -> fieldname u = "image" ->
  fileFilter u = true ->
  storage_filename u ∈ public (serve rq w)
  /\ (forall r, response rq w = Some r -> status r <> 200 ->
                tables (serve rq w) = tables w).
Proof.
  intros Hm Hp Hpl Hf Ha.
  destruct (create_app_paths rq w fields u Hm Hp Hpl Hf Ha) as (Hpub & _ & Hpath).
  cbn zeta in *. split.
  - rewrite Hpub. apply elem_of_union_l, elem_of_singleton. reflexivity.
  - intros r Hr Hne. unfold response in Hr.
    destruct Hpath as [_ _ Ht _|_ _ _ Ht _|_ _ _ Hx]; [exact Ht|exact Ht|].
    destruct (execute _ (tables w)) as [[res db']|]; destruct Hx as [Ht Hs];
      [|exact Ht].
    rewrite Hs in Hr. injection Hr as <-. contradiction Hne. reflexivity.
Qed.



Lemma stored_name_not_plain (u : Upload) : plain (storage_filename u) = false.
Proof.
  unfold storage_filename.
  induction (decimal (arrival u)) as [|c s IH]; [reflexivity|].
  simpl. simpl in IH. rewrite IH. apply andb_false_r.
Qed.

Lemma create_app_row (rq : Request) (w : World)
    (fields : gmap string string) (u : Upload) (t : string) (T : Table) :
  method rq = POST -> pathname rq = "/api/apps" ->
  payload rq = MultipartBody fields [u] -> fieldname u = "image" ->
  fileFilter u = true -> valid_app (PStr <$> fields) ->
  fields !! "table" = Some t -> tables w !! t = Some T ->
  has_columns T app_columns = true ->
  reachable (env w) = true ->
  exists row,
    tables (serve rq w)
    = <[t := {| next_id := next_id T + 1; columns := columns T;
                  rows := (rows T ++ [row])%list |}]> (tables w)
    /\ row !! "id" = Some (PNum (next_id T))
    /\ row !! "image" = Some (PStr (storage_filename u))
    /\ (forall k, k ∈ ["title"; "content"; "link"; "category"] ->
                  row !! k = PStr <$> fields !! k).
Proof.
  intros Hm Hp Hpl Hf Ha Hv Ht HT Hcols Hr.
  destruct (create_app_paths rq w fields u Hm Hp Hpl Hf Ha) as (Hpub & _ & Hpath).
  rewrite (valid_app_with_image rq fields u Hv) in Hpath.
  destruct Hpath as [Hr'|_ Hne|_ _ _ Hx]; [congruence|contradiction|].
  unfold insert_app, with_image in Hx. cbn [body] in Hx.
  rewrite lookup_fmap, Ht in Hx. cbn [fmap option_fmap option_map escapeId to_String] in Hx.
  unfold execute in Hx. rewrite HT in Hx. cbn [mbind option_bind] in Hx.
  unfold app_columns in Hcols. rewrite Hcols in Hx.
  destruct Hx as [Htab Hsent].
  destruct Hv as (ti & co & li & ca & Hti & _ & Hco & _ & Hli & _ & Hca & _).
  rewrite lookup_fmap in Hti, Hco, Hli, Hca.
  eexists. split; [exact Htab|].
  cbn [zip zip_with assign fold_left fst snd].
  split_and!.
  - rewrite lookup_insert_eq. reflexivity.
  - rewrite lookup_insert_ne by discriminate. rewrite lookup_insert_eq. reflexivity.
  - intros k Hk.
    repeat (apply elem_of_cons in Hk as [->|Hk]); [..|inversion Hk];
      rewrite !lookup_insert_ne by discriminate; rewrite lookup_insert_eq;
      unfold validated, apps_fields, literal;
      cbn [schema map fst snd prop String.eqb Ascii.eqb Bool.eqb body];
      rewrite lookup_fmap.
    + rewrite Hti. reflexivity.
    + rewrite Hco. reflexivity.
    + rewrite Hli. reflexivity.
    + rewrite Hca. reflexivity.
Qed.

(** X20.  What [POST /api/apps] creates, [GET /api/apps] lists: after a
    create request with valid fields and an accepted image, for a table
    that has the columns of an app, a listing of the same table returns
    the rows it had followed by the new row, whose [id] is the table's
    counter, whose [image] is the stored name and whose other columns are
    the fields sent. *)
Theorem created_app_is_listed (rq listing : Request) (w : World)
    (fields : gmap string string) (u : Upload) (t : string) (T : Table) :
  method rq = POST -> pathname rq = "/api/apps" ->
  payload rq = MultipartBody fields [u] -> fieldname u = "image" ->
  fileFilter u = true -> valid_app (PStr <$> fields) ->
  fields !! "table" = Some t -> t <> "" -> tables w !! t = Some T ->
  has_columns T app_columns = true ->
  reachable (env w) = true ->
  method listing = GET -> pathname listing = "/api/apps" ->
  params listing !! "db" = Some t -> "api/apps" ∉ public w ->
  exists row,
    response listing (serve rq w) = Some (listed (rows T ++ [row]))
    /\ row !! "id" = Some (PNum (next_id T))
    /\ row !! "image" = Some (PStr (storage_filename u))
    /\ (forall k, k ∈ ["title"; "content"; "link"; "category"] ->
                  row !! k = PStr <$> fields !! k).
Proof.
  intros Hm Hp Hpl Hf Ha Hv Ht Hnt HT Hcols Hr Hlm Hlp Hdb Hfree.
  destruct (create_app_row rq w fields u t T Hm Hp Hpl Hf Ha Hv Ht HT Hcols Hr)
    as (row & Htab & Hrow).
  destruct (create_app_paths rq w fields u Hm Hp Hpl Hf Ha) as (Hpub & _ & _).
  cbn zeta in Hpub.
  exists row. split; [|exact Hrow].
  assert (Hs : static_name listing ∉ public (serve rq w)).
  { unfold static_name. rewrite Hlp, Hpub. cbn.
    intros [Hin|Hin]%elem_of_union; [|contradiction].
    apply elem_of_singleton in Hin.
    pose proof (stored_name_not_plain u) as Hpl'. rewrite <- Hin in Hpl'.
    discriminate Hpl'. }
  assert (Hpath : read_path (serve rq w) (serve listing (serve rq w))
                    (negb (truthy (PStr <$> params listing !! "db")))
                    "Table name is required"
                    (SelectAll (escapeId (PStr <$> params listing !! "db")))).
  { apply (get_route_paths listing (serve rq w) _ _ _ _ _ Hlm Hlp Hs eq_refl).
    intros w0 Hs0. apply get_all_paths, Hs0. }
  destruct (truthy_given _ t Hdb Hnt) as [Htr Hid]. rewrite Htr, Hid in Hpath.
  assert (Hr' : reachable (env (serve rq w)) = true) by (rewrite serve_env; exact Hr).
  destruct (read_path_sent _ _ _ _ Hpath Hr') as [_ Hx].
  unfold execute in Hx. rewrite Htab, lookup_insert_eq in Hx.
  cbn [mbind option_bind rows] in Hx. destruct Hx as [_ Hx]. exact Hx.
Qed.

(** *** Requests no route takes *)



(** *** Editing an app *)

Lemma lookup_map {A B} (f : A -> B) (l : list A) (n : nat) :
  map f l !! n = f <$> l !! n.
Proof. revert n. induction l as [|a l IH]; intros [|n]; cbn; auto. Qed.

Lemma valid_edit_issues (rq : Request) (b : gmap string prim) (img i : string) :
  payload rq = JsonBody b -> valid_app b ->
  b !! "image" = Some (PStr img) -> img <> "" ->
  b !! "id" = Some (PStr i) -> i <> "" ->
  issues editSchema (edit_apps_fields (incoming rq)) = [].
Proof.
  intros Hb (t & c & l & cat & Ht & Hnt & Hc & Hnc & Hl & Hu & Hcat & Hin)
    Himg Hni Hid Hnid.
  unfold issues, editSchema, edit_apps_fields, literal, incoming. rewrite Hb.
  cbn [flat_map fst snd prop String.eqb Ascii.eqb Bool.eqb body file filename_or].
  rewrite Ht, Hc, Hl, Hcat, Himg, Hid.
  cbn [parse_field run_check flat_map map app]. rewrite Hu.
  destruct (String.eqb_spec t ""); [contradiction|].
  destruct (String.eqb_spec c ""); [contradiction|].
  destruct (String.eqb_spec img ""); [contradiction|].
  destruct (String.eqb_spec i ""); [contradiction|].
  destruct Hin as [-> | ->]; reflexivity.
Qed.

(** X22.  [POST /api/edit/apps] with valid fields and the image kept as a
    string, for a table that has the columns of an app, rewrites the rows
    of the named table whose id equals the one sent, and only those: a
    matching row takes the five values sent and keeps every other column,
    its id among them; the other rows, their order and the id counter stay
    as they were; the answer is 200. *)
Theorem edit_app_updates_matching_rows (rq : Request) (w : World)
    (b : gmap string prim) (img i t : string) (T : Table) :
  method rq = POST -> pathname rq = "/api/edit/apps" ->
  payload rq = JsonBody b -> valid_app b ->
  b !! "image" = Some (PStr img) -> img <> "" ->
  b !! "id" = Some (PStr i) -> i <> "" ->
  b !! "table" = Some (PStr t) -> tables w !! t = Some T ->
  has_columns T app_columns = true ->
  reachable (env w) = true ->
  exists T',
    tables (serve rq w) = <[t := T']> (tables w)
    /\ next_id T' = next_id T
    /\ length (rows T') = length (rows T)
    /\ (forall n r, rows T !! n = Some r ->
          exists r', rows T' !! n = Some r'
                     /\ if matches "id" (Some (PStr i)) r
                        then (forall k, k ∈ app_columns -> r' !! k = b !! k)
                             /\ (forall k, k ∉ app_columns -> r' !! k = r !! k)
                        else r' = r)
    /\ response rq w
       = Some (answered 200 (success_message "Project updated successfully!")).
Proof.
  intros Hm Hp Hb Hv Himg Hni Hid Hnid Ht HT Hcols Hr.
  pose proof (valid_edit_issues rq b img i Hb Hv Himg Hni Hid Hnid) as Hi.
  assert (Hbody : body (incoming rq) = b) by (unfold incoming; rewrite Hb; reflexivity).
  unfold response, serve.
  rewrite (app_post rq _ _ Hm (find_route rq POST _ _ Hm Hp eq_refl)).
  unfold run_layer. cbn [before handler].
  unfold checkImageType. rewrite Hbody, Himg. cbn [is_string]. unfold ret.
  destruct (post_edit_apps_paths (incoming rq) (set_sent None w))
    as (w' & -> & _ & _ & Hpath); [reflexivity|].
  cbn [snd]. rewrite Hi in Hpath.
  destruct Hpath as [Hr'|_ Hne|_ _ _ Hx];
    [cbn in Hr'; congruence|contradiction|].
  unfold update_app in Hx. rewrite Hbody in Hx.
  unfold validated, edit_apps_fields, literal in Hx.
  cbn [editSchema map fst snd prop String.eqb Ascii.eqb Bool.eqb file incoming
       filename_or] in Hx.
  rewrite Hbody, Ht, Hid in Hx. cbn [escapeId to_String] in Hx.
  unfold execute in Hx. cbn [tables set_sent] in Hx. rewrite HT in Hx.
  cbn [mbind option_bind map fst] in Hx.
  unfold app_columns in Hcols. rewrite Hcols in Hx.
  destruct Hx as [Htab Hsent].
  eexists. split; [exact Htab|]. cbn [next_id rows].
  split; [reflexivity|]. split; [apply length_map|]. split; [|exact Hsent].
  intros n r Hn. rewrite lookup_map, Hn. cbn [fmap option_fmap option_map].
  eexists. split; [reflexivity|].
  destruct (matches "id" (Some (PStr i)) r); [|reflexivity].
  destruct Hv as (ti & co & li & ca & Hti & _ & Hco & _ & Hli & _ & Hca & _).
  cbn [assign fold_left fst snd]. split.
  - intros k Hk. unfold app_columns in Hk.
    repeat (apply elem_of_cons in Hk as [->|Hk]); [..|inversion Hk];
      rewrite ?lookup_insert_ne by discriminate; rewrite lookup_insert_eq.
    + rewrite Hti. reflexivity.
    + rewrite Hco. reflexivity.
    + rewrite Hli. reflexivity.
    + rewrite Hca. reflexivity.
    + rewrite Himg. reflexivity.
  - intros k Hk. unfold app_columns in Hk.
    rewrite !lookup_insert_ne; [reflexivity|..];
      intros <-; apply Hk; repeat constructor.
Qed.

(** *** Creating a project *)

Lemma project_files (rq : Request) (w : World) (fields : gmap string string)
    (u : Upload) (pdf : option Upload) :
  payload rq = MultipartBody fields (u :: option_list pdf) ->
  fieldname u = "image" -> fileFilter u = true ->
  (forall v, pdf = Some v -> fieldname v = "pdfFile" /\ fileFilter v = true) ->
  exists req w1,
    upload rq (incoming rq) w = (Ok req, w1)
    /\ body req = PStr <$> fields
    /\ (exists fs, files req = Some fs
                   /\ fs !! "image" = Some [stored_as u]
                   /\ fs !! "pdfFile" = (fun v => [stored_as v]) <$> pdf)
    /\ public w1 = list_to_set (storage_filename <$> u :: option_list pdf) ∪ public w
    /\ env w1 = env w /\ tables w1 = tables w /\ statements w1 = statements w
    /\ leased w1 = leased w /\ sent w1 = sent w.
Proof.
  intros Hpl Hf Ha Hpdf. unfold upload. rewrite Hpl. unfold bind. cbn [receive].
  rewrite (fileFilter_named u Ha), Hf.
  rewrite lookup_insert_eq, Ha. unfold bind, store.
  destruct pdf as [v|];
    [change (option_list (Some v)) with [v]
    |change (@option_list Upload None) with (@nil Upload)]; cbn [receive].
  - destruct (Hpdf v eq_refl) as [Hfv Hav].
    rewrite (fileFilter_named v Hav), Hfv.
    rewrite lookup_insert_ne by discriminate.
    rewrite lookup_insert_ne by discriminate. rewrite lookup_singleton_eq, Hav.
    cbn [app ret]. eexists _, _. split; [reflexivity|].
    cbn [body files public set_public env tables statements leased sent].
    split; [reflexivity|]. split.
    + eexists. split; [reflexivity|]. unfold group. cbn [Datatypes.app fold_left upload_of].
      rewrite Hf, Hfv. split.
      * rewrite lookup_insert_ne by discriminate. rewrite lookup_insert_eq.
        rewrite lookup_empty. reflexivity.
      * rewrite lookup_insert_eq. rewrite lookup_insert_ne by discriminate.
        rewrite lookup_empty. reflexivity.
    + split_and!; try reflexivity. cbn. set_solver.
  - cbn [app ret]. eexists _, _. split; [reflexivity|].
    cbn [body files public set_public env tables statements leased sent].
    split; [reflexivity|]. split.
    + eexists. split; [reflexivity|]. unfold group. cbn [Datatypes.app fold_left upload_of].
      rewrite Hf. split.
      * rewrite lookup_insert_eq. rewrite lookup_empty. reflexivity.
      * rewrite lookup_insert_ne by discriminate. apply lookup_empty.
    + split_and!; try reflexivity. cbn. set_solver.
Qed.

Lemma post_projects_run (req : Req) (w : World) (fs : gmap string (list File))
    (u : Upload) (pdf : option Upload) :
  files req = Some fs -> fs !! "image" = Some [stored_as u] ->
  fs !! "pdfFile" = (fun v => [stored_as v]) <$> pdf ->
  sent w = None -> reachable (env w) = true ->
  let st := Insert (escapeId (body req !! "table")) ["pdf"; "image"]
              [Some (PStr (from_option storage_filename "" pdf));
               Some (PStr (storage_filename u))] in
  exists w',
    post_projects req w = (Ok tt, w')
    /\ leased w' = leased w /\ public w' = public w
    /\ statements w' = (statements w ++ [st])%list
    /\ match execute st (tables w) with
       | Some (_, db') =>
           tables w' = db'
           /\ sent w' = Some (answered 200
                                (success_message "Project submitted successfully!"))
       | None => tables w' = tables w /\ sent w' = Some unexpected_error
       end.
Proof.
  intros Hfs Himg Hpdf Hs Hr. cbn zeta.
  unfold post_projects, try_catch, try_finally, bind, getConnection, files_slot.
  rewrite Hr, Hfs, Himg, Hpdf.
  assert (Hparse : forall p : string,
             parse projectSchema
               (literal [("pdfFile", Some (PStr p));
                         ("image", Some (PStr (storage_filename u)))])
             = ret [("pdfFile", Some (PStr p));
                    ("image", Some (PStr (storage_filename u)))]).
  { intros p. unfold parse, issues, projectSchema, literal.
    cbn [flat_map fst snd prop String.eqb Ascii.eqb Bool.eqb parse_field run_check
         map Datatypes.app].
    rewrite storage_filename_not_empty. reflexivity. }
  destruct pdf as [v|];
    cbn [fmap option_fmap option_map head ret stored_as slot_truthy filename_text
         filename from_option truthy negb String.eqb];
    rewrite Hparse; cbn [ret prop String.eqb Ascii.eqb Bool.eqb];
    unfold query_with_callback, query; cbn [tables set_leased statements];
    match goal with
    | |- context [execute ?s (tables w)] =>
        destruct (execute s (tables w)) as [[res db']|]
    end; respond Hs; eexists; split_and!; reflexivity.
Qed.

(** X23.  [POST /api/projects] with an accepted image, with or without an
    accepted PDF, for a table that exists and has the columns [pdf] and
    [image]: every file sent is stored under
    its timestamped name, the new row holds the image's stored name in
    [image] and the PDF's in [pdf] (the empty string when none was sent),
    the answer is 200 and the connection is returned. *)
Theorem create_project_stores_files (rq : Request) (w : World)
    (fields : gmap string string) (u : Upload) (pdf : option Upload)
    (t : string) (T : Table) :
  method rq = POST -> pathname rq = "/api/projects" ->
  payload rq = MultipartBody fields (u :: option_list pdf) ->
  fieldname u = "image" -> fileFilter u = true ->
  (forall v, pdf = Some v -> fieldname v = "pdfFile" /\ fileFilter v = true) ->
  fields !! "table" = Some t -> tables w !! t = Some T ->
  has_columns T project_columns = true ->
  reachable (env w) = true ->
  public (serve rq w)
  = list_to_set (storage_filename <$> u :: option_list pdf) ∪ public w
  /\ (exists row,
        tables (serve rq w)
        = <[t := {| next_id := next_id T + 1; columns := columns T;
                  rows := (rows T ++ [row])%list |}]>
            (tables w)
        /\ row !! "id" = Some (PNum (next_id T))
        /\ row !! "image" = Some (PStr (storage_filename u))
        /\ row !! "pdf" = Some (PStr (from_option storage_filename "" pdf)))
  /\ response rq w
     = Some (answered 200 (success_message "Project submitted successfully!"))
  /\ leased (serve rq w) = leased w.
Proof.
  intros Hm Hp Hpl Hf Ha Hpdf Ht HT Hcols Hr. unfold response, serve.
  rewrite (app_post rq _ _ Hm (find_route rq POST _ _ Hm Hp eq_refl)).
  unfold run_layer. cbn [before handler].
  destruct (project_files rq (set_sent None w) fields u pdf Hpl Hf Ha Hpdf)
    as (req & w1 & -> & Hbody & (fs & Hfs & Himg & Hpdfs) & Hpub & Henv & Htab
        & Hst & Hl & Hsent).
  destruct (post_projects_run req w1 fs u pdf Hfs Himg Hpdfs)
    as (w' & -> & Hl' & Hpub' & _ & Hx);
    [rewrite Hsent; reflexivity|rewrite Henv; exact Hr|].
  cbn [snd]. rewrite Hbody, lookup_fmap, Ht in Hx.
  cbn [fmap option_fmap option_map escapeId to_String] in Hx.
  unfold execute in Hx. rewrite Htab in Hx. cbn [tables set_sent] in Hx.
  rewrite HT in Hx. cbn [mbind option_bind] in Hx.
  unfold project_columns in Hcols. rewrite Hcols in Hx.
  destruct Hx as [Hdb Hanswer].
  split_and!.
  - rewrite Hpub', Hpub. reflexivity.
  - eexists. split; [exact Hdb|].
    cbn [zip zip_with assign fold_left fst snd to_sql default from_option].
    split_and!.
    + apply lookup_insert_eq.
    + rewrite lookup_insert_ne by discriminate. apply lookup_insert_eq.
    + rewrite !lookup_insert_ne by discriminate. apply lookup_insert_eq.
  - exact Hanswer.
  - rewrite Hl', Hl. reflexivity.
Qed.

Lemma receive_sources (parts : list Upload) :
  forall left stored w fs w',
    receive left parts stored w = (Ok fs, w') ->
    forall f, f ∈ fs -> f ∈ stored \/ upload_of f ∈ parts.
Proof.
  induction parts as [|p rest IH]; intros left stored w fs w'; cbn [receive].
  - intros [= <- <-] f Hin. left. exact Hin.
  - destruct (String.eqb (originalname p) "").
    + intros Hrun f Hin. destruct (IH _ _ _ _ _ Hrun f Hin); [auto|].
      right. apply elem_of_cons. auto.
    + destruct (left !! fieldname p) as [[|n]|]; [discriminate| |discriminate].
      destruct (fileFilter p); [|discriminate].
      unfold bind, store. intros Hrun f Hin.
      destruct (IH _ _ _ _ _ Hrun f Hin) as [[H|H]%elem_of_app|H].
      * auto.
      * apply list_elem_of_singleton in H as ->. right. apply elem_of_cons. auto.
      * right. apply elem_of_cons. auto.
Qed.

Lemma group_without (k : string) (l : list File) :
  (forall f, f ∈ l -> fieldname (upload_of f) <> k) -> group l !! k = None.
Proof.
  unfold group.
  assert (H : forall (m : gmap string (list File)),
             (forall f, f ∈ l -> fieldname (upload_of f) <> k) ->
             fold_left (fun (m : gmap string (list File)) f =>
                          let k := fieldname (upload_of f) in
                          <[k := (default [] (m !! k) ++ [f])%list]> m) l m !! k
             = m !! k).
  { induction l as [|f l IH]; intros m Hl; [reflexivity|].
    cbn [fold_left]. rewrite IH by (intros g Hg; apply Hl; right; exact Hg).
    apply lookup_insert_ne, Hl. left. }
  intros Hl. rewrite H by exact Hl. apply lookup_empty.
Qed.

Lemma post_projects_without_image (req : Req) (w : World)
    (fs : gmap string (list File)) :
  files req = Some fs -> fs !! "image" = None ->
  sent w = None -> reachable (env w) = true ->
  exists w', post_projects req w = (Ok tt, w')
             /\ sent w' = Some (bad_request [image_required])
             /\ tables w' = tables w /\ statements w' = statements w
             /\ leased w' = leased w /\ public w' = public w.
Proof.
  intros Hfs Himg Hs Hr.
  unfold post_projects, try_catch, try_finally, bind, getConnection, files_slot.
  rewrite Hr, Hfs, Himg.
  assert (Hparse : forall p : string,
             parse projectSchema
               (literal [("pdfFile", Some (PStr p)); ("image", Some (PStr ""))])
             = throw (ZodError [image_required])).
  { intros p. reflexivity. }
  destruct (fs !! "pdfFile") as [[|f l]|];
    cbn [head ret slot_truthy filename_text truthy negb String.eqb];
    rewrite Hparse; unfold throw, release; respond Hs;
    eexists; split_and!; reflexivity.
Qed.

(** X24.  [POST /api/projects] creates no project without an image: a
    multipart form with no file in the [image] field is answered 400 with
    the one issue [image: Image path is required] (or 500 when the upload
    itself is refused); the database is not touched and the connection is
    returned. *)
Theorem create_project_without_image_is_refused (rq : Request) (w : World)
    (fields : gmap string string) (parts : list Upload) :
  method rq = POST -> pathname rq = "/api/projects" ->
  payload rq = MultipartBody fields parts ->
  (forall p, p ∈ parts -> fieldname p <> "image") ->
  reachable (env w) = true ->
  (response rq w = Some (bad_request [image_required])
   \/ response rq w = Some internal_server_error)
  /\ tables (serve rq w) = tables w /\ statements (serve rq w) = statements w
  /\ leased (serve rq w) = leased w.
Proof.
  intros Hm Hp Hpl Hparts Hr. unfold response, serve.
  rewrite (app_post rq _ _ Hm (find_route rq POST _ _ Hm Hp eq_refl)).
  unfold run_layer. cbn [before handler]. unfold upload. rewrite Hpl. unfold bind.
  pose proof (receive_frame parts {[ "image" := 1%nat; "pdfFile" := 1%nat ]} []
                (set_sent None w)) as Hframe.
  cbn zeta in Hframe.
  destruct (receive _ parts [] (set_sent None w)) as [[stored|e] w1] eqn:Hrun;
    cbn [snd] in Hframe;
    destruct Hframe as (Henv & Htab & Hst & Hl & Hsent & _);
    cbn [env tables statements leased sent set_sent] in Henv, Htab, Hst, Hl, Hsent.
  - cbn [ret].
    destruct (post_projects_without_image
                {| body := PStr <$> fields; is_array := false;
                   req_query := req_query (incoming rq);
                   file := None; files := Some (group stored) |}
                w1 (group stored) eq_refl)
      as (w' & -> & Hanswer & Htab' & Hst' & Hl' & _).
    + apply group_without. intros f Hin.
      destruct (receive_sources _ _ _ _ _ _ Hrun f Hin) as [H|H]; [inversion H|].
      apply Hparts, H.
    + rewrite Hsent. reflexivity.
    + rewrite Henv. exact Hr.
    + cbn [snd]. split; [left; exact Hanswer|]. split_and!; congruence.
  - unfold global_error_handler, send. rewrite Hsent. cbn.
    split; [right; reflexivity|]. split_and!; assumption.
Qed.

(** *** Editing a project *)

Lemma or_empty_field (o : option string) :
  or_empty (PStr <$> o) = Some (PStr (default "" o)).
Proof.
  unfold or_empty. destruct o as [p|]; [|reflexivity].
  cbn. destruct (String.eqb_spec p "") as [->|_]; reflexivity.
Qed.

(** X25.  [POST /api/edit/projects] sent as a multipart form without
    files keeps the attachments the form names: with [image] and [id]
    non-empty and a table that has the columns [pdf] and [image], the
    [UPDATE] sets [image] to the [image] field and [pdf] to
    the [pdfFile] field (the empty string when the form has none) on the
    rows whose id equals the [id] field; nothing is written under
    [public/], the answer is 200 and the connection is returned. *)
Theorem edit_project_keeps_named_attachments (rq : Request) (w : World)
    (fields : gmap string string) (img i t : string) (T : Table) :
  method rq = POST -> pathname rq = "/api/edit/projects" ->
  payload rq = MultipartBody fields [] ->
  fields !! "image" = Some img -> img <> "" ->
  fields !! "id" = Some i -> i <> "" ->
  fields !! "table" = Some t -> tables w !! t = Some T ->
  has_columns T project_columns = true ->
  reachable (env w) = true ->
  let pdf := default "" (fields !! "pdfFile") in
  statements (serve rq w)
  = (statements w
     ++ [Update t [("pdf", Some (PStr pdf)); ("image", Some (PStr img))]
           (Some (PStr i))])%list
  /\ tables (serve rq w)
     = <[t := {| next_id := next_id T; columns := columns T;
                 rows := map (fun r => if matches "id" (Some (PStr i)) r
                                       then <["image" := PStr img]>
                                              (<["pdf" := PStr pdf]> r)
                                       else r)
                             (rows T) |}]> (tables w)
  /\ response rq w
     = Some (answered 200 (success_message "Project submitted successfully!"))
  /\ public (serve rq w) = public w /\ leased (serve rq w) = leased w.
Proof.
  intros Hm Hp Hpl Himg Hni Hid Hnid Ht HT Hcols Hr. cbn zeta.
  unfold project_columns in Hcols. unfold response, serve.
  rewrite (app_post rq _ _ Hm (find_route rq POST _ _ Hm Hp eq_refl)).
  assert (Hparse : forall p : string,
             parse projectEditSchema
               (literal [("pdfFile", Some (PStr p)); ("image", Some (PStr img));
                         ("id", Some (PStr i))])
             = ret [("pdfFile", Some (PStr p)); ("image", Some (PStr img));
                    ("id", Some (PStr i))]).
  { intros p. unfold parse, issues, projectEditSchema, literal.
    cbn [flat_map fst snd prop String.eqb Ascii.eqb Bool.eqb parse_field run_check
         map Datatypes.app].
    destruct (String.eqb_spec img ""); [contradiction|].
    destruct (String.eqb_spec i ""); [contradiction|]. reflexivity. }
  match goal with
  | |- context [run_layer ?l rq ?w0] =>
      assert (Hrun : exists w',
                 run_layer l rq w0 = (Ok tt, w')
                 /\ statements w'
                    = (statements w
                       ++ [Update t [("pdf", Some (PStr (default "" (fields !! "pdfFile"))));
                                     ("image", Some (PStr img))]
                             (Some (PStr i))])%list
                 /\ tables w'
                    = <[t := {| next_id := next_id T; columns := columns T;
                                rows := map (fun r => if matches "id" (Some (PStr i)) r
                                                      then <["image" := PStr img]>
                                                             (<["pdf" := PStr (default "" (fields !! "pdfFile"))]> r)
                                                      else r)
                                            (rows T) |}]> (tables w)
                 /\ sent w' = Some (answered 200
                                      (success_message "Project submitted successfully!"))
                 /\ public w' = public w /\ leased w' = leased w)
  end.
  { unfold run_layer. cbn [before handler]. unfold handleUpload, upload. rewrite Hpl.
    unfold bind at 1. cbn [receive ret].
    unfold post_edit_projects, try_catch, try_finally, bind, getConnection, files_slot.
    cbn [env set_sent files body group fold_left]. rewrite Hr, !lookup_empty.
    rewrite !lookup_fmap, Hid, Ht, !or_empty_field, Himg.
    cbn [fmap option_fmap option_map default reference_of ret].
    rewrite Hparse. cbn [ret prop String.eqb Ascii.eqb Bool.eqb escapeId to_String].
    unfold query_with_callback, query, execute.
    cbn [tables set_leased set_sent statements]. rewrite HT.
    cbn [mbind option_bind map fst]. rewrite Hcols. unfold send, release. cbn.
    eexists. split_and!; reflexivity. }
  destruct Hrun as (w' & -> & ? & ? & ? & ? & ?). cbn [snd]. auto.
Qed.

(** A named part in a field that has no file left to take stops the
    upload. *)
Lemma receive_exhausted (parts : list Upload) :
  forall left stored w,
    (exists file, file ∈ parts /\ originalname file <> ""
                  /\ (left !! fieldname file = None
                      \/ left !! fieldname file = Some 0%nat)) ->
    exists e w', receive left parts stored w = (Throw e, w').
Proof.
  induction parts as [|p rest IH]; intros left stored w (bad & Hin & Hn & Hl).
  - inversion Hin.
  - cbn [receive].
    destruct (String.eqb_spec (originalname p) "") as [He|He].
    + apply IH. exists bad. split_and!; try assumption.
      apply elem_of_cons in Hin as [->|Hin]; [contradiction|exact Hin].
    + destruct (left !! fieldname p) as [[|n]|] eqn:Hf; [cbn; eauto| |cbn; eauto].
      destruct (fileFilter p); [|cbn; eauto].
      unfold bind, store. apply IH. exists bad.
      assert (Hne : fieldname p <> fieldname bad).
      { intros Heq. rewrite Heq in Hf. destruct Hl; congruence. }
      apply elem_of_cons in Hin as [->|Hin]; [contradiction|].
      split_and!; try assumption.
      rewrite lookup_insert_ne by exact Hne. exact Hl.
Qed.

Lemma receive_twice (l1 l2 l3 : list Upload) (a b : Upload) :
  originalname a <> "" -> originalname b <> "" -> fieldname a = fieldname b ->
  forall left stored w,
    (forall n, left !! fieldname a = Some n -> (n <= 1)%nat) ->
    exists e w',
      receive left (l1 ++ a :: l2 ++ b :: l3) stored w = (Throw e, w').
Proof.
  intros Ha Hb Hab. induction l1 as [|p l1 IH]; intros left stored w Hleft.
  - cbn [Datatypes.app receive].
    destruct (String.eqb_spec (originalname a) "") as [|_]; [contradiction|].
    destruct (left !! fieldname a) as [[|n]|] eqn:Hf; [cbn; eauto| |cbn; eauto].
    destruct (fileFilter a); [|cbn; eauto].
    unfold bind, store. apply receive_exhausted. exists b.
    split; [apply elem_of_app; right; left|]. split; [exact Hb|].
    right. rewrite <- Hab, lookup_insert_eq.
    pose proof (Hleft _ eq_refl). f_equal. lia.
  - cbn [Datatypes.app receive].
    destruct (String.eqb (originalname p) ""); [apply IH, Hleft|].
    destruct (left !! fieldname p) as [[|n]|] eqn:Hf; [cbn; eauto| |cbn; eauto].
    destruct (fileFilter p); [|cbn; eauto].
    unfold bind, store. apply IH. intros m.
    destruct (decide (fieldname p = fieldname a)) as [Heq|Hne].
    + rewrite Heq, lookup_insert_eq. intros [= <-].
      rewrite Heq in Hf. pose proof (Hleft _ Hf). lia.
    + rewrite lookup_insert_ne by exact Hne. apply Hleft.
Qed.

(** X26.  Each file field takes one file.  A form with two named file
    parts in the same field, sent to any of the four upload routes, makes
    multer give up: the answer is 500 [Internal Server Error], nothing is
    written to the database and no file of the request stays under
    [public/]. *)
Theorem second_file_in_a_field_is_refused (rq : Request) (w : World)
    (fields : gmap string string) (l1 l2 l3 : list Upload) (a b : Upload) :
  method rq = POST -> pathname rq ∈ upload_routes ->
  payload rq = MultipartBody fields (l1 ++ a :: l2 ++ b :: l3) ->
  originalname a <> "" -> originalname b <> "" -> fieldname a = fieldname b ->
  response rq w = Some internal_server_error
  /\ tables (serve rq w) = tables w /\ statements (serve rq w) = statements w
  /\ public (serve rq w) ⊆ public w.
Proof.
  intros Hm Hp Hpl Ha Hb Hab.
  apply (upload_abort rq w fields _ Hm Hp Hpl).
  intros left Hleft. apply receive_twice; try assumption.
  intros n Hn. destruct Hleft as [[-> _]|[-> _]].
  - apply lookup_singleton_Some in Hn as [_ <-]. lia.
  - apply lookup_insert_Some in Hn as [[_ <-]|[_ Hn]]; [lia|].
    apply lookup_singleton_Some in Hn as [_ <-]. lia.
Qed.

(** *** What [fileFilter] accepts *)

Lemma chars_append (s t : string) :
  list_ascii_of_string (s ++ t) = (list_ascii_of_string s ++ list_ascii_of_string t)%list.
Proof. induction s as [|c s IH]; [reflexivity|]. simpl. rewrite IH. reflexivity. Qed.

Lemma chars_length (s : string) :
  Datatypes.length (list_ascii_of_string s) = String.length s.
Proof. induction s as [|c s IH]; [reflexivity|]. simpl. rewrite IH. reflexivity. Qed.

Lemma includes_char (c : ascii) (s : string) :
  includes (String c EmptyString) s = false ->
  Forall (fun x => Ascii.eqb x c = false) (list_ascii_of_string s).
Proof.
  induction s as [|x s IH]; [constructor|].
  cbn [includes String.prefix list_ascii_of_string].
  destruct (ascii_dec c x) as [->|Hne].
  - destruct s; discriminate.
  - cbn [orb]. intros H. constructor; [|apply IH, H].
    apply Ascii.eqb_neq. congruence.
Qed.

(** While no dot has been met the scan has none to report. *)
Lemma scan_without_dot (l : list ascii) :
  Forall (fun x => Ascii.eqb x "." = false) l ->
  forall i st, startDot st = -1 -> startDot (extname_scan l i st) = -1.
Proof.
  induction 1 as [|c l Hc _ IH]; intros i st Hst; [exact Hst|].
  cbn [extname_scan]. rewrite Hc.
  destruct (Ascii.eqb c "/").
  - destruct (negb (matchedSlash st)); [exact Hst|apply IH, Hst].
  - apply IH. destruct (Z.eqb (end_ st) (-1)); cbn [startDot]; rewrite Hst;
      simpl; auto.
Qed.

Lemma extname_without_dot (p : string) : includes "." p = false -> extname p = "".
Proof.
  intros H. unfold extname.
  rewrite scan_without_dot; [reflexivity| |reflexivity].
  apply Forall_rev, includes_char, H.
Qed.

(** Characters of the extension after its last one: the scan passes them
    by. *)
Lemma scan_tail (l : list ascii) :
  Forall clean l ->
  forall rest i st,
    startDot st = -1 -> end_ st <> -1 ->
    extname_scan (l ++ rest) i st
    = extname_scan rest (i - Z.of_nat (Datatypes.length l)) st.
Proof.
  induction 1 as [|c l [Hdot Hslash] _ IH]; intros rest i st Hst Hend.
  - cbn. f_equal. lia.
  - cbn [Datatypes.app extname_scan]. rewrite Hslash, Hdot.
    apply Z.eqb_neq in Hend as Hend'. rewrite Hend', Hst. cbn [Z.eqb Pos.eqb negb].
    rewrite IH by assumption. f_equal. cbn [Datatypes.length]. lia.
Qed.

(** From the last character to the last dot. *)
Lemma scan_extension (l rest : list ascii) (i : Z) :
  Forall clean l -> l <> [] -> 0 <= i ->
  extname_scan (l ++ "."%char :: rest) i
    {| startDot := -1; startPart := 0; end_ := -1; matchedSlash := true;
       preDotState := 0 |}
  = extname_scan rest (i - Z.of_nat (Datatypes.length l) - 1)
      {| startDot := i - Z.of_nat (Datatypes.length l); startPart := 0;
         end_ := i + 1; matchedSlash := false; preDotState := 0 |}.
Proof.
  intros Hl Hne Hi. destruct l as [|c l]; [contradiction|].
  inversion Hl as [|? ? [Hdot Hslash] Hl']; subst.
  cbn [Datatypes.app extname_scan]. rewrite Hslash, Hdot.
  cbn [end_ startDot Z.eqb Pos.eqb negb].
  rewrite scan_tail; [|exact Hl'|reflexivity|cbn; lia].
  cbn [extname_scan]. cbn [end_ startDot Ascii.eqb Bool.eqb andb].
  assert (He : Z.eqb (i + 1) (-1) = false) by (apply Z.eqb_neq; lia).
  rewrite He. cbn [startDot Z.eqb Pos.eqb negb end_ startPart matchedSlash preDotState].
  f_equal; [cbn [Datatypes.length]; lia|].
  f_equal. cbn [Datatypes.length]. lia.
Qed.

(** Once the scan is past the character before the dot, what it reports
    of the dot and of the end stands. *)
Lemma scan_stem (l : list ascii) :
  forall i st d e,
    startDot st = d -> d <> -1 -> end_ st = e -> e <> -1 -> preDotState st <> 0 ->
    let st' := extname_scan l i st in
    startDot st' = d /\ end_ st' = e /\ preDotState st' <> 0.
Proof.
  induction l as [|c l IH]; intros i st d e Hd Hnd He Hne Hp; cbn zeta.
  - cbn. auto.
  - cbn [extname_scan].
    destruct (Ascii.eqb c "/").
    + destruct (negb (matchedSlash st)); [cbn; auto|].
      apply (IH _ _ d e); assumption.
    + apply Z.eqb_neq in Hne as Hne'. apply Z.eqb_neq in Hnd as Hnd'.
      rewrite He, Hne', Hd, Hnd'. cbn [negb].
      destruct (Ascii.eqb c ".").
      * destruct (Z.eqb_spec (preDotState st) 1) as [H1|H1]; cbn [negb];
          apply (IH _ _ d e); cbn; auto; lia.
      * apply (IH _ _ d e); cbn; auto; lia.
Qed.

(** The character before the dot, when it is not a slash. *)
Lemma scan_before_dot (c0 : ascii) (l : list ascii) (i d e : Z) :
  Ascii.eqb c0 "/" = false -> d <> -1 -> e <> -1 ->
  extname_scan (c0 :: l) i
    {| startDot := d; startPart := 0; end_ := e; matchedSlash := false;
       preDotState := 0 |}
  = extname_scan l (i - 1)
      {| startDot := d; startPart := 0; end_ := e; matchedSlash := false;
         preDotState := if Ascii.eqb c0 "." then 1 else -1 |}.
Proof.
  intros Hc0 Hd He. cbn [extname_scan]. rewrite Hc0. cbn [end_].
  apply Z.eqb_neq in He. apply Z.eqb_neq in Hd. rewrite He. cbn [startDot].
  rewrite Hd. cbn [negb preDotState Z.eqb].
  destruct (Ascii.eqb c0 "."); reflexivity.
Qed.

Lemma substring_all (t : string) : String.substring 0 (String.length t) t = t.
Proof. induction t as [|c t IH]; [reflexivity|]. cbn. rewrite IH. reflexivity. Qed.

Lemma substring_after (s t : string) :
  String.substring (String.length s) (String.length t) (s ++ t) = t.
Proof. induction s as [|c s IH]; [apply substring_all|exact IH]. Qed.

(** [path.extname] of a name with a dot after a character that is not a
    slash, and neither dot nor slash after it: the extension is what
    follows the dot, with the dot. *)
Lemma extname_of_suffix (stem ext : string) :
  stem <> "" -> includes "/" stem = false ->
  ext <> "" -> Forall clean (list_ascii_of_string ext) ->
  extname (stem ++ String "." ext) = String "." ext.
Proof.
  intros Hstem Hslash Hext Hclean. unfold extname.
  rewrite chars_append. cbn [list_ascii_of_string].
  rewrite rev_app_distr. cbn [rev]. rewrite <- app_assoc. cbn [Datatypes.app].
  assert (Hlen : String.length (stem ++ String "." ext)
                 = (String.length stem + S (String.length ext))%nat).
  { rewrite <- !chars_length, chars_append, length_app. reflexivity. }
  rewrite Hlen.
  rewrite scan_extension;
    [|apply Forall_rev, Hclean
     |intros H; apply (f_equal (@rev ascii)) in H; rewrite rev_involutive in H;
      destruct ext; [contradiction|discriminate]
     |lia].
  rewrite length_rev, chars_length.
  destruct (rev (list_ascii_of_string stem)) as [|c0 l] eqn:Hrev.
  { apply (f_equal (@rev ascii)) in Hrev. rewrite rev_involutive in Hrev.
    destruct stem; [contradiction|discriminate]. }
  assert (Hc0 : Ascii.eqb c0 "/" = false).
  { pose proof (includes_char "/" stem Hslash) as Hall.
    apply Forall_rev in Hall. rewrite Hrev in Hall. inversion Hall; assumption. }
  set (n := Z.of_nat (String.length stem + S (String.length ext))).
  set (d := n - 1 - Z.of_nat (String.length ext)).
  assert (Hd : d = Z.of_nat (String.length stem)) by lia.
  assert (He1 : Z.eqb (n - 1 + 1) (-1) = false) by (apply Z.eqb_neq; lia).
  assert (Hd1 : Z.eqb d (-1) = false) by (apply Z.eqb_neq; lia).
  rewrite scan_before_dot by (assumption || lia).
  match goal with
  | |- context [extname_scan l ?i ?st] =>
      destruct (scan_stem l i st d (n - 1 + 1)) as (Hsd & Hend & Hpre);
      [reflexivity|lia|reflexivity|lia
      |destruct (Ascii.eqb c0 "."); cbn; lia|]
  end.
  cbn zeta in Hsd, Hend, Hpre. rewrite Hsd, Hend.
  apply Z.eqb_neq in Hpre as Hpre'. rewrite Hd1, He1, Hpre'.
  assert (Hle : (0 < String.length ext)%nat)
    by (destruct ext; [contradiction|cbn; lia]).
  assert (Hgap : Z.eqb d (n - 1 + 1 - 1) = false) by (apply Z.eqb_neq; lia).
  rewrite Hgap, andb_false_r. cbn [orb andb].
  replace (Z.to_nat d) with (String.length stem) by lia.
  replace (Z.to_nat (n - 1 + 1 - d)) with (S (String.length ext)) by lia.
  change (S (String.length ext)) with (String.length (String "." ext)).
  apply substring_after.
Qed.

Lemma lower_keeps (c : ascii) :
  Ascii.eqb (lower c) "." = Ascii.eqb c "."
  /\ Ascii.eqb (lower c) "/" = Ascii.eqb c "/".
Proof.
  destruct c as [[] [] [] [] [] [] [] []]; split; vm_compute; reflexivity.
Qed.

Lemma toLowerCase_cons (c : ascii) (s : string) :
  toLowerCase (String c s) = String (lower c) (toLowerCase s).
Proof. reflexivity. Qed.

Lemma toLowerCase_chars (s : string) :
  list_ascii_of_string (toLowerCase s) = map lower (list_ascii_of_string s).
Proof.
  induction s as [|c s IH]; [reflexivity|].
  rewrite toLowerCase_cons. cbn [list_ascii_of_string map]. rewrite IH. reflexivity.
Qed.

(** An extension that reads as one of the five words once lower-cased
    holds neither a dot nor a slash. *)
Lemma listed_extension_clean (ext : string) :
  toLowerCase ext ∈ filetypes ->
  ext <> "" /\ Forall clean (list_ascii_of_string ext).
Proof.
  intros Hin. split.
  - intros ->. unfold filetypes in Hin.
    repeat (apply elem_of_cons in Hin as [Hin|Hin]; [discriminate Hin|]).
    inversion Hin.
  - assert (Hword : Forall clean (list_ascii_of_string (toLowerCase ext))).
    { unfold filetypes in Hin.
      repeat (apply elem_of_cons in Hin as [->|Hin];
              [repeat constructor|]).
      inversion Hin. }
    rewrite toLowerCase_chars in Hword.
    induction (list_ascii_of_string ext) as [|c l IH]; [constructor|].
    inversion Hword as [|? ? [Hd Hs] Hl]; subst.
    constructor; [|apply IH, Hl].
    destruct (lower_keeps c) as [Hd' Hs']. split; congruence.
Qed.

(** X27.  [fileFilter] accepts every file of a listed kind: a name that
    ends in a dot and one of [jpeg], [jpg], [png], [gif], [pdf], in any
    letter case, after at least one character, with one of the five
    listed MIME types. *)
Theorem listed_types_are_accepted (file : Upload) (stem ext : string) :
  originalname file = stem ++ String "." ext ->
  stem <> "" -> includes "/" stem = false ->
  toLowerCase ext ∈ filetypes -> mimetype file ∈ listed_mimetypes ->
  fileFilter file = true.
Proof.
  intros Hname Hstem Hslash Hext Hmime.
  destruct (listed_extension_clean ext Hext) as [Hne Hclean].
  unfold fileFilter. rewrite Hname, extname_of_suffix by assumption.
  rewrite toLowerCase_cons. apply andb_true_intro. split.
  - unfold filetypes in Hext.
    repeat (apply elem_of_cons in Hext as [->|Hext]; [vm_compute; reflexivity|]).
    inversion Hext.
  - unfold listed_mimetypes in Hmime.
    repeat (apply elem_of_cons in Hmime as [->|Hmime]; [vm_compute; reflexivity|]).
    inversion Hmime.
Qed.

(** X28.  A file whose name has no dot has no extension for [fileFilter]
    to find, so it is turned down whatever its MIME type: sent to any of
    the four upload routes it is answered 500 [Internal Server Error],
    nothing is written to the database and no file of the request stays
    under [public/]. *)
Theorem file_without_extension_is_refused (rq : Request) (w : World)
    (fields : gmap string string) (parts : list Upload) (file : Upload) :
  method rq = POST -> pathname rq ∈ upload_routes ->
  payload rq = MultipartBody fields parts -> file ∈ parts ->
  originalname file <> "" -> includes "." (originalname file) = false ->
  fileFilter file = false
  /\ response rq w = Some internal_server_error
  /\ tables (serve rq w) = tables w /\ statements (serve rq w) = statements w
  /\ public (serve rq w) ⊆ public w.
Proof.
  intros Hm Hp Hpl Hin Hn Hdot.
  assert (Hf : fileFilter file = false).
  { unfold fileFilter. rewrite (extname_without_dot _ Hdot). reflexivity. }
  split; [exact Hf|].
  apply (upload_abort rq w fields parts Hm Hp Hpl).
  intros left _. apply receive_rejects. exists file. split; [exact Hin|].
  split; assumption.
Qed.

Lemma valid_edit_with_image (rq : Request) (fields : gmap string string)
    (u : Upload) (i : string) :
  valid_app (PStr <$> fields) -> fields !! "id" = Some i -> i <> "" ->
  issues editSchema (edit_apps_fields (with_image rq fields u)) = [].
Proof.
  intros (t & c & l & cat & Ht & Hnt & Hc & Hnc & Hl & Hu & Hcat & Hin) Hid Hni.
  unfold issues, editSchema, edit_apps_fields, literal.
  cbn [flat_map fst snd prop String.eqb Ascii.eqb Bool.eqb with_image body file
       filename_or filename].
  rewrite Ht, Hc, Hl, Hcat, lookup_fmap, Hid.
  cbn [fmap option_fmap option_map parse_field run_check flat_map map Datatypes.app].
  rewrite Hu, storage_filename_not_empty.
  destruct (String.eqb_spec t ""); [contradiction|].
  destruct (String.eqb_spec c ""); [contradiction|].
  destruct (String.eqb_spec i ""); [contradiction|].
  destruct Hin as [-> | ->]; reflexivity.
Qed.

(** X30.  [POST /api/edit/apps] sent as a multipart form with a new image,
    for a table that has the columns of an app, replaces the attachment:
    the file is stored under its timestamped name beside the files
    already there, and the rows of the named table
    whose id equals the [id] field take the stored name as [image],
    whatever an [image] text field of the form says, and the four text
    fields sent; the other rows stay as they were and the answer is
    200. *)
Theorem edit_app_replaces_image (rq : Request) (w : World)
    (fields : gmap string string) (u : Upload) (i t : string) (T : Table) :
  method rq = POST -> pathname rq = "/api/edit/apps" ->
  payload rq = MultipartBody fields [u] -> fieldname u = "image" ->
  fileFilter u = true -> valid_app (PStr <$> fields) ->
  fields !! "id" = Some i -> i <> "" ->
  fields !! "table" = Some t -> tables w !! t = Some T ->
  has_columns T app_columns = true ->
  reachable (env w) = true ->
  public (serve rq w) = {[ storage_filename u ]} ∪ public w
  /\ (exists T',
        tables (serve rq w) = <[t := T']> (tables w)
        /\ next_id T' = next_id T
        /\ forall n r, rows T !! n = Some r ->
             exists r', rows T' !! n = Some r'
                        /\ if matches "id" (Some (PStr i)) r
                           then r' !! "image" = Some (PStr (storage_filename u))
                                /\ (forall k, k ∈ ["title"; "content"; "link"; "category"] ->
                                              r' !! k = PStr <$> fields !! k)
                                /\ r' !! "id" = r !! "id"
                           else r' = r)
  /\ response rq w
     = Some (answered 200 (success_message "Project updated successfully!")).
Proof.
  intros Hm Hp Hpl Hf Ha Hv Hid Hni Ht HT Hcols Hr.
  pose proof (valid_edit_with_image rq fields u i Hv Hid Hni) as Hi.
  unfold response, serve.
  rewrite (app_post rq _ _ Hm (find_route rq POST _ _ Hm Hp eq_refl)).
  unfold run_layer. cbn [before handler]. unfold checkImageType.
  assert (Hnone : is_string (body (incoming rq) !! "image") = false).
  { unfold incoming. rewrite Hpl. cbn [body]. rewrite lookup_empty. reflexivity. }
  rewrite Hnone, (single_image rq _ fields u Hpl Hf Ha). cbv beta iota.
  destruct (post_edit_apps_paths (with_image rq fields u)
              (set_public ({[storage_filename u]} ∪ public (set_sent None w))
                 (set_sent None w)))
    as (w' & -> & _ & Hpub & Hpath); [reflexivity|].
  cbn [snd]. split; [exact Hpub|]. rewrite Hi in Hpath.
  destruct Hpath as [Hr'|_ Hne|_ _ _ Hx];
    [cbn in Hr'; congruence|contradiction|].
  unfold update_app, validated, edit_apps_fields, literal, with_image in Hx.
  cbn [editSchema map fst snd prop String.eqb Ascii.eqb Bool.eqb file body
       filename_or filename] in Hx.
  rewrite !lookup_fmap, Ht, Hid in Hx.
  cbn [fmap option_fmap option_map escapeId to_String] in Hx.
  unfold execute in Hx. cbn [tables set_sent set_public] in Hx. rewrite HT in Hx.
  cbn [mbind option_bind map fst] in Hx.
  unfold app_columns in Hcols. rewrite Hcols in Hx. destruct Hx as [Htab Hsent].
  split; [|exact Hsent].
  eexists. split; [exact Htab|]. cbn [next_id rows]. split; [reflexivity|].
  intros n r Hn. rewrite lookup_map, Hn. cbn [fmap option_fmap option_map].
  eexists. split; [reflexivity|].
  destruct (matches "id" (Some (PStr i)) r); [|reflexivity].
  destruct Hv as (ti & co & li & ca & Hti & _ & Hco & _ & Hli & _ & Hca & _).
  rewrite lookup_fmap in Hti, Hco, Hli, Hca.
  cbn [assign fold_left fst snd]. split_and!.
  - apply lookup_insert_eq.
  - intros k Hk.
    repeat (apply elem_of_cons in Hk as [->|Hk]); [..|inversion Hk];
      rewrite ?lookup_insert_ne by discriminate; rewrite lookup_insert_eq.
    + rewrite Hti. reflexivity.
    + rewrite Hco. reflexivity.
    + rewrite Hli. reflexivity.
    + rewrite Hca. reflexivity.
  - rewrite !lookup_insert_ne by discriminate. reflexivity.
Qed.

End Properties.

(** ** The theorems at work on concrete requests *)

Lemma send_mail_contact_must_be_email_witness :
  (exists errs, @response deployment phone_request world0 = Some (bad_request errs)
                /\ contact_issue ∈ errs)
  /\ outbox (@serve deployment phone_request world0) = outbox world0.
Proof.
  apply (proj1 (@send_mail_contact_must_be_email deployment phone_request world0
                  eq_refl eq_refl) "+1 555 0100");
    vm_compute; reflexivity.
Defined.

Lemma delete_without_id_is_not_rejected_witness :
  (exists r, @response deployment delete_request world0 = Some r /\ status r <> 400)
  /\ (reachable (env world0) = true ->
      statements (@serve deployment delete_request world0)
      = (statements world0 ++ [Delete "projects" None])%list).
Proof.
  apply (@delete_without_id_is_not_rejected deployment delete_request world0
           "projects" eq_refl eq_refl).
  - apply not_elem_of_empty.
  - vm_compute; reflexivity.
  - discriminate.
  - vm_compute; reflexivity.
Defined.

Lemma root_never_succeeds_witness :
  @response deployment root_request world0 = None.
Proof.
  exact (@root_never_succeeds deployment root_request world0 eq_refl eq_refl
           (not_elem_of_empty _)).
Defined.

Lemma login_token_iff_credentials_witness :
  is_Some (token_of (@response deployment alice_login world0)).
Proof.
  apply (proj2 (proj2 (proj1 (@login_token_iff_credentials deployment alice_login
                                world0 eq_refl eq_refl eq_refl)
                         "alice@example.com" "wonderland" "s3cret" users
                         eq_refl ltac:(discriminate) eq_refl ltac:(discriminate)
                         eq_refl ltac:(discriminate) eq_refl eq_refl))).
  exists alice, "$2b$wonderland". repeat split; vm_compute; reflexivity.
Defined.

(** C7 as stated fails for an unknown email sent with an empty password:
    the answer is the schema's message for [password], not [User does not
    exist]. *)
Lemma login_unknown_email_empty_password :
  @find_user deployment world0 "ghost@example.com" = None
  /\ @response deployment ghost_login world0
     = Some (bad_request [{| path := Some "password";
                             message := "Password is required" |}])
  /\ @response deployment ghost_login world0 <> Some user_does_not_exist.
Proof.
  split; [vm_compute; reflexivity|].
  split; [vm_compute; reflexivity|vm_compute; discriminate].
Qed.

Lemma edit_of_missing_row_reports_success_witness :
  @response deployment edit_missing_row world0
  = Some (answered 200 (success_message "Project updated successfully!"))
  /\ tables (@serve deployment edit_missing_row world0) !! "apps_demo"
     = Some apps_demo.
Proof.
  refine (@edit_of_missing_row_reports_success deployment edit_missing_row world0
            edit_fields apps_demo
            eq_refl eq_refl eq_refl _ _ _ _ _).
  - vm_compute; reflexivity.
  - vm_compute; reflexivity.
  - reflexivity.
  - vm_compute; reflexivity.
  - intros r Hr. apply list_elem_of_singleton in Hr as ->. vm_compute; reflexivity.
Defined.

Ltac compass_is_valid :=
  exists "Compass", "Bearings", "https://compass.example.com", "d-only";
  split; [vm_compute; reflexivity|]; split; [discriminate|];
  split; [vm_compute; reflexivity|]; split; [discriminate|];
  split; [vm_compute; reflexivity|]; split; [vm_compute; reflexivity|];
  split; [vm_compute; reflexivity|]; left; reflexivity.

Lemma create_without_table_sends_insert_witness :
  (exists vals,
     statements (@serve deployment create_without_table world0)
     = (statements world0 ++ [Insert "undefined" app_columns vals])%list)
  /\ (exists r, @response deployment create_without_table world0 = Some r
                /\ status r <> 400).
Proof.
  apply (@create_without_table_sends_insert deployment create_without_table world0
           create_fields logo eq_refl eq_refl eq_refl eq_refl).
  - vm_compute; reflexivity.
  - compass_is_valid.
  - vm_compute; reflexivity.
  - reflexivity.
Defined.

(** C6 as stated fails when the database is out of reach: the fields are
    valid and the image is accepted and stored, yet the answer is 500 and
    no record is written. *)
Lemma create_app_needs_the_database :
  @valid_app deployment (PStr <$> <["table" := "apps_demo"]> create_fields)
  /\ fileFilter logo = true
  /\ @response deployment create_in_apps_demo world_down = Some unexpected_error
  /\ tables (@serve deployment create_in_apps_demo world_down) = tables world_down.
Proof.
  split; [compass_is_valid|].
  split_and!; vm_compute; reflexivity.
Qed.

Lemma create_app_names_image_witness :
  public (@serve deployment create_in_apps_demo world0)
  = {[ "1700000000123_logo.png" ]} ∪ public world0
  /\ (exists row,
        tables (@serve deployment create_in_apps_demo world0) !! "apps_demo"
        = Some {| next_id := 2 + 1; columns := app_columns;
                  rows := [atlas; row] |}
        /\ row !! "image" = Some (PStr "1700000000123_logo.png"))
  /\ @response deployment create_in_apps_demo world0
     = Some (answered 200 (success_message "Project submitted successfully!")).
Proof.
  assert (Hname : (decimal (arrival logo) ++ "_" ++ originalname logo)%string
                  = "1700000000123_logo.png") by (vm_compute; reflexivity).
  rewrite <- Hname.
  apply (@create_app_names_image deployment create_in_apps_demo world0
           (<["table" := "apps_demo"]> create_fields) logo "apps_demo"
           apps_demo eq_refl eq_refl eq_refl eq_refl).
  - vm_compute; reflexivity.
  - compass_is_valid.
  - vm_compute; reflexivity.
  - vm_compute; reflexivity.
  - reflexivity.
  - reflexivity.
Defined.



Lemma create_project_without_files_keeps_connection_witness :
  @response deployment project_as_json world0 = Some unexpected_error
  /\ leased (@serve deployment project_as_json world0) = S (leased world0)
  /\ statements (@serve deployment project_as_json world0) = statements world0.
Proof.
  exact (@create_project_without_files_keeps_connection deployment project_as_json
           world0 {[ "table" := PStr "projects" ]} eq_refl eq_refl eq_refl eq_refl).
Defined.

Lemma stored_files_are_kept_witness :
  public world_with_file ⊆ public (@serve deployment create_in_apps_demo world_with_file).
Proof.
  apply (@stored_files_are_kept deployment create_in_apps_demo world_with_file).
  vm_compute; discriminate.
Defined.

Lemma read_without_table_is_refused_witness :
  @response deployment list_projects_unnamed world0 = Some table_name_required
  /\ statements (@serve deployment list_projects_unnamed world0) = statements world0
  /\ tables (@serve deployment list_projects_unnamed world0) = tables world0
  /\ leased (@serve deployment list_projects_unnamed world0) = leased world0.
Proof.
  apply (@read_without_table_is_refused deployment list_projects_unnamed world0
           "/api/projects" "db" eq_refl).
  - repeat constructor.
  - reflexivity.
  - apply not_elem_of_empty.
  - left. reflexivity.
  - reflexivity.
Defined.



Lemma read_one_project_without_id_witness :
  @response deployment read_project_unnumbered world0 = Some (listed [])
  /\ statements (@serve deployment read_project_unnumbered world0)
     = (statements world0 ++ [SelectWhere "apps_demo" "id" None])%list.
Proof.
  apply (@read_one_project_without_id deployment read_project_unnumbered world0
           "apps_demo" apps_demo eq_refl eq_refl
           (not_elem_of_empty _) eq_refl);
    first [discriminate | vm_compute; reflexivity].
Defined.


Lemma delete_without_id_deletes_nothing_witness :
  tables (@serve deployment delete_unnumbered world0) = tables world0
  /\ @response deployment delete_unnumbered world0
     = Some (answered 200 (success_results (ResultHeader 0 0))).
Proof.
  apply (@delete_without_id_deletes_nothing deployment delete_unnumbered world0
           "apps_demo" apps_demo eq_refl eq_refl
           (not_elem_of_empty _) eq_refl);
    first [discriminate | vm_compute; reflexivity].
Defined.

Lemma reads_leave_database_witness :
  tables (@serve deployment alice_login world0) = tables world0.
Proof.
  apply (@reads_leave_database deployment alice_login world0).
  repeat constructor.
Defined.

Lemma database_down_answers_500_witness :
  (exists r, @response deployment create_in_apps_demo world_down = Some r
             /\ status r = 500)
  /\ tables (@serve deployment create_in_apps_demo world_down) = tables world_down
  /\ statements (@serve deployment create_in_apps_demo world_down)
     = statements world_down.
Proof.
  apply (@database_down_answers_500 deployment create_in_apps_demo world_down).
  - repeat constructor.
  - discriminate.
  - reflexivity.
Defined.

Lemma send_mail_delivers_one_mail_witness :
  @response deployment ada_writes world0 = Some mail_sent
  /\ outbox (@serve deployment ada_writes world0)
     = (outbox world0 ++ [thank_you "ada@example.com"])%list.
Proof.
  apply (@send_mail_delivers_one_mail deployment ada_writes world0
           "Ada" "ada@example.com" "Hello" "<p>Hello {{name}}</p>" eq_refl eq_refl);
    [|reflexivity..].
  split_and!; first [discriminate | vm_compute; reflexivity].
Defined.

Lemma send_mail_failures_witness :
  outbox (@serve deployment ada_writes world_refusing) = outbox world_refusing
  /\ @response deployment ada_writes world_refusing = Some mail_service_error.
Proof.
  apply (@send_mail_failures deployment ada_writes world_refusing
           "Ada" "ada@example.com" "Hello" eq_refl eq_refl).
  - split_and!; first [discriminate | vm_compute; reflexivity].
  - right. discriminate.
Defined.

Lemma send_mail_reports_every_field_witness :
  exists errs,
    @response deployment empty_form world0 = Some (bad_request errs)
    /\ (forall k, k ∈ form_fields -> unfilled (body (incoming empty_form)) k ->
                  exists i, i ∈ errs /\ path i = Some k)
    /\ (forall i, i ∈ errs -> exists k, path i = Some k /\ k ∈ form_fields)
    /\ outbox (@serve deployment empty_form world0) = outbox world0.
Proof.
  apply (proj1 (@send_mail_reports_every_field deployment empty_form world0
                  eq_refl eq_refl) "fullName").
  - discriminate.
  - repeat constructor.
  - intros s H. vm_compute in H. discriminate.
Defined.

Lemma unexpected_file_is_refused_witness :
  @response deployment app_with_cv world0 = Some internal_server_error
  /\ tables (@serve deployment app_with_cv world0) = tables world0
  /\ statements (@serve deployment app_with_cv world0) = statements world0
  /\ public (@serve deployment app_with_cv world0) ⊆ public world0.
Proof.
  apply (@unexpected_file_is_refused deployment app_with_cv world0 create_fields
           [logo; cv] eq_refl).
  - repeat constructor.
  - reflexivity.
  - exists cv. split; [repeat constructor|]. split; [discriminate|].
    intros H. apply list_elem_of_singleton in H. discriminate.
Defined.

Lemma rejected_upload_leaves_no_file_witness :
  public (@serve deployment project_with_installer world0) ⊆ public world0
  /\ @response deployment project_with_installer world0 = Some internal_server_error
  /\ tables (@serve deployment project_with_installer world0) = tables world0
  /\ statements (@serve deployment project_with_installer world0) = statements world0.
Proof.
  apply (@rejected_upload_leaves_no_file deployment project_with_installer world0
           {[ "table" := "projects" ]} [logo; installer] eq_refl).
  - repeat constructor.
  - reflexivity.
  - exists installer. split; [repeat constructor|].
    split; [discriminate|vm_compute; reflexivity].
Defined.

Lemma stored_names_collide_only_when_equal_witness :
  arrival logo = arrival logo_again /\ originalname logo = originalname logo_again.
Proof.
  apply (stored_names_collide_only_when_equal logo logo_again).
  vm_compute; reflexivity.
Defined.

Lemma connections_are_returned_witness :
  leased (@serve deployment project_with_files world0) = leased world0.
Proof.
  apply (@connections_are_returned deployment project_with_files world0).
  intros _ _. eexists _, _. reflexivity.
Defined.

Lemma edit_project_without_files_keeps_connection_witness :
  @response deployment edit_project_as_json world0 = Some unexpected_error
  /\ leased (@serve deployment edit_project_as_json world0) = S (leased world0)
  /\ statements (@serve deployment edit_project_as_json world0) = statements world0
  /\ tables (@serve deployment edit_project_as_json world0) = tables world0.
Proof.
  exact (@edit_project_without_files_keeps_connection deployment edit_project_as_json
           world0 {[ "table" := PStr "projects"; "id" := PStr "1" ]}
           eq_refl eq_refl eq_refl eq_refl).
Defined.

Lemma accepted_upload_is_never_undone_witness :
  storage_filename logo ∈ public (@serve deployment create_untitled world0)
  /\ (forall r, @response deployment create_untitled world0 = Some r ->
                status r <> 200 ->
                tables (@serve deployment create_untitled world0) = tables world0).
Proof.
  apply (@accepted_upload_is_never_undone deployment create_untitled world0
           untitled_fields logo eq_refl eq_refl eq_refl eq_refl).
  vm_compute; reflexivity.
Defined.


Lemma created_app_is_listed_witness :
  exists row,
    @response deployment list_apps (@serve deployment create_in_apps_demo world0)
    = Some (listed ([atlas] ++ [row]))
    /\ row !! "id" = Some (PNum 2)
    /\ row !! "image" = Some (PStr (storage_filename logo))
    /\ (forall k, k ∈ ["title"; "content"; "link"; "category"] ->
                  row !! k = PStr <$> (<["table" := "apps_demo"]> create_fields) !! k).
Proof.
  apply (@created_app_is_listed deployment create_in_apps_demo list_apps world0
           (<["table" := "apps_demo"]> create_fields) logo "apps_demo"
           apps_demo eq_refl eq_refl eq_refl eq_refl).
  - vm_compute; reflexivity.
  - compass_is_valid.
  - vm_compute; reflexivity.
  - discriminate.
  - vm_compute; reflexivity.
  - reflexivity.
  - reflexivity.
  - reflexivity.
  - reflexivity.
  - vm_compute; reflexivity.
  - apply not_elem_of_empty.
Defined.


Lemma edit_app_updates_matching_rows_witness :
  exists T',
    tables (@serve deployment edit_atlas world0) = <["apps_demo" := T']> (tables world0)
    /\ next_id T' = 2
    /\ length (rows T') = length [atlas]
    /\ (forall n r, [atlas] !! n = Some r ->
          exists r', rows T' !! n = Some r'
                     /\ if @matches deployment "id" (Some (PStr "1")) r
                        then (forall k, k ∈ app_columns ->
                                        r' !! k = edit_atlas_fields !! k)
                             /\ (forall k, k ∉ app_columns -> r' !! k = r !! k)
                        else r' = r)
    /\ @response deployment edit_atlas world0
       = Some (answered 200 (success_message "Project updated successfully!")).
Proof.
  apply (@edit_app_updates_matching_rows deployment edit_atlas world0
           edit_atlas_fields "1690000000000_atlas.png" "1" "apps_demo"
           apps_demo eq_refl eq_refl eq_refl);
    try first [discriminate | vm_compute; reflexivity].
  exists "Atlas 2", "More maps", "https://atlas.example.com", "d-and-d".
  split_and!; try first [discriminate | vm_compute; reflexivity].
  right. reflexivity.
Defined.

Lemma create_project_stores_files_witness :
  public (@serve deployment project_with_files world0)
  = list_to_set (storage_filename <$> logo :: option_list (Some cv)) ∪ public world0
  /\ (exists row,
        tables (@serve deployment project_with_files world0)
        = <["projects" := {| next_id := 1 + 1; columns := project_columns;
                             rows := ([] ++ [row])%list |}]>
            (tables world0)
        /\ row !! "id" = Some (PNum 1)
        /\ row !! "image" = Some (PStr (storage_filename logo))
        /\ row !! "pdf" = Some (PStr (from_option storage_filename "" (Some cv))))
  /\ @response deployment project_with_files world0
     = Some (answered 200 (success_message "Project submitted successfully!"))
  /\ leased (@serve deployment project_with_files world0) = leased world0.
Proof.
  apply (@create_project_stores_files deployment project_with_files world0
           {[ "table" := "projects" ]} logo (Some cv) "projects"
           no_projects eq_refl eq_refl eq_refl eq_refl).
  - vm_compute; reflexivity.
  - intros v [= <-]. split; vm_compute; reflexivity.
  - vm_compute; reflexivity.
  - vm_compute; reflexivity.
  - reflexivity.
  - reflexivity.
Defined.

Lemma create_project_without_image_is_refused_witness :
  (@response deployment project_with_cv_only world0 = Some (bad_request [image_required])
   \/ @response deployment project_with_cv_only world0 = Some internal_server_error)
  /\ tables (@serve deployment project_with_cv_only world0) = tables world0
  /\ statements (@serve deployment project_with_cv_only world0) = statements world0
  /\ leased (@serve deployment project_with_cv_only world0) = leased world0.
Proof.
  apply (@create_project_without_image_is_refused deployment project_with_cv_only
           world0 {[ "table" := "projects" ]} [cv] eq_refl eq_refl eq_refl).
  - intros p Hp. apply list_elem_of_singleton in Hp as ->. discriminate.
  - reflexivity.
Defined.

Lemma edit_project_keeps_named_attachments_witness :
  statements (@serve deployment edit_project_by_name world_with_project)
  = (statements world_with_project
     ++ [Update "projects"
           [("pdf", Some (PStr (default "" (edit_project_fields !! "pdfFile"))));
            ("image", Some (PStr "1690000000000_brochure.png"))]
           (Some (PStr "1"))])%list
  /\ tables (@serve deployment edit_project_by_name world_with_project)
     = <["projects" :=
           {| next_id := 2; columns := project_columns;
              rows := map (fun r => if @matches deployment "id" (Some (PStr "1")) r
                                    then <["image" := PStr "1690000000000_brochure.png"]>
                                           (<["pdf" := PStr (default ""
                                                               (edit_project_fields
                                                                  !! "pdfFile"))]> r)
                                    else r)
                          [brochure] |}]> (tables world_with_project)
  /\ @response deployment edit_project_by_name world_with_project
     = Some (answered 200 (success_message "Project submitted successfully!"))
  /\ public (@serve deployment edit_project_by_name world_with_project)
     = public world_with_project
  /\ leased (@serve deployment edit_project_by_name world_with_project)
     = leased world_with_project.
Proof.
  apply (@edit_project_keeps_named_attachments deployment edit_project_by_name
           world_with_project edit_project_fields "1690000000000_brochure.png"
           "1" "projects" portfolio eq_refl eq_refl eq_refl);
    first [discriminate | vm_compute; reflexivity].
Defined.

Lemma second_file_in_a_field_is_refused_witness :
  @response deployment app_with_two_logos world0 = Some internal_server_error
  /\ tables (@serve deployment app_with_two_logos world0) = tables world0
  /\ statements (@serve deployment app_with_two_logos world0) = statements world0
  /\ public (@serve deployment app_with_two_logos world0) ⊆ public world0.
Proof.
  apply (@second_file_in_a_field_is_refused deployment app_with_two_logos world0
           create_fields [] [] [] logo logo eq_refl).
  - repeat constructor.
  - reflexivity.
  - discriminate.
  - discriminate.
  - reflexivity.
Defined.

Lemma listed_types_are_accepted_witness : fileFilter photo = true.
Proof.
  apply (listed_types_are_accepted photo "Photo" "JPG").
  - reflexivity.
  - discriminate.
  - reflexivity.
  - vm_compute. repeat constructor.
  - repeat constructor.
Defined.

Lemma file_without_extension_is_refused_witness :
  fileFilter readme = false
  /\ @response deployment app_with_readme world0 = Some internal_server_error
  /\ tables (@serve deployment app_with_readme world0) = tables world0
  /\ statements (@serve deployment app_with_readme world0) = statements world0
  /\ public (@serve deployment app_with_readme world0) ⊆ public world0.
Proof.
  apply (@file_without_extension_is_refused deployment app_with_readme world0
           create_fields [readme] readme eq_refl).
  - repeat constructor.
  - reflexivity.
  - repeat constructor.
  - discriminate.
  - reflexivity.
Defined.

Lemma login_token_only_for_credentials_witness :
  exists e pw user h,
    body (incoming alice_login) !! "email" = Some (PStr e)
    /\ body (incoming alice_login) !! "password" = Some (PStr pw)
    /\ @find_user deployment world0 e = Some user
    /\ user !! "password" = Some (PStr h)
    /\ @bcrypt_compare deployment pw h = true.
Proof.
  apply (@login_token_only_for_credentials deployment alice_login world0
           eq_refl eq_refl).
  eexists. vm_compute. reflexivity.
Defined.

Lemma edit_app_replaces_image_witness :
  public (@serve deployment edit_atlas_image world_with_file)
  = {[ storage_filename logo ]} ∪ public world_with_file
  /\ (exists T',
        tables (@serve deployment edit_atlas_image world_with_file)
        = <["apps_demo" := T']> (tables world_with_file)
        /\ next_id T' = 2
        /\ forall n r, [atlas] !! n = Some r ->
             exists r', rows T' !! n = Some r'
                        /\ if @matches deployment "id" (Some (PStr "1")) r
                           then r' !! "image" = Some (PStr (storage_filename logo))
                                /\ (forall k, k ∈ ["title"; "content"; "link"; "category"] ->
                                              r' !! k = PStr <$> edit_form !! k)
                                /\ r' !! "id" = r !! "id"
                           else r' = r)
  /\ @response deployment edit_atlas_image world_with_file
     = Some (answered 200 (success_message "Project updated successfully!")).
Proof.
  apply (@edit_app_replaces_image deployment edit_atlas_image world_with_file
           edit_form logo "1" "apps_demo" apps_demo
           eq_refl eq_refl eq_refl eq_refl);
    try first [discriminate | vm_compute; reflexivity].
  compass_is_valid.
Defined.
